(** * Brief-Case: a shallow embedding of the browser-side integration layer

  The development follows the JavaScript sources:
  - [payment.js]   : fee calculation, card validation, simulated payment;
  - [messaging.js] : conversations and messages;
  - [auth.js]      : sign-up validation;
  - [search.js]    : lawyer search, appointments, reviews.

  Modelling conventions.
  - JS strings are [string]s of 8-bit code units; [undefined]/[null] is
    [None] in an [option].
  - JS numbers are exact rationals ([Q]); [Math.round x] is
    [floor (x + 1/2)].  Every concrete number used below is computed
    without rounding error by IEEE doubles as well.
  - The hosted backend is a record of tables ([World]).  A table
    addressed by primary key is a [gmap]; a table addressed by column
    filters is a [list] of rows.  Every round trip to the backend is
    counted, and may fail according to a schedule carried by the world. *)

From Stdlib Require Import ZArith QArith Qround Lia Lqa Bool Ascii String.
From stdpp Require Import gmap strings list fin_maps sorting pretty.

Local Open Scope Z_scope.

(* ===================================================================== *)
(** ** JavaScript strings *)
(* ===================================================================== *)

Module Js.

Definition code (c : ascii) : Z := Z.of_nat (nat_of_ascii c).

Definition in_range (lo hi : Z) (c : ascii) : bool :=
  (lo <=? code c) && (code c <=? hi).

(** [\d], [\D] *)
Definition is_digit (c : ascii) : bool := in_range 48 57 c.
(** [[A-Z]], [[a-z]] *)
Definition is_upper (c : ascii) : bool := in_range 65 90 c.
Definition is_lower (c : ascii) : bool := in_range 97 122 c.
(** [\s] restricted to 8-bit code units: TAB, LF, VT, FF, CR, SPACE, NBSP. *)
Definition is_space (c : ascii) : bool :=
  in_range 9 13 c || (code c =? 32) || (code c =? 160).

(** [s.replace(/[^p]/g, '')]: keep the characters satisfying [p]. *)
Fixpoint keep (p : ascii -> bool) (s : string) : string :=
  match s with
  | EmptyString => EmptyString
  | String c r => if p c then String c (keep p r) else keep p r
  end.

(** [/[p]/.test(s)]: some character of [s] satisfies [p]. *)
Fixpoint has (p : ascii -> bool) (s : string) : bool :=
  match s with
  | EmptyString => false
  | String c r => p c || has p r
  end.

Fixpoint all (p : ascii -> bool) (s : string) : bool :=
  match s with
  | EmptyString => true
  | String c r => p c && all p r
  end.

(** [s[i]], with a default for the (unreachable) out-of-range read. *)
Definition at_ (s : string) (i : nat) : ascii :=
  match String.get i s with Some c => c | None => "0"%char end.

(** [parseInt(c)] on a single decimal digit. *)
Definition parseInt (c : ascii) : Z := code c - 48.

(** [!s] for a possibly missing string: [undefined], [null] and [''] are falsy. *)
Definition falsy (s : option string) : bool :=
  match s with
  | None => true
  | Some EmptyString => true
  | Some _ => false
  end.

(** [s.startsWith(p)] *)
Fixpoint starts_with (p s : string) : bool :=
  match p, s with
  | EmptyString, _ => true
  | String a p', String b s' => (code a =? code b) && starts_with p' s'
  | String _ _, EmptyString => false
  end.

(** [s.includes(p)] *)
Fixpoint includes (s p : string) : bool :=
  starts_with p s ||
  match s with
  | EmptyString => false
  | String _ r => includes r p
  end.

Definition lower_char (c : ascii) : ascii :=
  if is_upper c then ascii_of_nat (nat_of_ascii c + 32) else c.
Definition upper_char (c : ascii) : ascii :=
  if is_lower c then ascii_of_nat (nat_of_ascii c - 32) else c.

Fixpoint map_string (f : ascii -> ascii) (s : string) : string :=
  match s with
  | EmptyString => EmptyString
  | String c r => String (f c) (map_string f r)
  end.

Definition toLowerCase : string -> string := map_string lower_char.
Definition toUpperCase : string -> string := map_string upper_char.

Fixpoint trim_start (s : string) : string :=
  match s with
  | String c r => if is_space c then trim_start r else s
  | EmptyString => EmptyString
  end.

Fixpoint rev_string (s acc : string) : string :=
  match s with
  | EmptyString => acc
  | String c r => rev_string r (String c acc)
  end.

(** [s.trim()] *)
Definition trim (s : string) : string :=
  rev_string (trim_start (rev_string (trim_start s) EmptyString)) EmptyString.

(** [s.substring(a, b)] for [a <= b]. *)
Definition substring (a b : nat) (s : string) : string :=
  String.substring a (b - a) s.

End Js.

(* ===================================================================== *)
(** ** payment.js: card number validation *)
(* ===================================================================== *)

Module Card.

(** The [for] loop of [validateCardNumber].  [k] is [i + 1]: the loop
    runs for [i = k - 1] down to [0] and exits when [i < 0]. *)
Fixpoint luhn_loop (digits : string) (k : nat) (sum : Z) (isEven : bool) : Z :=
  match k with
  | O => sum
  | S i =>
      let digit := Js.parseInt (Js.at_ digits i) in
      let digit :=
        if isEven
        then (let digit := digit * 2 in
              if digit >? 9 then digit - 9 else digit)
        else digit in
      luhn_loop digits i (sum + digit) (negb isEven)
  end.

Definition validateCardNumber (cardNumber : string) : bool :=
  let digits := Js.keep Js.is_digit cardNumber in
  if ((String.length digits <? 13) || (19 <? String.length digits))%nat
  then false
  else luhn_loop digits (String.length digits) 0 false mod 10 =? 0.

(** *** The Luhn checksum as the standard defines it

    Counting from the rightmost digit, every second digit is doubled;
    the decimal digits of all resulting numbers are added; the number
    passes iff the total is a multiple of ten.  *)

Definition digit_sum (n : Z) : Z := n / 10 + n mod 10.

Fixpoint luhn_total (from_right : list Z) (doubled : bool) : Z :=
  match from_right with
  | [] => 0
  | d :: r =>
      (if doubled then digit_sum (2 * d) else d) + luhn_total r (negb doubled)
  end.

Definition digit_values (s : string) : list Z :=
  map Js.parseInt (list_ascii_of_string s).

Definition luhn_ok (digits : string) : Prop :=
  luhn_total (rev (digit_values digits)) false mod 10 = 0.

End Card.

(* ===================================================================== *)
(** ** payment.js: fee calculation *)
(* ===================================================================== *)

Module Fee.

(** [Math.round]: the nearest integer, halves towards plus infinity. *)
Definition Math_round (x : Q) : Q := inject_Z (Qfloor (x + (1 # 2))).





End Fee.

(* ===================================================================== *)
(** ** The hosted backend *)
(* ===================================================================== *)

(** What an awaited backend call resolves to: [{ data, error }]. *)
Module Supabase.

Record Response (A : Type) : Type := { data : option A; error : option string }.
Arguments data {A} _.
Arguments error {A} _.

Definition ok {A : Type} (x : A) : Response A := {| data := Some x; error := None |}.
Definition failed {A : Type} (msg : string) : Response A :=
  {| data := None; error := Some msg |}.
(** A write without [.select()] answers with neither data nor error. *)
Definition done {A : Type} : Response A := {| data := None; error := None |}.

Definition not_one_row : string :=
  "JSON object requested, multiple (or no) rows returned".

(** [.single()]: exactly one row, or an error. *)
Definition single {A : Type} (rows : list A) : Response A :=
  match rows with
  | [x] => ok x
  | _ => failed not_one_row
  end.

(** [.maybeSingle()]: no row is [null] without error; several rows are an error. *)
Definition maybeSingle {A : Type} (rows : list A) : Response A :=
  match rows with
  | [] => done
  | [x] => ok x
  | _ => failed not_one_row
  end.

End Supabase.

(** *** Rows *)

Module User.
Record t : Type := {
  id : string;
  email : string;
  user_type : option string;
  first_name : option string;
  last_name : option string;
  profile_photo_url : option string
}.
End User.

Module Lawyer.
Record t : Type := {
  id : string;
  bar_registration_no : option string;
  consultation_fee : option Q;
  consultation_type : option string;
  average_rating : option Q;
  total_reviews : option nat;
  biography : option string;
  law_firm : option string
}.
End Lawyer.

(** A row of [lawyer_practice_areas] with its embedded
    [practice_areas(name)], which is [null] when the area is gone. *)
Module PracticeAreaLink.
Record t : Type := { lawyer_id : string; practice_areas : option string }.
End PracticeAreaLink.

Module Availability.
Record t : Type := { lawyer_id : string; day : string; is_available : bool }.
End Availability.

Module Review.
Record t : Type := {
  lawyer_id : string;
  client_id : string;
  appointment_id : option string;
  rating : Q;
  review_text : option string;
  created_at : N
}.
End Review.

Module Appointment.
Record t : Type := {
  id : string;
  client_id : string;
  lawyer_id : string;
  appointment_date : string;
  appointment_time : string;
  title : string;
  description : option string;
  meeting_type : option string;
  status : string
}.

(** The row with its [status] column overwritten. *)
Definition with_status (status : string) (a : t) : t :=
  {| id := id a;
     client_id := client_id a;
     lawyer_id := lawyer_id a;
     appointment_date := appointment_date a;
     appointment_time := appointment_time a;
     title := title a;
     description := description a;
     meeting_type := meeting_type a;
     status := status |}.
End Appointment.

Module Document.
Record t : Type := { user_id : string; file_url : string; uploaded_at : N }.
End Document.

Module Conversation.
Record t : Type := {
  id : nat;
  client_id : string;
  lawyer_id : string;
  created_at : option N;
  last_message_at : option N
}.
End Conversation.

Module Message.
Record t : Type := {
  id : nat;
  conversation_id : nat;
  sender_id : string;
  message_text : option string;
  attachment_url : option string;
  created_at : N;
  is_read : bool;
  read_at : option N
}.
End Message.

Module PaymentMethod.
Record t : Type := {
  id : nat;
  user_id : string;
  payment_type : option string;
  card_type : option string;
  last_four_digits : option string;
  is_default : bool
}.
End PaymentMethod.

Module AuthUser.
Record t : Type := {
  id : string;
  email : string;
  confirmed_at : option N;
  identities : option (list string)
}.
End AuthUser.

(** *** The state of the backend, the network and the browser clock *)

Record World : Type := {
  users : gmap string User.t;  (** profile rows, keyed by [id] *)
  lawyers : gmap string Lawyer.t;  (** lawyer rows, keyed by [id] *)
  lawyer_practice_areas : list PracticeAreaLink.t;
  practice_areas : list string;
  lawyer_availability : list Availability.t;
  reviews : list Review.t;
  appointments : gmap string Appointment.t;  (** keyed by [id] *)
  documents : list Document.t;
  conversations : list Conversation.t;
  messages : list Message.t;
  payment_methods : list PaymentMethod.t;
  auth_users : list AuthUser.t;  (** the identities held by the auth service *)
  storage : list (string * string);  (** stored objects: bucket and path *)
  confirm_email : bool;  (** does the auth service require e-mail confirmation? *)
  serial : nat;  (** source of generated row identifiers *)
  uuid : nat -> string;  (** identifiers handed out by the auth service *)
  requests : nat;  (** round trips made so far *)
  outage : nat -> option string;  (** [outage n = Some msg]: round trip [n] fails with [msg] *)
  clock : N;  (** [Date.now()] *)
  random36 : string  (** [Math.random().toString(36)] *)
}.

Definition set_users (f : gmap string User.t -> gmap string User.t) (w : World) : World :=
  {| users := f (users w); lawyers := lawyers w;
     lawyer_practice_areas := lawyer_practice_areas w;
     practice_areas := practice_areas w;
     lawyer_availability := lawyer_availability w; reviews := reviews w;
     appointments := appointments w; documents := documents w;
     conversations := conversations w; messages := messages w;
     payment_methods := payment_methods w; auth_users := auth_users w;
     storage := storage w; confirm_email := confirm_email w;
     serial := serial w; uuid := uuid w; requests := requests w;
     outage := outage w; clock := clock w; random36 := random36 w |}.

Definition set_lawyers (f : gmap string Lawyer.t -> gmap string Lawyer.t) (w : World) : World :=
  {| users := users w; lawyers := f (lawyers w);
     lawyer_practice_areas := lawyer_practice_areas w;
     practice_areas := practice_areas w;
     lawyer_availability := lawyer_availability w; reviews := reviews w;
     appointments := appointments w; documents := documents w;
     conversations := conversations w; messages := messages w;
     payment_methods := payment_methods w; auth_users := auth_users w;
     storage := storage w; confirm_email := confirm_email w;
     serial := serial w; uuid := uuid w; requests := requests w;
     outage := outage w; clock := clock w; random36 := random36 w |}.

Definition set_appointments (f : gmap string Appointment.t -> gmap string Appointment.t) (w : World) : World :=
  {| users := users w; lawyers := lawyers w;
     lawyer_practice_areas := lawyer_practice_areas w;
     practice_areas := practice_areas w;
     lawyer_availability := lawyer_availability w; reviews := reviews w;
     appointments := f (appointments w); documents := documents w;
     conversations := conversations w; messages := messages w;
     payment_methods := payment_methods w; auth_users := auth_users w;
     storage := storage w; confirm_email := confirm_email w;
     serial := serial w; uuid := uuid w; requests := requests w;
     outage := outage w; clock := clock w; random36 := random36 w |}.

Definition set_conversations (f : list Conversation.t -> list Conversation.t) (w : World) : World :=
  {| users := users w; lawyers := lawyers w;
     lawyer_practice_areas := lawyer_practice_areas w;
     practice_areas := practice_areas w;
     lawyer_availability := lawyer_availability w; reviews := reviews w;
     appointments := appointments w; documents := documents w;
     conversations := f (conversations w); messages := messages w;
     payment_methods := payment_methods w; auth_users := auth_users w;
     storage := storage w; confirm_email := confirm_email w;
     serial := serial w; uuid := uuid w; requests := requests w;
     outage := outage w; clock := clock w; random36 := random36 w |}.

Definition set_messages (f : list Message.t -> list Message.t) (w : World) : World :=
  {| users := users w; lawyers := lawyers w;
     lawyer_practice_areas := lawyer_practice_areas w;
     practice_areas := practice_areas w;
     lawyer_availability := lawyer_availability w; reviews := reviews w;
     appointments := appointments w; documents := documents w;
     conversations := conversations w; messages := f (messages w);
     payment_methods := payment_methods w; auth_users := auth_users w;
     storage := storage w; confirm_email := confirm_email w;
     serial := serial w; uuid := uuid w; requests := requests w;
     outage := outage w; clock := clock w; random36 := random36 w |}.

Definition set_auth_users (f : list AuthUser.t -> list AuthUser.t) (w : World) : World :=
  {| users := users w; lawyers := lawyers w;
     lawyer_practice_areas := lawyer_practice_areas w;
     practice_areas := practice_areas w;
     lawyer_availability := lawyer_availability w; reviews := reviews w;
     appointments := appointments w; documents := documents w;
     conversations := conversations w; messages := messages w;
     payment_methods := payment_methods w; auth_users := f (auth_users w);
     storage := storage w; confirm_email := confirm_email w;
     serial := serial w; uuid := uuid w; requests := requests w;
     outage := outage w; clock := clock w; random36 := random36 w |}.

Definition set_storage (f : list (string * string) -> list (string * string)) (w : World) : World :=
  {| users := users w; lawyers := lawyers w;
     lawyer_practice_areas := lawyer_practice_areas w;
     practice_areas := practice_areas w;
     lawyer_availability := lawyer_availability w; reviews := reviews w;
     appointments := appointments w; documents := documents w;
     conversations := conversations w; messages := messages w;
     payment_methods := payment_methods w; auth_users := auth_users w;
     storage := f (storage w); confirm_email := confirm_email w;
     serial := serial w; uuid := uuid w; requests := requests w;
     outage := outage w; clock := clock w; random36 := random36 w |}.

Definition set_serial (f : nat -> nat) (w : World) : World :=
  {| users := users w; lawyers := lawyers w;
     lawyer_practice_areas := lawyer_practice_areas w;
     practice_areas := practice_areas w;
     lawyer_availability := lawyer_availability w; reviews := reviews w;
     appointments := appointments w; documents := documents w;
     conversations := conversations w; messages := messages w;
     payment_methods := payment_methods w; auth_users := auth_users w;
     storage := storage w; confirm_email := confirm_email w;
     serial := f (serial w); uuid := uuid w; requests := requests w;
     outage := outage w; clock := clock w; random36 := random36 w |}.

Definition set_requests (f : nat -> nat) (w : World) : World :=
  {| users := users w; lawyers := lawyers w;
     lawyer_practice_areas := lawyer_practice_areas w;
     practice_areas := practice_areas w;
     lawyer_availability := lawyer_availability w; reviews := reviews w;
     appointments := appointments w; documents := documents w;
     conversations := conversations w; messages := messages w;
     payment_methods := payment_methods w; auth_users := auth_users w;
     storage := storage w; confirm_email := confirm_email w;
     serial := serial w; uuid := uuid w; requests := f (requests w);
     outage := outage w; clock := clock w; random36 := random36 w |}.

Definition set_clock (f : N -> N) (w : World) : World :=
  {| users := users w; lawyers := lawyers w;
     lawyer_practice_areas := lawyer_practice_areas w;
     practice_areas := practice_areas w;
     lawyer_availability := lawyer_availability w; reviews := reviews w;
     appointments := appointments w; documents := documents w;
     conversations := conversations w; messages := messages w;
     payment_methods := payment_methods w; auth_users := auth_users w;
     storage := storage w; confirm_email := confirm_email w;
     serial := serial w; uuid := uuid w; requests := requests w;
     outage := outage w; clock := f (clock w); random36 := random36 w |}.

(** Every round trip takes time and is counted. *)
Definition tick (w : World) : World :=
  set_clock (fun t => (t + 1)%N) (set_requests S w).

(** *** Asynchronous code that may throw

    An [async] function body is a state transformer on the world that
    either returns a value or throws an error message. *)

Definition Async (A : Type) : Type := World -> (string + A) * World.

Global Instance Async_ret : MRet Async := fun A x w => (inr x, w).
Global Instance Async_bind : MBind Async := fun A B k m w =>
  match m w with
  | (inl e, w') => (inl e, w')
  | (inr x, w') => k x w'
  end.

(** [throw new Error(msg)] *)
Definition throw {A : Type} (msg : string) : Async A := fun w => (inl msg, w).

(** [try { body } catch (error) { return handler(error.message) }] *)
Definition try_catch {A : Type} (body : Async A) (handler : string -> A)
  : World -> A * World :=
  fun w =>
    match body w with
    | (inl e, w') => (handler e, w')
    | (inr x, w') => (x, w')
    end.

(** [Date.now()] / [new Date()] *)
Definition Date_now : Async N := fun w => (inr (clock w), w).

(** [await new Promise(resolve => setTimeout(resolve, ms))] *)
Definition sleep (ms : N) : Async unit :=
  fun w => (inr tt, set_clock (fun t => (t + ms)%N) w).

(** One awaited call to the backend.  The call never throws: when the
    round trip fails the response carries the error and nothing is served. *)
Definition request {A : Type} (serve : World -> Supabase.Response A * World)
  : Async (Supabase.Response A) :=
  fun w =>
    match outage w (requests w) with
    | Some msg => (inr (Supabase.failed msg), tick w)
    | None => let '(r, w') := serve (tick w) in (inr r, w')
    end.

(** A read leaves the tables alone. *)
Definition read {A : Type} (answer : World -> Supabase.Response A)
  : Async (Supabase.Response A) :=
  request (fun w => (answer w, w)).

(** The uniform result shape [{ success, data, error }]; a field that the
    returned object does not have is [None]. *)
Record Result (A : Type) : Type := {
  success : bool;
  data : option A;
  error : option string
}.
Arguments success {A} _.
Arguments data {A} _.
Arguments error {A} _.

(** [a || []] *)
Definition or_empty {A : Type} (a : option (list A)) : list A :=
  match a with
  | Some l => l
  | None => []
  end.

(** Rows of a keyed table with [id = key]. *)
Definition rows_at {A : Type} (tbl : gmap string A) (key : string) : list A :=
  match tbl !! key with
  | Some r => [r]
  | None => []
  end.

(** All rows of a keyed table, for queries on other columns. *)
Definition rows_of {A : Type} (tbl : gmap string A) : list A :=
  (map_to_list tbl).*2.

(* ===================================================================== *)
(** ** messaging.js *)
(* ===================================================================== *)

Module Messaging.

(** [.from('users').select('user_type').eq('id', userId).single()];
    the data is the object [{ user_type }]. *)
Definition select_user_type (userId : string)
  : Async (Supabase.Response (option string)) :=
  read (fun w => Supabase.single (User.user_type <$> rows_at (users w) userId)).

(** The [if / else if / else] that determines [clientId] and [lawyerId]
    from [user1Profile?.user_type]; the result is [(clientId, lawyerId)]. *)
Definition assign_roles (user1Type : option string) (userId1 userId2 : string)
  : string * string :=
  if bool_decide (user1Type = Some "client") then (userId1, userId2)
  else if bool_decide (user1Type = Some "lawyer") then (userId2, userId1)
  else (userId1, userId2).

Definition same_pair (clientId lawyerId : string) (c : Conversation.t) : Prop :=
  Conversation.client_id c = clientId /\ Conversation.lawyer_id c = lawyerId.

Global Instance same_pair_dec (clientId lawyerId : string) (c : Conversation.t) :
  Decision (same_pair clientId lawyerId c).
Proof. unfold same_pair. apply _. Defined.

(** [.from('conversations').select('*').eq('client_id', ..).eq('lawyer_id', ..).maybeSingle()] *)
Definition find_conversation (clientId lawyerId : string)
  : Async (Supabase.Response Conversation.t) :=
  read (fun w =>
    Supabase.maybeSingle (filter (same_pair clientId lawyerId) (conversations w))).

(** [.from('conversations').insert({..}).select().single()] *)
Definition new_conversation (id : nat) (clientId lawyerId : string) (created : N)
  : Conversation.t :=
  {| Conversation.id := id;
     Conversation.client_id := clientId;
     Conversation.lawyer_id := lawyerId;
     Conversation.created_at := Some created;
     Conversation.last_message_at := None |}.

Definition insert_conversation (clientId lawyerId : string) (created : N)
  : Async (Supabase.Response Conversation.t) :=
  request (fun w =>
    let row := new_conversation (serial w) clientId lawyerId created in
    (Supabase.ok row,
     set_serial S (set_conversations (fun rows => rows ++ [row]) w))).

Definition null_id_error : string :=
  "Cannot read properties of null (reading 'id')".

Definition getOrCreateConversation (userId1 userId2 : string)
  : World -> Result Conversation.t * World :=
  try_catch
    (user1Profile ← select_user_type userId1;
     user2Profile ← select_user_type userId2;
     let '(clientId, lawyerId) :=
       assign_roles (mjoin (Supabase.data user1Profile)) userId1 userId2 in
     existing ← find_conversation clientId lawyerId;
     match Supabase.data existing with
     | Some existing =>
         mret {| success := true; data := Some existing; error := None |}
     | None =>
         created ← Date_now;
         inserted ← insert_conversation clientId lawyerId created;
         match Supabase.error inserted with
         | Some createError => throw createError
         | None =>
             match Supabase.data inserted with
             | Some newConv =>
                 mret {| success := true; data := Some newConv; error := None |}
             | None => throw null_id_error
             end
         end
     end)
    (fun message => {| success := false; data := None; error := Some message |}).

(** *** Listing conversations *)

Record ConversationDetails : Type := {
  conv : Conversation.t;
  client : option User.t;
  lawyer : option User.t;
  lastMessage : option Message.t;
  unreadCount : nat
}.

(** [.order('last_message_at', { ascending: false, nullsFirst: false })] *)
Definition newer_first (a b : Conversation.t) : Prop :=
  match Conversation.last_message_at a, Conversation.last_message_at b with
  | _, None => True
  | None, Some _ => False
  | Some x, Some y => (y <= x)%N
  end.

Global Instance newer_first_dec (a b : Conversation.t) : Decision (newer_first a b).
Proof.
  unfold newer_first.
  destruct (Conversation.last_message_at a), (Conversation.last_message_at b);
    apply _.
Defined.

Definition party (userId : string) (c : Conversation.t) : Prop :=
  Conversation.client_id c = userId \/ Conversation.lawyer_id c = userId.

Global Instance party_dec (userId : string) (c : Conversation.t) :
  Decision (party userId c).
Proof. unfold party. apply _. Defined.

Definition select_user (userId : string) : Async (Supabase.Response User.t) :=
  read (fun w => Supabase.single (rows_at (users w) userId)).

Definition message_later (a b : Message.t) : Prop :=
  (Message.created_at b <= Message.created_at a)%N.
Definition message_earlier (a b : Message.t) : Prop :=
  (Message.created_at a <= Message.created_at b)%N.

Global Instance message_later_dec (a b : Message.t) : Decision (message_later a b).
Proof. unfold message_later. apply _. Defined.
Global Instance message_earlier_dec (a b : Message.t) : Decision (message_earlier a b).
Proof. unfold message_earlier. apply _. Defined.

Definition in_conversation (conversationId : nat) (m : Message.t) : Prop :=
  Message.conversation_id m = conversationId.

Global Instance in_conversation_dec (conversationId : nat) (m : Message.t) :
  Decision (in_conversation conversationId m).
Proof. unfold in_conversation. apply _. Defined.

(** The filter [.eq('conversation_id', c).neq('sender_id', u).eq('is_read', false)],
    shared by the unread count and by [markMessagesAsRead]. *)
Definition unread_for (conversationId : nat) (userId : string) (m : Message.t) : bool :=
  bool_decide (Message.conversation_id m = conversationId)
  && negb (bool_decide (Message.sender_id m = userId))
  && negb (Message.is_read m).

Definition last_message (conversationId : nat) : Async (Supabase.Response Message.t) :=
  read (fun w =>
    Supabase.maybeSingle
      (take 1 (merge_sort message_later
                 (filter (in_conversation conversationId) (messages w))))).

Definition count_unread (conversationId : nat) (userId : string)
  : Async (Supabase.Response nat) :=
  read (fun w =>
    Supabase.ok
      (length (List.filter (unread_for conversationId userId) (messages w)))).

(** [await Promise.all(rows.map(async row => ..))]: the callbacks only
    read, so they are run one after the other. *)
Fixpoint for_each {A B : Type} (f : A -> Async B) (rows : list A) : Async (list B) :=
  match rows with
  | [] => mret []
  | row :: rest =>
      y ← f row;
      ys ← for_each f rest;
      mret (y :: ys)
  end.

Definition getUserConversations (userId : string)
  : World -> Result (list ConversationDetails) * World :=
  try_catch
    (found ← read (fun w =>
        Supabase.ok (merge_sort newer_first
                       (filter (party userId) (conversations w))));
     match Supabase.error found with
     | Some convError => throw convError
     | None =>
         conversationsWithDetails ←
           for_each
             (fun conv =>
                client ← select_user (Conversation.client_id conv);
                lawyer ← select_user (Conversation.lawyer_id conv);
                lastMsg ← last_message (Conversation.id conv);
                count ← count_unread (Conversation.id conv) userId;
                mret {| conv := conv;
                        client := Supabase.data client;
                        lawyer := Supabase.data lawyer;
                        lastMessage := Supabase.data lastMsg;
                        unreadCount := default 0%nat (Supabase.data count) |})
             (or_empty (Supabase.data found));
         mret {| success := true;
                 data := Some conversationsWithDetails;
                 error := None |}
     end)
    (fun message => {| success := false; data := Some []; error := Some message |}).

(** *** Messages *)

Record MessageWithSender : Type := { msg : Message.t; sender : option User.t }.

(** The default value of the parameter [limit]. *)
Definition default_limit : nat := 50.

Definition getMessages (conversationId : nat) (limit : option nat)
  : World -> Result (list MessageWithSender) * World :=
  let limit := default default_limit limit in
  try_catch
    (found ← read (fun w =>
        Supabase.ok
          (take limit
             (merge_sort message_earlier
                (filter (in_conversation conversationId) (messages w)))));
     match Supabase.error found with
     | Some error => throw error
     | None =>
         messagesWithSender ←
           for_each
             (fun msg =>
                sender ← select_user (Message.sender_id msg);
                mret {| msg := msg; sender := Supabase.data sender |})
             (or_empty (Supabase.data found));
         mret {| success := true;
                 data := Some (or_empty (Some messagesWithSender));
                 error := None |}
     end)
    (fun message => {| success := false; data := Some []; error := Some message |}).

Definition mark_read (now : N) (m : Message.t) : Message.t :=
  {| Message.id := Message.id m;
     Message.conversation_id := Message.conversation_id m;
     Message.sender_id := Message.sender_id m;
     Message.message_text := Message.message_text m;
     Message.attachment_url := Message.attachment_url m;
     Message.created_at := Message.created_at m;
     Message.is_read := true;
     Message.read_at := Some now |}.

(** The table after the bulk update: the rows passing the filter are
    overwritten, the others are kept. *)
Definition marked (conversationId : nat) (userId : string) (now : N)
    (rows : list Message.t) : list Message.t :=
  map (fun m => if unread_for conversationId userId m then mark_read now m else m) rows.

(** [.from('messages').update({ is_read: true, read_at }).eq(..).neq(..).eq(..)] *)
Definition update_unread (conversationId : nat) (userId : string) (now : N)
  : Async (Supabase.Response unit) :=
  request (fun w =>
    (Supabase.done, set_messages (marked conversationId userId now) w)).

Definition markMessagesAsRead (conversationId : nat) (userId : string)
  : World -> Result unit * World :=
  try_catch
    (now ← Date_now;
     updated ← update_unread conversationId userId now;
     match Supabase.error updated with
     | Some error => throw error
     | None => mret {| success := true; data := None; error := None |}
     end)
    (fun message => {| success := false; data := None; error := Some message |}).

End Messaging.

(* ===================================================================== *)
(** ** search.js: lawyers, appointments and reviews *)
(* ===================================================================== *)

Module Search.

(** *** Lawyer search *)


(** A lawyer row with its embedded [users!inner(..)] and
    [lawyer_practice_areas(practice_areas(name))]. *)
Record LawyerHit : Type := {
  lawyer : Lawyer.t;
  users_ : option User.t;
  lawyer_practice_areas_ : list PracticeAreaLink.t
}.






Definition links_of (lawyerId : string) (l : PracticeAreaLink.t) : Prop :=
  PracticeAreaLink.lawyer_id l = lawyerId.

Global Instance links_of_dec (lawyerId : string) (l : PracticeAreaLink.t) :
  Decision (links_of lawyerId l).
Proof. unfold links_of. apply _. Defined.





(** [a.average_rating || 0] *)
Definition rating_or_zero (hit : LawyerHit) : Q :=
  match Lawyer.average_rating (lawyer hit) with
  | Some q => if Qeq_bool q 0 then 0%Q else q
  | None => 0%Q
  end.

(** The comparator [(a, b) => ratingB - ratingA] keeps [a] before [b]
    when [ratingB <= ratingA]. *)
Definition better_rated (a b : LawyerHit) : Prop :=
  Is_true (Qle_bool (rating_or_zero b) (rating_or_zero a)).

Global Instance better_rated_dec (a b : LawyerHit) : Decision (better_rated a b).
Proof. unfold better_rated. apply _. Defined.


(** *** The plain collection fetches

    [getPracticeAreas], [getLawyerAvailability], [getBookedSlots],
    [getUserAppointments], [getLawyerReviews] and [getUserDocuments] all
    have one body: await the query, throw its error, return
    [data || []]; the handler returns an empty array with the message. *)
Definition fetch_list {A : Type} (query : World -> list A)
  : World -> Result (list A) * World :=
  try_catch
    (found ← read (fun w => Supabase.ok (query w));
     match Supabase.error found with
     | Some error => throw error
     | None =>
         mret {| success := true;
                 data := Some (or_empty (Supabase.data found));
                 error := None |}
     end)
    (fun message => {| success := false; data := Some []; error := Some message |}).

Definition by_name (a b : string) : Prop := String.leb a b = true.
Global Instance by_name_dec (a b : string) : Decision (by_name a b).
Proof. unfold by_name. apply _. Defined.



Definition getBookedSlots (lawyerId date : string)
  : World -> Result (list string) * World :=
  fetch_list (fun w =>
    Appointment.appointment_time <$>
    List.filter
      (fun a => bool_decide (Appointment.lawyer_id a = lawyerId)
                && bool_decide (Appointment.appointment_date a = date)
                && (bool_decide (Appointment.status a = "scheduled")
                    || bool_decide (Appointment.status a = "rescheduled")))
      (rows_of (appointments w))).

Definition earlier_date (a b : Appointment.t) : Prop :=
  String.leb (Appointment.appointment_date a) (Appointment.appointment_date b) = true.
Global Instance earlier_date_dec (a b : Appointment.t) : Decision (earlier_date a b).
Proof. unfold earlier_date. apply _. Defined.

(** The embedded [lawyers!inner(users!inner(..))] drops appointments
    whose lawyer has no lawyer row or no profile row. *)
Definition getUserAppointments (userId : string) (status : option string)
  : World -> Result (list Appointment.t) * World :=
  fetch_list (fun w =>
    List.filter
      (fun a => if Js.falsy status then true
                else bool_decide (Some (Appointment.status a) = status))
      (merge_sort earlier_date
         (List.filter
            (fun a => (bool_decide (Appointment.client_id a = userId)
                       || bool_decide (Appointment.lawyer_id a = userId))
                      && bool_decide (is_Some (lawyers w !! Appointment.lawyer_id a))
                      && bool_decide (is_Some (users w !! Appointment.lawyer_id a)))
            (rows_of (appointments w))))).

Definition newer_review (a b : Review.t) : Prop :=
  (Review.created_at b <= Review.created_at a)%N.
Global Instance newer_review_dec (a b : Review.t) : Decision (newer_review a b).
Proof. unfold newer_review. apply _. Defined.


Definition newer_document (a b : Document.t) : Prop :=
  (Document.uploaded_at b <= Document.uploaded_at a)%N.
Global Instance newer_document_dec (a b : Document.t) : Decision (newer_document a b).
Proof. unfold newer_document. apply _. Defined.


End Search.

(* ===================================================================== *)
(** ** search.js: appointments *)
(* ===================================================================== *)

Module Appointments.

(** The object passed as [updates]: the columns to overwrite. *)
Record Updates : Type := {
  appointment_date : option string;
  appointment_time : option string;
  title : option string;
  description : option string;
  meeting_type : option string;
  status : option string
}.

Definition no_updates : Updates :=
  {| appointment_date := None; appointment_time := None; title := None;
     description := None; meeting_type := None; status := None |}.

Definition apply_updates (u : Updates) (a : Appointment.t) : Appointment.t :=
  {| Appointment.id := Appointment.id a;
     Appointment.client_id := Appointment.client_id a;
     Appointment.lawyer_id := Appointment.lawyer_id a;
     Appointment.appointment_date :=
       default (Appointment.appointment_date a) (appointment_date u);
     Appointment.appointment_time :=
       default (Appointment.appointment_time a) (appointment_time u);
     Appointment.title := default (Appointment.title a) (title u);
     Appointment.description :=
       match description u with
       | Some d => Some d
       | None => Appointment.description a
       end;
     Appointment.meeting_type :=
       match meeting_type u with
       | Some m => Some m
       | None => Appointment.meeting_type a
       end;
     Appointment.status := default (Appointment.status a) (status u) |}.

(** [.from('appointments').update(updates).eq('id', id).select().single()] *)
Definition update_row (appointmentId : string) (updates : Updates)
  : Async (Supabase.Response Appointment.t) :=
  request (fun w =>
    match appointments w !! appointmentId with
    | Some a =>
        let a' := apply_updates updates a in
        (Supabase.ok a', set_appointments (insert appointmentId a') w)
    | None => (Supabase.failed Supabase.not_one_row, w)
    end).

Definition updateAppointment (appointmentId : string) (updates : Updates)
  : World -> Result Appointment.t * World :=
  try_catch
    (updated ← update_row appointmentId updates;
     match Supabase.error updated with
     | Some error => throw error
     | None =>
         mret {| success := true; data := Supabase.data updated; error := None |}
     end)
    (fun message => {| success := false; data := None; error := Some message |}).

Definition cancelAppointment (appointmentId : string)
  : World -> Result Appointment.t * World :=
  updateAppointment appointmentId
    {| appointment_date := None; appointment_time := None; title := None;
       description := None; meeting_type := None; status := Some "cancelled" |}.

(** [.from('appointments').delete().eq('id', id).select()] answers with
    the rows it removed. *)
Definition delete_row (appointmentId : string)
  : Async (Supabase.Response (list Appointment.t)) :=
  request (fun w =>
    (Supabase.ok (rows_at (appointments w) appointmentId),
     set_appointments (delete appointmentId) w)).

Definition deleteAppointment (appointmentId : string)
  : World -> Result unit * World :=
  try_catch
    (deleted ← delete_row appointmentId;
     match Supabase.error deleted with
     | Some error => throw error
     | None =>
         match Supabase.data deleted with
         | None | Some [] =>
             mret {| success := false; data := None;
                     error := Some "Could not delete appointment. Check permissions." |}
         | Some _ => mret {| success := true; data := None; error := None |}
         end
     end)
    (fun message => {| success := false; data := None; error := Some message |}).

End Appointments.

(* ===================================================================== *)
(** ** search.js: reviews *)
(* ===================================================================== *)

Module Reviews.

(** The object [updateLawyerRating] returns:
    [{ success, average, count }] or [{ success, error }]. *)
Record RatingUpdate : Type := {
  success : bool;
  average : option Q;
  count : option nat;
  error : option string
}.

Definition for_lawyer (lawyerId : string) (r : Review.t) : Prop :=
  Review.lawyer_id r = lawyerId.

Global Instance for_lawyer_dec (lawyerId : string) (r : Review.t) :
  Decision (for_lawyer lawyerId r).
Proof. unfold for_lawyer. apply _. Defined.

(** [.from('reviews').select('rating').eq('lawyer_id', lawyerId)]: the
    data is the list of [{ rating }] objects. *)
Definition ratings_of (lawyerId : string) (w : World) : list Q :=
  Review.rating <$> filter (for_lawyer lawyerId) (reviews w).

Definition select_ratings (lawyerId : string) : Async (Supabase.Response (list Q)) :=
  read (fun w => Supabase.ok (ratings_of lawyerId w)).

Definition set_rating (average : Q) (count : nat) (l : Lawyer.t) : Lawyer.t :=
  {| Lawyer.id := Lawyer.id l;
     Lawyer.bar_registration_no := Lawyer.bar_registration_no l;
     Lawyer.consultation_fee := Lawyer.consultation_fee l;
     Lawyer.consultation_type := Lawyer.consultation_type l;
     Lawyer.average_rating := Some average;
     Lawyer.total_reviews := Some count;
     Lawyer.biography := Lawyer.biography l;
     Lawyer.law_firm := Lawyer.law_firm l |}.

(** [.from('lawyers').update({ average_rating, total_reviews }).eq('id', lawyerId)] *)
Definition update_rating (lawyerId : string) (average : Q) (count : nat)
  : Async (Supabase.Response unit) :=
  request (fun w =>
    (Supabase.done, set_lawyers (alter (set_rating average count) lawyerId) w)).

(** [reviews.reduce((sum, review) => sum + review.rating, 0)] *)
Definition totalRating (ratings : list Q) : Q :=
  fold_left (fun sum rating => (sum + rating)%Q) ratings 0%Q.

Definition roundedAverage (ratings : list Q) : Q :=
  let averageRating := (totalRating ratings / inject_Z (Z.of_nat (length ratings)))%Q in
  (Fee.Math_round (averageRating * 10) / 10)%Q.

Definition updateLawyerRating (lawyerId : string) : World -> RatingUpdate * World :=
  try_catch
    (found ← select_ratings lawyerId;
     match Supabase.error found with
     | Some reviewError => throw reviewError
     | None =>
         match Supabase.data found with
         | None | Some [] =>
             updated ← update_rating lawyerId 5%Q 0%nat;
             match Supabase.error updated with
             | Some updateError => throw updateError
             | None =>
                 mret {| success := true; average := Some 5%Q;
                         count := Some 0%nat; error := None |}
             end
         | Some reviews =>
             updated ← update_rating lawyerId (roundedAverage reviews) (length reviews);
             match Supabase.error updated with
             | Some updateError => throw updateError
             | None =>
                 mret {| success := true;
                         average := Some (roundedAverage reviews);
                         count := Some (length reviews);
                         error := None |}
             end
         end
     end)
    (fun message =>
       {| success := false; average := None; count := None; error := Some message |}).

(** *** The rating as the specification words it *)

Definition mean (ratings : list Q) : Q :=
  (foldr Qplus 0 ratings / inject_Z (Z.of_nat (length ratings)))%Q.


End Reviews.

(* ===================================================================== *)
(** ** payment.js: payment methods and the simulated payment *)
(* ===================================================================== *)

Module Payment.

Definition default_first (a b : PaymentMethod.t) : Prop :=
  Is_true (implb (PaymentMethod.is_default b) (PaymentMethod.is_default a)).

Global Instance default_first_dec (a b : PaymentMethod.t) : Decision (default_first a b).
Proof. unfold default_first. apply _. Defined.

Definition getUserPaymentMethods (userId : string)
  : World -> Result (list PaymentMethod.t) * World :=
  try_catch
    (found ← read (fun w =>
        Supabase.ok
          (merge_sort default_first
             (List.filter (fun m => bool_decide (PaymentMethod.user_id m = userId))
                          (payment_methods w))));
     match Supabase.error found with
     | Some error => throw error
     | None =>
         mret {| success := true;
                 data := Some (or_empty (Supabase.data found));
                 error := None |}
     end)
    (fun message => {| success := false; data := Some []; error := Some message |}).

Record PaymentData : Type := {
  amount : option Q;
  appointmentId : option string;
  currency : option string;
  paymentMethod : option string
}.

Record PaymentRecord : Type := {
  appointment_id : string;
  record_amount : Q;
  record_currency : string;
  payment_method : option string;
  record_status : string;
  transaction_id : string;
  payment_date : N
}.

(** What [processPayment] returns:
    [{ success, transactionId, paymentRecord }] or [{ success, error }]. *)
Record PaymentResult : Type := {
  success : bool;
  transactionId : option string;
  paymentRecord : option PaymentRecord;
  error : option string
}.

(** [Math.random().toString(36)] *)
Definition Math_random36 : Async string := fun w => (inr (random36 w), w).

Definition generateTransactionId : Async string :=
  timestamp ← Date_now;
  digits ← Math_random36;
  let random := Js.toUpperCase (Js.substring 2 9 digits) in
  mret ("TXN-" +:+ pretty timestamp +:+ "-" +:+ random).

(** [!amount || amount <= 0] *)
Definition invalid_amount (amount : option Q) : bool :=
  match amount with
  | None => true
  | Some a => Qeq_bool a 0 || Qle_bool a 0
  end.

(** [.from('appointments').update({ status: 'confirmed' }).eq('id', id)] *)
Definition confirm_appointment (appointmentId : string)
  : Async (Supabase.Response unit) :=
  request (fun w =>
    (Supabase.done,
     set_appointments (alter (Appointment.with_status "confirmed") appointmentId) w)).

Definition processPayment (paymentData : PaymentData)
  : World -> PaymentResult * World :=
  try_catch
    (if invalid_amount (amount paymentData)
     then throw "Invalid payment amount"
     else if Js.falsy (appointmentId paymentData)
     then throw "Appointment ID required"
     else
       let amount := default 0%Q (amount paymentData) in
       let appointmentId := default "" (appointmentId paymentData) in
       _ ← sleep 2000;
       transaction_id ← generateTransactionId;
       payment_date ← Date_now;
       let paymentRecord :=
         {| appointment_id := appointmentId;
            record_amount := amount;
            record_currency :=
              (if Js.falsy (currency paymentData) then "PKR"
               else default "PKR" (currency paymentData));
            payment_method := paymentMethod paymentData;
            record_status := "completed";
            transaction_id := transaction_id;
            payment_date := payment_date |} in
       updated ← confirm_appointment appointmentId;
       match Supabase.error updated with
       | Some updateError => throw updateError
       | None =>
           mret {| success := true;
                   transactionId := Some transaction_id;
                   paymentRecord := Some paymentRecord;
                   error := None |}
       end)
    (fun message =>
       {| success := false; transactionId := None; paymentRecord := None;
          error := Some message |}).

End Payment.

(* ===================================================================== *)
(** ** Regular expressions, as far as the sources use them *)
(* ===================================================================== *)

Module Regex.

Inductive t : Type :=
| Never
| Empty
| Class (p : ascii -> bool)
| Seq (r s : t)
| Alt (r s : t)
| Star (r : t).

(** [r+] *)
Definition Plus (r : t) : t := Seq r (Star r).

Fixpoint nullable (r : t) : bool :=
  match r with
  | Never => false
  | Empty => true
  | Class _ => false
  | Seq r s => nullable r && nullable s
  | Alt r s => nullable r || nullable s
  | Star _ => true
  end.

(** What remains to be matched after reading [c]. *)
Fixpoint derive (c : ascii) (r : t) : t :=
  match r with
  | Never => Never
  | Empty => Never
  | Class p => if p c then Empty else Never
  | Seq r s =>
      if nullable r
      then Alt (Seq (derive c r) s) (derive c s)
      else Seq (derive c r) s
  | Alt r s => Alt (derive c r) (derive c s)
  | Star r => Seq (derive c r) (Star r)
  end.

(** [/^r$/.test(s)] *)
Fixpoint test (r : t) (s : string) : bool :=
  match s with
  | EmptyString => nullable r
  | String c s' => test (derive c r) s'
  end.

End Regex.

(* ===================================================================== *)
(** ** supabase-client.js: helpers used by the sign-up code *)
(* ===================================================================== *)

Module SupabaseClient.

Definition SUPABASE_URL : string := "https://iysgxcwspllzfdpjrcms.supabase.co".
Definition PROFILE_PHOTOS : string := "profile-photos".

(** [[^\s@]] *)
Definition local_char (c : ascii) : bool :=
  negb (Js.is_space c) && negb (Js.code c =? 64).

(** [/^[^\s@]+@[^\s@]+\.[^\s@]+$/] *)
Definition email_re : Regex.t :=
  Regex.Seq (Regex.Plus (Regex.Class local_char))
    (Regex.Seq (Regex.Class (fun c => Js.code c =? 64))
       (Regex.Seq (Regex.Plus (Regex.Class local_char))
          (Regex.Seq (Regex.Class (fun c => Js.code c =? 46))
             (Regex.Plus (Regex.Class local_char))))).

Definition isValidEmail (email : string) : bool := Regex.test email_re email.

Record File : Type := { name : string }.

(** [supabase.storage.from(bucket).upload(path, file, ..)] followed by
    [getPublicUrl]; any failure makes the helper return [null]. *)
Definition uploadFile (bucket : string) (file : File) (path : string)
  : Async (option string) :=
  uploaded ← request (fun w =>
    (Supabase.ok path, set_storage (fun objects => objects ++ [(bucket, path)]) w));
  match Supabase.error uploaded, Supabase.data uploaded with
  | None, Some path =>
      mret (Some (SUPABASE_URL +:+ "/storage/v1/object/public/" +:+ bucket
                  +:+ "/" +:+ path))
  | _, _ => mret None
  end.

End SupabaseClient.

(* ===================================================================== *)
(** ** auth.js: signing up *)
(* ===================================================================== *)

Module Auth.

(** What the two sign-up functions return. *)
Record SignUpResult : Type := {
  success : bool;
  needsConfirmation : option bool;
  message : option string;
  user : option AuthUser.t;
  email : option string;
  error : option string
}.

Definition failure (message : string) : SignUpResult :=
  {| success := false; needsConfirmation := None; message := None;
     user := None; email := None; error := Some message |}.

(** [supabase.auth.admin.listUsers()] from a browser: a round trip that
    the service refuses. *)
Definition listUsers : Async (Supabase.Response unit) :=
  request (fun w => (Supabase.failed "User not allowed", w)).

Definition has_email (email : string) (u : User.t) : Prop := User.email u = email.
Global Instance has_email_dec (email : string) (u : User.t) : Decision (has_email email u).
Proof. unfold has_email. apply _. Defined.

(** The function catches nothing that the model can throw, so its
    [catch] clause does not appear; it returns [exists]. *)
Definition checkEmailExists (email : string) : Async bool :=
  _ ← listUsers;
  found ← read (fun w =>
    Supabase.maybeSingle
      (filter (has_email (Js.toLowerCase email)) (rows_of (users w))));
  mret (bool_decide (is_Some (Supabase.data found))).

Definition registered (email : string) (a : AuthUser.t) : Prop := AuthUser.email a = email.
Global Instance registered_dec (email : string) (a : AuthUser.t) :
  Decision (registered email a).
Proof. unfold registered. apply _. Defined.

(** [supabase.auth.signUp({ email, password, options })].  A new address
    gets an identity, confirmed at once unless the service requires
    confirmation.  A known address is refused, or, when confirmation is
    required, answered with a decoy user that has no identities. *)
Definition auth_signUp (email password : string)
  : Async (Supabase.Response AuthUser.t) :=
  request (fun w =>
    match filter (registered email) (auth_users w) with
    | [] =>
        let user :=
          {| AuthUser.id := uuid w (serial w);
             AuthUser.email := email;
             AuthUser.confirmed_at :=
               (if confirm_email w then None else Some (clock w));
             AuthUser.identities := Some [email] |} in
        (Supabase.ok user,
         set_serial S (set_auth_users (fun ids => ids ++ [user]) w))
    | _ :: _ =>
        if confirm_email w
        then (Supabase.ok {| AuthUser.id := uuid w (serial w);
                             AuthUser.email := email;
                             AuthUser.confirmed_at := None;
                             AuthUser.identities := Some [] |},
              set_serial S w)
        else (Supabase.failed "User already registered", w)
    end).

(** A field interpolated into a template string. *)
Definition interpolate (field : option string) : string := default "undefined" field.

Record SignUpParams : Type := {
  p_email : option string;
  p_password : option string;
  p_firstName : option string;
  p_lastName : option string;
  p_accountType : option string;
  p_cnic : option string;
  p_photo : option SupabaseClient.File
}.

Definition exists_login_or_other : string :=
  "An account with this email already exists. Please login or use a different email.".
Definition exists_login_or_reset : string :=
  "An account with this email already exists. Please login or reset your password.".
Definition configuration_error : string :=
  "Database configuration error. Please contact support.".
Definition permission_error : string :=
  "Database permission error. Please contact support.".

Definition signUpWithVerification (params : SignUpParams)
  : World -> SignUpResult * World :=
  let fullName :=
    interpolate (p_firstName params) +:+ " " +:+ interpolate (p_lastName params) in
  try_catch
    (if Js.falsy (p_email params) || Js.falsy (p_password params)
        || Js.falsy (Some fullName) || Js.falsy (p_accountType params)
        || Js.falsy (p_cnic params)
     then throw "All fields are required"
     else
       let email := default "" (p_email params) in
       let password := default "" (p_password params) in
       if negb (SupabaseClient.isValidEmail email)
       then throw "Invalid email format"
       else if (String.length password <? 8)%nat
       then throw "Password must be at least 8 characters"
       else if negb (Js.has Js.is_upper password)
       then throw "Password must contain at least one uppercase letter"
       else if negb (Js.has Js.is_lower password)
       then throw "Password must contain at least one lowercase letter"
       else if negb (Js.has Js.is_digit password)
       then throw "Password must contain at least one number"
       else
         exists_ ← checkEmailExists email;
         if exists_ : bool
         then throw exists_login_or_other
         else
           authData ← auth_signUp email password;
           match Supabase.error authData with
           | Some authError =>
               if Js.includes authError "User already registered"
               then throw exists_login_or_reset
               else throw authError
           | None =>
               match Supabase.data authData with
               | None => throw "Failed to create user account"
               | Some user =>
                   if bool_decide (AuthUser.identities user = Some [])
                   then
                     mret {| success := true; needsConfirmation := Some true;
                             message := Some "A verification email has been sent. Please check your email to verify your account.";
                             user := Some user; email := Some email;
                             error := None |}
                   else
                     mret {| success := true; needsConfirmation := Some true;
                             message := Some "Please check your email to verify your account before logging in.";
                             user := Some user; email := Some email;
                             error := None |}
               end
           end)
    (fun message =>
       failure
         (if Js.includes message "duplicate key" || Js.includes message "already exists"
          then exists_login_or_other
          else if Js.includes message "User already registered"
          then exists_login_or_reset
          else if Js.includes message "violates foreign key constraint"
          then configuration_error
          else if Js.includes message "permission denied"
          then permission_error
          else message)).

(** [s.split(' ')]: the part before the first space, and
    [.slice(1).join(' ')]: the part after it. *)
Fixpoint split_space (s : string) : string * string :=
  match s with
  | EmptyString => (EmptyString, EmptyString)
  | String c r =>
      if (Js.code c =? 32) then (EmptyString, r)
      else let '(first, rest) := split_space r in (String c first, rest)
  end.

(** [.from('users').insert({..})] *)
Definition insert_user (row : User.t) : Async (Supabase.Response unit) :=
  request (fun w =>
    match users w !! User.id row with
    | Some _ =>
        (Supabase.failed "duplicate key value violates unique constraint", w)
    | None => (Supabase.done, set_users (insert (User.id row) row) w)
    end).

(** [.from('lawyers').insert({ id, bar_registration_no })] *)
Definition insert_lawyer (userId cnic : string) : Async (Supabase.Response unit) :=
  request (fun w =>
    match lawyers w !! userId with
    | Some _ =>
        (Supabase.failed "duplicate key value violates unique constraint", w)
    | None =>
        (Supabase.done,
         set_lawyers
           (insert userId
              {| Lawyer.id := userId;
                 Lawyer.bar_registration_no := Some cnic;
                 Lawyer.consultation_fee := None;
                 Lawyer.consultation_type := None;
                 Lawyer.average_rating := None;
                 Lawyer.total_reviews := None;
                 Lawyer.biography := None;
                 Lawyer.law_firm := None |})
           w)
    end).

(** The legacy sign-up, without verification. *)
Definition signUp (email password fullName accountType cnic : option string)
    (profilePhoto : option SupabaseClient.File)
  : World -> SignUpResult * World :=
  try_catch
    (if Js.falsy email || Js.falsy password || Js.falsy fullName
        || Js.falsy accountType || Js.falsy cnic
     then throw "All fields are required"
     else
       let email := default "" email in
       let password := default "" password in
       let fullName := default "" fullName in
       let accountType := default "" accountType in
       let cnic := default "" cnic in
       if negb (SupabaseClient.isValidEmail email)
       then throw "Invalid email format"
       else if (String.length password <? 6)%nat
       then throw "Password must be at least 6 characters"
       else
         authData ← auth_signUp email password;
         match Supabase.error authData with
         | Some authError => throw authError
         | None =>
             match Supabase.data authData with
             | None => throw "Failed to create user account"
             | Some user =>
                 let needsEmailConfirmation :=
                   bool_decide (AuthUser.confirmed_at user = None)
                   && (bool_decide (AuthUser.identities user = None)
                       || bool_decide (AuthUser.identities user = Some [])) in
                 if needsEmailConfirmation
                 then
                   mret {| success := true; needsConfirmation := Some true;
                           message := Some "Please check your email to confirm your account.";
                           user := Some user; email := None; error := None |}
                 else
                   let userId := AuthUser.id user in
                   profilePhotoUrl ←
                     match profilePhoto with
                     | Some photo =>
                         now ← Date_now;
                         SupabaseClient.uploadFile SupabaseClient.PROFILE_PHOTOS photo
                           (userId +:+ "/" +:+ pretty now +:+ "_"
                            +:+ SupabaseClient.name photo)
                     | None => mret None
                     end;
                   let '(firstName, rest) := split_space (Js.trim fullName) in
                   let lastName := if Js.falsy (Some rest) then firstName else rest in
                   userInsert ← insert_user
                     {| User.id := userId;
                        User.email := email;
                        User.user_type := Some (Js.toLowerCase accountType);
                        User.first_name := Some firstName;
                        User.last_name := Some lastName;
                        User.profile_photo_url := profilePhotoUrl |};
                   match Supabase.error userInsert with
                   | Some userError =>
                       throw ("Failed to create user profile: " +:+ userError)
                   | None =>
                       if bool_decide (Js.toLowerCase accountType = "lawyer")
                       then
                         lawyerInsert ← insert_lawyer userId cnic;
                         match Supabase.error lawyerInsert with
                         | Some lawyerError =>
                             throw ("Failed to create lawyer profile: " +:+ lawyerError)
                         | None =>
                             mret {| success := true; needsConfirmation := None;
                                     message := None; user := Some user;
                                     email := None; error := None |}
                         end
                       else
                         mret {| success := true; needsConfirmation := None;
                                 message := None; user := Some user;
                                 email := None; error := None |}
                   end
             end
         end)
    (fun message =>
       failure
         (if Js.includes message "duplicate key" || Js.includes message "already exists"
          then "An account with this email already exists"
          else if Js.includes message "violates foreign key constraint"
          then configuration_error
          else if Js.includes message "permission denied"
          then permission_error
          else message)).

End Auth.

(* ===================================================================== *)
(** ** A small marketplace to run the operations on *)
(* ===================================================================== *)

Module Demo.

Definition alice : User.t :=
  {| User.id := "alice"; User.email := "alice@example.com";
     User.user_type := Some "client";
     User.first_name := Some "Alice"; User.last_name := Some "Khan";
     User.profile_photo_url := None |}.

Definition bob : User.t :=
  {| User.id := "bob"; User.email := "bob@example.com";
     User.user_type := Some "lawyer";
     User.first_name := Some "Bob"; User.last_name := Some "Raza";
     User.profile_photo_url := None |}.

Definition carol : User.t :=
  {| User.id := "carol"; User.email := "carol@example.com";
     User.user_type := Some "client";
     User.first_name := Some "Carol"; User.last_name := Some "Shah";
     User.profile_photo_url := None |}.

Definition bob_lawyer : Lawyer.t :=
  {| Lawyer.id := "bob"; Lawyer.bar_registration_no := Some "LHR-1";
     Lawyer.consultation_fee := Some 1000%Q;
     Lawyer.consultation_type := Some "both";
     Lawyer.average_rating := None; Lawyer.total_reviews := None;
     Lawyer.biography := Some "Family law"; Lawyer.law_firm := None |}.

Definition review (client : string) (rating : Q) (at_ : N) : Review.t :=
  {| Review.lawyer_id := "bob"; Review.client_id := client;
     Review.appointment_id := None; Review.rating := rating;
     Review.review_text := None; Review.created_at := at_ |}.

Definition booking : Appointment.t :=
  {| Appointment.id := "appt-1"; Appointment.client_id := "alice";
     Appointment.lawyer_id := "bob";
     Appointment.appointment_date := "2025-01-10";
     Appointment.appointment_time := "10:00";
     Appointment.title := "Consultation"; Appointment.description := None;
     Appointment.meeting_type := Some "online";
     Appointment.status := "scheduled" |}.

Definition other_booking : Appointment.t :=
  {| Appointment.id := "appt-2"; Appointment.client_id := "carol";
     Appointment.lawyer_id := "bob";
     Appointment.appointment_date := "2025-01-11";
     Appointment.appointment_time := "11:00";
     Appointment.title := "Consultation"; Appointment.description := None;
     Appointment.meeting_type := None;
     Appointment.status := "scheduled" |}.

Definition chat : Conversation.t :=
  {| Conversation.id := 0; Conversation.client_id := "alice";
     Conversation.lawyer_id := "bob"; Conversation.created_at := Some 5%N;
     Conversation.last_message_at := Some 9%N |}.

Definition message (id conversation : nat) (sender : string) (read : bool) (at_ : N)
  : Message.t :=
  {| Message.id := id; Message.conversation_id := conversation;
     Message.sender_id := sender; Message.message_text := Some "hello";
     Message.attachment_url := None; Message.created_at := at_;
     Message.is_read := read;
     Message.read_at := if read then Some at_ else None |}.

Definition never_fails : nat -> option string := fun _ => None.

Definition world : World :=
  {| users := <["alice" := alice]> (<["bob" := bob]> (<["carol" := carol]> ∅));
     lawyers := <["bob" := bob_lawyer]> ∅;
     lawyer_practice_areas :=
       [ {| PracticeAreaLink.lawyer_id := "bob";
            PracticeAreaLink.practice_areas := Some "Family" |} ];
     practice_areas := ["Family"; "Criminal"];
     lawyer_availability := [];
     reviews := [review "alice" 5 1; review "carol" 4 2; review "alice" 4 3];
     appointments := <["appt-1" := booking]> (<["appt-2" := other_booking]> ∅);
     documents := [];
     conversations := [chat];
     messages := [ message 0 0 "alice" false 6; message 1 0 "bob" false 7;
                   message 2 1 "carol" false 8; message 3 0 "bob" true 9 ];
     payment_methods := [];
     auth_users := [];
     storage := [];
     confirm_email := true;
     serial := 1;
     uuid := fun n => "user-" +:+ pretty n;
     requests := 0;
     outage := never_fails;
     clock := 1700000000000%N;
     random36 := "0.4fzyo82mvyr" |}.

(** The same marketplace on a bad day: the first round trip fails. *)
Definition first_fails : nat -> option string :=
  fun n => match n with O => Some "Failed to fetch" | S _ => None end.

Definition flaky_world : World :=
  {| users := users world; lawyers := lawyers world;
     lawyer_practice_areas := lawyer_practice_areas world;
     practice_areas := practice_areas world;
     lawyer_availability := lawyer_availability world;
     reviews := reviews world; appointments := appointments world;
     documents := documents world; conversations := conversations world;
     messages := messages world; payment_methods := payment_methods world;
     auth_users := auth_users world; storage := storage world;
     confirm_email := confirm_email world; serial := serial world;
     uuid := uuid world; requests := requests world;
     outage := first_fails; clock := clock world;
     random36 := random36 world |}.

End Demo.

(* ===================================================================== *)
(** ** Vocabulary of the statements *)
(* ===================================================================== *)

(** The backend answers every request. *)
Definition reliable (w : World) : Prop := forall n : nat, outage w n = None.

(** At most one conversation per (client, lawyer) pair. *)
Definition at_most_one_per_pair (rows : list Conversation.t) : Prop :=
  forall clientId lawyerId : string,
    (length (filter (Messaging.same_pair clientId lawyerId) rows) <= 1)%nat.

(** What one call of [markMessagesAsRead] at time [now] may do to a message. *)
Definition read_step (conversationId : nat) (userId : string) (now : N)
    (before after : Message.t) : Prop :=
  after = before \/
  (Message.conversation_id before = conversationId /\
   Message.sender_id before <> userId /\
   Message.is_read before = false /\
   after = Messaging.mark_read now before).



(** The [user_type] a profile lookup resolves to, if any. *)
Definition user_type_of (w : World) (userId : string) : option string :=
  match users w !! userId with
  | Some u => User.user_type u
  | None => None
  end.


(** A field that was not supplied, or supplied empty. *)
Definition missing (field : option string) : Prop :=
  field = None \/ field = Some "".

(** A password the specification calls weak. *)
Definition weak_password (password : string) : Prop :=
  (String.length password < 8)%nat \/
  Js.has Js.is_upper password = false \/
  Js.has Js.is_lower password = false \/
  Js.has Js.is_digit password = false.

(** A sign-up that failed without touching the backend: the world,
    request counter included, is the one it started from. *)
Definition rejected_offline (outcome : Auth.SignUpResult * World) (w : World) : Prop :=
  Auth.success outcome.1 = false /\
  is_Some (Auth.error outcome.1) /\
  outcome.2 = w.

(* ===================================================================== *)
(** ** What the regular expressions mean *)
(* ===================================================================== *)

Module Language.

(** [Matches r s]: the whole of [s] is a word of [r]. *)
Inductive Matches : Regex.t -> string -> Prop :=
| MEmpty : Matches Regex.Empty ""
| MClass (p : ascii -> bool) (c : ascii) :
    p c = true -> Matches (Regex.Class p) (String c "")
| MSeq (r s : Regex.t) (u v : string) :
    Matches r u -> Matches s v -> Matches (Regex.Seq r s) (u +:+ v)
| MAltL (r s : Regex.t) (u : string) : Matches r u -> Matches (Regex.Alt r s) u
| MAltR (r s : Regex.t) (u : string) : Matches s u -> Matches (Regex.Alt r s) u
| MStarNil (r : Regex.t) : Matches (Regex.Star r) ""
| MStarApp (r : Regex.t) (u v : string) :
    Matches r u -> Matches (Regex.Star r) v -> Matches (Regex.Star r) (u +:+ v).

(** One part of an address: not empty, without white space or [@]. *)
Definition address_part (s : string) : Prop :=
  s <> "" /\ Js.all SupabaseClient.local_char s = true.

End Language.

(* ===================================================================== *)
(** ** payment.js: card type, formatting and masking *)
(* ===================================================================== *)

Module CardDisplay.

Definition is_char (x : ascii) (c : ascii) : bool := Js.code c =? Js.code x.

(** [/^r/.test(s)]: some prefix of [s] is a word of [r]. *)
Definition test_start (r : Regex.t) (s : string) : bool :=
  Regex.test (Regex.Seq r (Regex.Star (Regex.Class (fun _ => true)))) s.

(** [/^4/] *)
Definition visa_re : Regex.t := Regex.Class (is_char "4").
(** [/^5[1-5]/] *)
Definition mastercard_re : Regex.t :=
  Regex.Seq (Regex.Class (is_char "5")) (Regex.Class (Js.in_range 49 53)).
(** [/^3[47]/] *)
Definition amex_re : Regex.t :=
  Regex.Seq (Regex.Class (is_char "3"))
    (Regex.Class (fun c => is_char "4" c || is_char "7" c)).
(** [/^6(?:011|5)/] *)
Definition discover_re : Regex.t :=
  Regex.Seq (Regex.Class (is_char "6"))
    (Regex.Alt
       (Regex.Seq (Regex.Class (is_char "0"))
          (Regex.Seq (Regex.Class (is_char "1")) (Regex.Class (is_char "1"))))
       (Regex.Class (is_char "5"))).

Definition getCardType (cardNumber : string) : string :=
  let digits := Js.keep Js.is_digit cardNumber in
  if test_start visa_re digits then "Visa"
  else if test_start mastercard_re digits then "Mastercard"
  else if test_start amex_re digits then "American Express"
  else if test_start discover_re digits then "Discover"
  else "Unknown".

(** [s.replace(/(\d{4})/g, '$1 ')]: scanning from the left, every run of
    four digits is followed by a space; the scan resumes after the run. *)
Fixpoint space_every_four (s : string) : string :=
  match s with
  | EmptyString => EmptyString
  | String a t =>
      match t with
      | String b (String c (String d r)) =>
          if Js.is_digit a && Js.is_digit b && Js.is_digit c && Js.is_digit d
          then String a (String b (String c (String d (String " " (space_every_four r)))))
          else String a (space_every_four t)
      | _ => String a (space_every_four t)
      end
  end.

Definition formatCardNumber (cardNumber : string) : string :=
  let digits := Js.keep Js.is_digit cardNumber in
  Js.trim (space_every_four digits).

(** [s.slice(-n)]: the last [n] characters, or all of [s] if it is shorter. *)
Definition slice_last (n : nat) (s : string) : string :=
  String.substring (String.length s - n) n s.

Definition maskCardNumber (cardNumber : string) : string :=
  let digits := Js.keep Js.is_digit cardNumber in
  let lastFour := slice_last 4 digits in
  "**** **** **** " +:+ lastFour.

End CardDisplay.

(* ===================================================================== *)
(** ** messaging.js: utility functions *)
(* ===================================================================== *)

Module MessagingUtil.


(** The object [{ id: .., ...details }]: a present [details] object
    brings its own [id], which then wins. *)
Record Partner : Type := { id : string; details : option User.t }.

Definition spread (fallback : string) (details : option User.t) : Partner :=
  {| id := match details with
           | Some u => User.id u
           | None => fallback
           end;
     details := details |}.

Definition getConversationPartner (conversation : Messaging.ConversationDetails)
    (currentUserId : string) : Partner :=
  if bool_decide (Conversation.client_id (Messaging.conv conversation) = currentUserId)
  then spread (Conversation.lawyer_id (Messaging.conv conversation))
              (Messaging.lawyer conversation)
  else spread (Conversation.client_id (Messaging.conv conversation))
              (Messaging.client conversation).

Definition isOwnMessage (message : Message.t) (currentUserId : string) : bool :=
  bool_decide (Message.sender_id message = currentUserId).

End MessagingUtil.

(* ===================================================================== *)
(** ** Vocabulary for the checksum *)
(* ===================================================================== *)

Module Luhn.

(** What one digit contributes to the total, doubled or not. *)
Definition weight (doubled : bool) (d : Z) : Z :=
  if doubled then Card.digit_sum (2 * d) else d.

End Luhn.

Definition set_payment_methods (f : list PaymentMethod.t -> list PaymentMethod.t) (w : World) : World :=
  {| users := users w; lawyers := lawyers w;
     lawyer_practice_areas := lawyer_practice_areas w;
     practice_areas := practice_areas w;
     lawyer_availability := lawyer_availability w; reviews := reviews w;
     appointments := appointments w; documents := documents w;
     conversations := conversations w; messages := messages w;
     payment_methods := f (payment_methods w); auth_users := auth_users w;
     storage := storage w; confirm_email := confirm_email w;
     serial := serial w; uuid := uuid w; requests := requests w;
     outage := outage w; clock := clock w; random36 := random36 w |}.


(* ===================================================================== *)
(** ** payment.js: deleting and choosing payment methods *)
(* ===================================================================== *)

Module PaymentMethods.

Definition with_default (flag : bool) (m : PaymentMethod.t) : PaymentMethod.t :=
  {| PaymentMethod.id := PaymentMethod.id m;
     PaymentMethod.user_id := PaymentMethod.user_id m;
     PaymentMethod.payment_type := PaymentMethod.payment_type m;
     PaymentMethod.card_type := PaymentMethod.card_type m;
     PaymentMethod.last_four_digits := PaymentMethod.last_four_digits m;
     PaymentMethod.is_default := flag |}.

Definition has_id (paymentMethodId : nat) (m : PaymentMethod.t) : bool :=
  bool_decide (PaymentMethod.id m = paymentMethodId).

Definition owned_by (userId : string) (m : PaymentMethod.t) : bool :=
  bool_decide (PaymentMethod.user_id m = userId).

(** [.from('payment_methods').delete().eq('id', id)] *)
Definition delete_method (paymentMethodId : nat) : Async (Supabase.Response unit) :=
  request (fun w =>
    (Supabase.done,
     set_payment_methods
       (List.filter (fun m => negb (has_id paymentMethodId m))) w)).

Definition deletePaymentMethod (paymentMethodId : nat) : World -> Result unit * World :=
  try_catch
    (deleted ← delete_method paymentMethodId;
     match Supabase.error deleted with
     | Some error => throw error
     | None => mret {| success := true; data := None; error := None |}
     end)
    (fun message => {| success := false; data := None; error := Some message |}).

(** [.update({ is_default: false }).eq('user_id', userId)] *)
Definition unset_defaults (userId : string) : Async (Supabase.Response unit) :=
  request (fun w =>
    (Supabase.done,
     set_payment_methods
       (map (fun m => if owned_by userId m then with_default false m else m)) w)).

(** [.update({ is_default: true }).eq('id', paymentMethodId)] *)
Definition set_default (paymentMethodId : nat) : Async (Supabase.Response unit) :=
  request (fun w =>
    (Supabase.done,
     set_payment_methods
       (map (fun m => if has_id paymentMethodId m then with_default true m else m)) w)).

(** The answer of the first update is awaited but not looked at. *)
Definition setDefaultPaymentMethod (userId : string) (paymentMethodId : nat)
  : World -> Result unit * World :=
  try_catch
    (_ ← unset_defaults userId;
     updated ← set_default paymentMethodId;
     match Supabase.error updated with
     | Some error => throw error
     | None => mret {| success := true; data := None; error := None |}
     end)
    (fun message => {| success := false; data := None; error := Some message |}).

End PaymentMethods.

(* ===================================================================== *)
(** ** messaging.js: sending and deleting messages *)
(* ===================================================================== *)

Module Sending.

Definition CHAT_ATTACHMENTS : string := "chat-attachments".

(** [.from('messages').insert({..}).select().single()].  The columns
    [attachment_name] and [attachment_type] are not tracked. *)
Definition insert_message (conversationId : nat) (senderId : string)
    (messageText attachmentUrl : option string) (created : N)
  : Async (Supabase.Response Message.t) :=
  request (fun w =>
    let row := {| Message.id := serial w;
                  Message.conversation_id := conversationId;
                  Message.sender_id := senderId;
                  Message.message_text := messageText;
                  Message.attachment_url := attachmentUrl;
                  Message.created_at := created;
                  Message.is_read := false;
                  Message.read_at := None |} in
    (Supabase.ok row, set_serial S (set_messages (fun rows => rows ++ [row]) w))).

Definition touch (now : N) (c : Conversation.t) : Conversation.t :=
  {| Conversation.id := Conversation.id c;
     Conversation.client_id := Conversation.client_id c;
     Conversation.lawyer_id := Conversation.lawyer_id c;
     Conversation.created_at := Conversation.created_at c;
     Conversation.last_message_at := Some now |}.

(** [.from('conversations').update({ last_message_at }).eq('id', id)] *)
Definition update_last_message_at (conversationId : nat) (now : N)
  : Async (Supabase.Response unit) :=
  request (fun w =>
    (Supabase.done,
     set_conversations
       (map (fun c => if bool_decide (Conversation.id c = conversationId)
                      then touch now c else c)) w)).

Definition sendMessage (conversationId : nat) (senderId : string)
    (messageText : option string) (attachmentFile : option SupabaseClient.File)
  : World -> Result Message.t * World :=
  try_catch
    (attachmentUrl ←
       match attachmentFile with
       | Some file =>
           now ← Date_now;
           url ← SupabaseClient.uploadFile CHAT_ATTACHMENTS file
                   (senderId +:+ "/" +:+ pretty now +:+ "_"
                    +:+ SupabaseClient.name file);
           if Js.falsy url then throw "Failed to upload attachment" else mret url
       | None => mret None
       end;
     created ← Date_now;
     inserted ← insert_message conversationId senderId messageText attachmentUrl created;
     match Supabase.error inserted with
     | Some error => throw error
     | None =>
         now ← Date_now;
         _ ← update_last_message_at conversationId now;
         mret {| success := true; data := Supabase.data inserted; error := None |}
     end)
    (fun message => {| success := false; data := None; error := Some message |}).

(** [.from('messages').delete().eq('id', messageId)] *)
Definition delete_message (messageId : nat) : Async (Supabase.Response unit) :=
  request (fun w =>
    (Supabase.done,
     set_messages
       (List.filter (fun m => negb (bool_decide (Message.id m = messageId)))) w)).

Definition deleteMessage (messageId : nat) : World -> Result unit * World :=
  try_catch
    (deleted ← delete_message messageId;
     match Supabase.error deleted with
     | Some error => throw error
     | None => mret {| success := true; data := None; error := None |}
     end)
    (fun message => {| success := false; data := None; error := Some message |}).

(** The messages that count as unread for [userId] in a conversation. *)
Definition unread (conversationId : nat) (userId : string) (w : World)
  : list Message.t :=
  List.filter (Messaging.unread_for conversationId userId) (messages w).

End Sending.

(* ===================================================================== *)
(** ** search.js: booking and reviewing *)
(* ===================================================================== *)

Module Booking.

Record AppointmentData : Type := {
  clientId : string;
  lawyerId : string;
  date : string;
  time : string;
  title : option string;
  description : option string;
  meetingType : option string
}.

Definition duplicate_key : string :=
  "duplicate key value violates unique constraint".

(** [.from('appointments').insert({..}).select().single()]; the
    identifier is generated by the backend. *)
Definition insert_appointment (appointmentData : AppointmentData)
  : Async (Supabase.Response Appointment.t) :=
  request (fun w =>
    let row :=
      {| Appointment.id := uuid w (serial w);
         Appointment.client_id := clientId appointmentData;
         Appointment.lawyer_id := lawyerId appointmentData;
         Appointment.appointment_date := date appointmentData;
         Appointment.appointment_time := time appointmentData;
         Appointment.title :=
           (if Js.falsy (title appointmentData) then "Consultation"
            else default "Consultation" (title appointmentData));
         Appointment.description := description appointmentData;
         Appointment.meeting_type := meetingType appointmentData;
         Appointment.status := "scheduled" |} in
    match appointments w !! Appointment.id row with
    | Some _ => (Supabase.failed duplicate_key, w)
    | None =>
        (Supabase.ok row,
         set_serial S (set_appointments (insert (Appointment.id row) row) w))
    end).

Definition createAppointment (appointmentData : AppointmentData)
  : World -> Result Appointment.t * World :=
  try_catch
    (inserted ← insert_appointment appointmentData;
     match Supabase.error inserted with
     | Some error => throw error
     | None =>
         mret {| success := true; data := Supabase.data inserted; error := None |}
     end)
    (fun message => {| success := false; data := None; error := Some message |}).





End Booking.

(* ===================================================================== *)
(** ** More vocabulary and a wallet to run on *)
(* ===================================================================== *)

Module Wallet.

(** What the two updates of [setDefaultPaymentMethod] make of one row. *)
Definition chosen (userId : string) (paymentMethodId : nat) (m : PaymentMethod.t)
  : PaymentMethod.t :=
  if PaymentMethods.has_id paymentMethodId m
  then PaymentMethods.with_default true m
  else if PaymentMethods.owned_by userId m
  then PaymentMethods.with_default false m
  else m.

Definition card (id : nat) (owner : string) (default : bool) : PaymentMethod.t :=
  {| PaymentMethod.id := id; PaymentMethod.user_id := owner;
     PaymentMethod.payment_type := Some "card";
     PaymentMethod.card_type := Some "Visa";
     PaymentMethod.last_four_digits := Some "0366";
     PaymentMethod.is_default := default |}.

(** The demo marketplace with three stored cards. *)
Definition world : World :=
  set_payment_methods
    (fun _ => [card 1 "alice" true; card 2 "alice" false; card 3 "carol" true])
    Demo.world.

End Wallet.


Module SendingSpec.

(** The row [sendMessage] inserts when it is called in world [w]
    without an attachment. *)
Definition sent (conversationId : nat) (senderId : string)
    (messageText : option string) (w : World) : Message.t :=
  {| Message.id := serial w;
     Message.conversation_id := conversationId;
     Message.sender_id := senderId;
     Message.message_text := messageText;
     Message.attachment_url := None;
     Message.created_at := clock w;
     Message.is_read := false;
     Message.read_at := None |}.

(** What a send may do to a conversation row: nothing, or stamp it. *)
Definition stamped (conversationId : nat) (before after : Conversation.t) : Prop :=
  after = before \/
  (Conversation.id before = conversationId /\
   exists now, after = Sending.touch now before).

End SendingSpec.


Module ListingSpec.

(** Every profile row is stored under its own identifier. *)
Definition users_keyed (w : World) : Prop :=
  forall (key : string) (u : User.t), users w !! key = Some u -> User.id u = key.

(** What an entry of [getUserConversations] says about its
    conversation, given the tables it was computed from: the entry is
    about a conversation of the user; a participant is the stored
    profile, or missing when its lookup failed; the unread count is the
    number of unread messages from others, or zero when the count failed. *)
Definition describes (userId : string) (w : World)
    (entry : Messaging.ConversationDetails) : Prop :=
  let c := Messaging.conv entry in
  c ∈ conversations w /\
  Messaging.party userId c /\
  (Messaging.client entry = None \/
   Messaging.client entry = users w !! Conversation.client_id c) /\
  (Messaging.lawyer entry = None \/
   Messaging.lawyer entry = users w !! Conversation.lawyer_id c) /\
  (Messaging.unreadCount entry = 0%nat \/
   Messaging.unreadCount entry
     = length (Sending.unread (Conversation.id c) userId w)).

End ListingSpec.


Module BookingSpec.

(** A slot is taken when a scheduled or rescheduled appointment of the
    lawyer on that date has that time. *)
Definition booked (w : World) (lawyerId date time : string) : Prop :=
  exists (key : string) (a : Appointment.t),
    appointments w !! key = Some a /\
    Appointment.lawyer_id a = lawyerId /\
    Appointment.appointment_date a = date /\
    (Appointment.status a = "scheduled" \/ Appointment.status a = "rescheduled") /\
    Appointment.appointment_time a = time.

(** The row [createAppointment] inserts in world [w]. *)
Definition requested (d : Booking.AppointmentData) (w : World) : Appointment.t :=
  {| Appointment.id := uuid w (serial w);
     Appointment.client_id := Booking.clientId d;
     Appointment.lawyer_id := Booking.lawyerId d;
     Appointment.appointment_date := Booking.date d;
     Appointment.appointment_time := Booking.time d;
     Appointment.title :=
       (if Js.falsy (Booking.title d) then "Consultation"
        else default "Consultation" (Booking.title d));
     Appointment.description := Booking.description d;
     Appointment.meeting_type := Booking.meetingType d;
     Appointment.status := "scheduled" |}.

Definition payment_for (appointmentId : string) (amount : Q) : Payment.PaymentData :=
  {| Payment.amount := Some amount;
     Payment.appointmentId := Some appointmentId;
     Payment.currency := None;
     Payment.paymentMethod := None |}.

Definition consultation : Booking.AppointmentData :=
  {| Booking.clientId := "carol"; Booking.lawyerId := "bob";
     Booking.date := "2025-02-01"; Booking.time := "09:00";
     Booking.title := None; Booking.description := None;
     Booking.meetingType := Some "online" |}.

End BookingSpec.

Module ReviewSpec.
Import Booking.



End ReviewSpec.

Module ProfileSpec.

(** The profile tables and the stored files are as they were. *)
Definition same_profiles (w w' : World) : Prop :=
  users w' = users w /\ lawyers w' = lawyers w /\ storage w' = storage w.

(** [m] leaves the profiles alone and, when it returns, returns a value
    satisfying [P]. *)
Definition ensures {A : Type} (P : A -> Prop) (m : Async A) : Prop :=
  forall w, same_profiles w (m w).2 /\
            match (m w).1 with inr x => P x | inl _ => True end.


(** A sign-up that succeeded asks for confirmation. *)
Definition asks_confirmation (r : Auth.SignUpResult) : Prop :=
  Auth.success r = true -> Auth.needsConfirmation r = Some true.

End ProfileSpec.

Module SignUpSpec.







End SignUpSpec.

(* ===================================================================== *)
(** * Theorems *)
(* ===================================================================== *)

Module CardFacts.
Import Card.

Lemma get_lookup (s : string) (i : nat) :
  String.get i s = list_ascii_of_string s !! i.
Proof.
  revert i; induction s as [|c s IH]; intros [|i]; simpl; auto.
Qed.

Lemma length_list_ascii (s : string) :
  length (list_ascii_of_string s) = String.length s.
Proof. induction s; simpl; congruence. Qed.

Lemma keep_all (p : ascii -> bool) (s : string) : Js.all p (Js.keep p s) = true.
Proof.
  induction s as [|c s IH]; simpl; auto.
  destruct (p c) eqn:E; simpl; auto. now rewrite E.
Qed.

Lemma all_lookup (p : ascii -> bool) (s : string) (i : nat) (c : ascii) :
  Js.all p s = true -> list_ascii_of_string s !! i = Some c -> p c = true.
Proof.
  revert i; induction s as [|a s IH]; intros [|i]; simpl; try discriminate.
  - intros H [= <-]. now apply andb_prop in H.
  - intros H. apply andb_prop in H. apply IH, H.
Qed.

Lemma digit_range (c : ascii) :
  Js.is_digit c = true -> 0 <= Js.parseInt c <= 9.
Proof.
  unfold Js.is_digit, Js.in_range, Js.parseInt. intros H.
  apply andb_prop in H as [H1 H2]. lia.
Qed.

(** Doubling a decimal digit and adding the digits of the product is the
    "subtract nine when above nine" shortcut of the source. *)
Lemma digit_sum_double (d : Z) :
  0 <= d <= 9 ->
  digit_sum (2 * d) = (if d * 2 >? 9 then d * 2 - 9 else d * 2).
Proof.
  intros H. unfold digit_sum.
  assert (d = 0 \/ d = 1 \/ d = 2 \/ d = 3 \/ d = 4 \/ d = 5 \/ d = 6 \/
          d = 7 \/ d = 8 \/ d = 9) as Hd by lia.
  repeat (destruct Hd as [-> | Hd]; [reflexivity |]). now subst.
Qed.

(** Loop invariant: after the iterations for indices [k - 1 .. 0] the
    accumulator has grown by the Luhn total of the first [k] digits,
    read from the right. *)
Lemma luhn_loop_total (digits : string) :
  Js.all Js.is_digit digits = true ->
  forall (k : nat) (sum : Z) (isEven : bool),
    (k <= String.length digits)%nat ->
    luhn_loop digits k sum isEven =
    sum + luhn_total (rev (take k (digit_values digits))) isEven.
Proof.
  intros Hall. induction k as [|i IH]; intros sum isEven Hk.
  - simpl. lia.
  - destruct (list_ascii_of_string digits !! i) as [c|] eqn:Hc.
    2:{ apply lookup_ge_None in Hc. rewrite length_list_ascii in Hc. lia. }
    assert (Hv : digit_values digits !! i = Some (Js.parseInt c)).
    { unfold digit_values. now rewrite list_lookup_fmap, Hc. }
    rewrite (take_S_r _ _ _ Hv), rev_app_distr. simpl.
    unfold Js.at_. rewrite get_lookup, Hc.
    rewrite IH by lia.
    pose proof (digit_range c (all_lookup _ _ _ _ Hall Hc)) as Hr.
    destruct isEven; simpl.
    + rewrite digit_sum_double by exact Hr. lia.
    + lia.
Qed.

Lemma luhn_loop_full (digits : string) :
  Js.all Js.is_digit digits = true ->
  luhn_loop digits (String.length digits) 0 false =
  luhn_total (rev (digit_values digits)) false.
Proof.
  intros H. rewrite luhn_loop_total by (auto; lia).
  rewrite firstn_all2; [lia |].
  unfold digit_values. rewrite length_map, length_list_ascii. lia.
Qed.

(** C3. [validateCardNumber] strips the non-digits and answers [true]
    exactly when between 13 and 19 digits remain and they pass the Luhn
    checksum.  It accepts "4532015112830366", rejects "1234567890123",
    and rejects every input that leaves fewer than 13 or more than 19
    digits, whatever its checksum. *)
Theorem validateCardNumber_luhn :
  (forall cardNumber : string,
     let digits := Js.keep Js.is_digit cardNumber in
     validateCardNumber cardNumber = true <->
     ((13 <= String.length digits <= 19)%nat /\ luhn_ok digits)) /\
  validateCardNumber "4532015112830366" = true /\
  validateCardNumber "1234567890123" = false /\
  (forall cardNumber : string,
     let n := String.length (Js.keep Js.is_digit cardNumber) in
     (n < 13 \/ 19 < n)%nat -> validateCardNumber cardNumber = false).
Proof.
  split; [| split; [reflexivity | split; [reflexivity |]]].
  - intros cardNumber digits. unfold validateCardNumber, luhn_ok.
    fold digits. rewrite (luhn_loop_full digits) by apply keep_all.
    destruct (String.length digits <? 13)%nat eqn:E1;
      [apply Nat.ltb_lt in E1 | apply Nat.ltb_ge in E1]; simpl.
    { split; [discriminate | lia]. }
    destruct (19 <? String.length digits)%nat eqn:E2;
      [apply Nat.ltb_lt in E2 | apply Nat.ltb_ge in E2]; simpl.
    { split; [discriminate | lia]. }
    rewrite Z.eqb_eq. intuition lia.
  - intros cardNumber n H. unfold validateCardNumber. fold n.
    destruct H as [H | H].
    + apply Nat.ltb_lt in H. now rewrite H.
    + apply Nat.ltb_lt in H. rewrite H. now rewrite orb_true_r.
Qed.

(** The length gate at a concrete input: twelve digits whose Luhn total
    is a multiple of ten are still rejected. *)
Lemma validateCardNumber_luhn_witness :
  validateCardNumber "4111 1111 1117" = false.
Proof.
  apply (proj2 (proj2 (proj2 validateCardNumber_luhn)) "4111 1111 1117").
  simpl. lia.
Defined.

End CardFacts.

Module FeeFacts.
Import Fee.
Local Open Scope Q_scope.






End FeeFacts.

(* ===================================================================== *)
(** ** Running asynchronous code *)
(* ===================================================================== *)

Ltac run_async :=
  unfold try_catch, mbind, Async_bind, mret, Async_ret, throw, read, request,
    Date_now, sleep in *.

Lemma request_served {A : Type} (serve : World -> Supabase.Response A * World)
    (w : World) :
  outage w (requests w) = None ->
  request serve w = (inr (serve (tick w)).1, (serve (tick w)).2).
Proof.
  intros H. unfold request. rewrite H. now destruct (serve (tick w)).
Qed.

Lemma request_failed {A : Type} (serve : World -> Supabase.Response A * World)
    (w : World) (msg : string) :
  outage w (requests w) = Some msg ->
  request serve w = (inr (Supabase.failed msg), tick w).
Proof. intros H. unfold request. now rewrite H. Qed.

Lemma reliable_tick (w : World) : reliable w -> reliable (tick w).
Proof. intros H n. apply H. Qed.

Module MessagingFacts.
Import Messaging.

(** *** Marking messages as read *)

Lemma markMessagesAsRead_run (conversationId : nat) (userId : string) (w : World) :
  markMessagesAsRead conversationId userId w =
  match outage w (requests w) with
  | Some msg => ({| success := false; data := None; error := Some msg |}, tick w)
  | None =>
      ({| success := true; data := None; error := None |},
       set_messages (marked conversationId userId (clock w)) (tick w))
  end.
Proof.
  unfold markMessagesAsRead, update_unread. run_async.
  destruct (outage w (requests w)); reflexivity.
Qed.

Lemma unread_for_true (conversationId : nat) (userId : string) (m : Message.t) :
  unread_for conversationId userId m = true ->
  Message.conversation_id m = conversationId /\
  Message.sender_id m <> userId /\
  Message.is_read m = false.
Proof.
  unfold unread_for. intros H.
  apply andb_prop in H as [H Hr]. apply andb_prop in H as [Hc Hs].
  apply bool_decide_eq_true in Hc. apply negb_true_iff in Hs, Hr.
  apply bool_decide_eq_false in Hs. auto.
Qed.

Lemma marked_step (conversationId : nat) (userId : string) (now : N)
    (rows : list Message.t) :
  Forall2 (read_step conversationId userId now) rows
    (marked conversationId userId now rows).
Proof.
  induction rows as [|m rows IH]; simpl; constructor; auto.
  destruct (unread_for conversationId userId m) eqn:E.
  - right. apply unread_for_true in E. tauto.
  - now left.
Qed.

(** Once marked, nothing is left to mark, at whatever time. *)
Lemma marked_twice (conversationId : nat) (userId : string) (now later : N)
    (rows : list Message.t) :
  marked conversationId userId later (marked conversationId userId now rows) =
  marked conversationId userId now rows.
Proof.
  induction rows as [|m rows IH]; simpl; [reflexivity |].
  rewrite IH. f_equal.
  destruct (unread_for conversationId userId m) eqn:E.
  - replace (unread_for conversationId userId (mark_read now m)) with false;
      [reflexivity |].
    unfold unread_for. simpl. now rewrite andb_false_r.
  - now rewrite E.
Qed.

Lemma read_step_refl (conversationId : nat) (userId : string) (now : N)
    (rows : list Message.t) :
  Forall2 (read_step conversationId userId now) rows rows.
Proof. induction rows; constructor; auto. now left. Qed.

(** C6. One call of [markMessagesAsRead] changes a message only by
    turning [is_read] from false to true (stamping [read_at]), and only
    when the message belongs to the conversation and was not sent by the
    user.  A second call right after a successful one changes no message;
    it succeeds, without error, whenever the backend answers it. *)
Theorem markMessagesAsRead_idempotent
    (conversationId : nat) (userId : string) (w : World) :
  let first := markMessagesAsRead conversationId userId w in
  let second := markMessagesAsRead conversationId userId first.2 in
  Forall2 (read_step conversationId userId (clock w))
    (messages w) (messages first.2) /\
  (outage w (requests w) = None -> success first.1 = true) /\
  (success first.1 = true -> messages second.2 = messages first.2) /\
  (success first.1 = true -> outage w (S (requests w)) = None ->
   success second.1 = true /\ error second.1 = None).
Proof.
  intros first second. subst second first.
  rewrite (markMessagesAsRead_run conversationId userId w).
  destruct (outage w (requests w)) as [msg|] eqn:E; cbn [fst snd].
  - split; [apply read_step_refl |].
    split; [discriminate |]. split; discriminate.
  - split; [apply marked_step |].
    split; [reflexivity |].
    rewrite markMessagesAsRead_run. cbn.
    split.
    + intros _. destruct (outage w (S (requests w))); cbn;
        [reflexivity | apply marked_twice].
    + intros _ H. rewrite H. cbn. auto.
Qed.

Lemma markMessagesAsRead_idempotent_witness :
  let first := markMessagesAsRead 0 "alice" Demo.world in
  let second := markMessagesAsRead 0 "alice" first.2 in
  success first.1 = true /\
  messages second.2 = messages first.2 /\
  success second.1 = true /\ error second.1 = None.
Proof.
  pose proof (markMessagesAsRead_idempotent 0 "alice" Demo.world)
    as (_ & Hfirst & Hsame & Hsecond).
  cbv zeta in *.
  split; [apply Hfirst; reflexivity |].
  split; [apply Hsame; reflexivity |].
  apply Hsecond; reflexivity.
Defined.

End MessagingFacts.

Lemma run_bind {A B : Type} (m : Async A) (k : A -> Async B) (w : World) :
  (m ≫= k) w =
  match m w with
  | (inl e, w') => (inl e, w')
  | (inr x, w') => k x w'
  end.
Proof. reflexivity. Qed.

Lemma run_read {A : Type} (answer : World -> Supabase.Response A) (w : World) :
  reliable w -> read answer w = (inr (answer (tick w)), tick w).
Proof. intros H. unfold read, request. now rewrite H. Qed.

Lemma run_request {A : Type} (serve : World -> Supabase.Response A * World)
    (w : World) :
  reliable w -> request serve w = (inr (serve (tick w)).1, (serve (tick w)).2).
Proof. intros H. apply request_served, H. Qed.

Module ConversationFacts.
Import Messaging.

(** What the first profile lookup contributes to the decision. *)
Lemma user1_type (w : World) (userId : string) :
  mjoin (Supabase.data (Supabase.single (User.user_type <$> rows_at (users w) userId)))
  = user_type_of w userId.
Proof. unfold rows_at, user_type_of. now destruct (users w !! userId). Qed.

Lemma select_user_type_run (userId : string) (w : World) :
  reliable w ->
  exists r, select_user_type userId w = (inr r, tick w) /\
            mjoin (Supabase.data r) = user_type_of w userId.
Proof.
  intros H. unfold select_user_type. rewrite run_read by exact H.
  eexists. split; [reflexivity |]. exact (user1_type w userId).
Qed.

Lemma find_conversation_run (clientId lawyerId : string) (w : World) :
  reliable w ->
  find_conversation clientId lawyerId w =
  (inr (Supabase.maybeSingle (filter (same_pair clientId lawyerId) (conversations w))),
   tick w).
Proof. intros H. unfold find_conversation. now rewrite run_read. Qed.

Lemma insert_conversation_run (clientId lawyerId : string) (created : N) (w : World) :
  reliable w ->
  insert_conversation clientId lawyerId created w =
  (inr (Supabase.ok (new_conversation (serial w) clientId lawyerId created)),
   set_serial S
     (set_conversations
        (fun rows => rows ++ [new_conversation (serial w) clientId lawyerId created])
        (tick w))).
Proof. intros H. unfold insert_conversation. now rewrite run_request. Qed.

(** With a backend that answers, a call is three reads, and an insert
    unless exactly one row matches the resolved pair. *)
Lemma getOrCreateConversation_run (w : World) (userId1 userId2 clientId lawyerId : string) :
  reliable w ->
  assign_roles (user_type_of w userId1) userId1 userId2 = (clientId, lawyerId) ->
  getOrCreateConversation userId1 userId2 w =
  match filter (same_pair clientId lawyerId) (conversations w) with
  | [existing] =>
      ({| success := true; data := Some existing; error := None |},
       tick (tick (tick w)))
  | _ =>
      let row :=
        new_conversation (serial w) clientId lawyerId (clock (tick (tick (tick w)))) in
      ({| success := true; data := Some row; error := None |},
       set_serial S
         (set_conversations (fun rows => rows ++ [row]) (tick (tick (tick (tick w))))))
  end.
Proof.
  intros Hnet Hroles.
  destruct (select_user_type_run userId1 w Hnet) as (r1 & Hr1 & Ht1).
  destruct (select_user_type_run userId2 (tick w) (reliable_tick w Hnet))
    as (r2 & Hr2 & _).
  unfold getOrCreateConversation, try_catch.
  rewrite run_bind, Hr1, run_bind, Hr2, Ht1, Hroles, run_bind.
  rewrite find_conversation_run by (do 2 apply reliable_tick; exact Hnet).
  change (conversations (tick (tick w))) with (conversations w).
  destruct (filter (same_pair clientId lawyerId) (conversations w))
    as [|x [|y rest]]; cbv beta iota delta [Supabase.maybeSingle Supabase.data
      Supabase.done Supabase.ok Supabase.failed].
  - rewrite run_bind. unfold Date_now at 1. cbv beta iota.
    rewrite run_bind, insert_conversation_run
      by (do 3 apply reliable_tick; exact Hnet).
    reflexivity.
  - reflexivity.
  - rewrite run_bind. unfold Date_now at 1. cbv beta iota.
    rewrite run_bind, insert_conversation_run
      by (do 3 apply reliable_tick; exact Hnet).
    reflexivity.
Qed.
Lemma filter_snoc_pair (clientId lawyerId : string) (rows : list Conversation.t)
    (id : nat) (created : N) :
  filter (same_pair clientId lawyerId)
    (rows ++ [new_conversation id clientId lawyerId created])
  = filter (same_pair clientId lawyerId) rows
    ++ [new_conversation id clientId lawyerId created].
Proof.
  rewrite filter_app. f_equal.
  rewrite filter_cons_True; [reflexivity | split; reflexivity].
Qed.

Lemma filter_snoc_other (c l clientId lawyerId : string) (rows : list Conversation.t)
    (id : nat) (created : N) :
  (c, l) <> (clientId, lawyerId) ->
  filter (same_pair c l) (rows ++ [new_conversation id clientId lawyerId created])
  = filter (same_pair c l) rows.
Proof.
  intros Hne. rewrite filter_app, filter_cons_False, filter_nil.
  - apply app_nil_r.
  - intros [H1 H2]. simpl in *. congruence.
Qed.

(** Inserting a row for a pair that has none keeps the pairs distinct. *)
Lemma at_most_one_insert (clientId lawyerId : string) (rows : list Conversation.t)
    (id : nat) (created : N) :
  at_most_one_per_pair rows ->
  filter (same_pair clientId lawyerId) rows = [] ->
  at_most_one_per_pair (rows ++ [new_conversation id clientId lawyerId created]).
Proof.
  intros Hinv Hnone c l.
  destruct (decide ((c, l) = (clientId, lawyerId))) as [[= -> ->] | Hne].
  - rewrite filter_snoc_pair, Hnone. simpl. lia.
  - rewrite filter_snoc_other by exact Hne. apply Hinv.
Qed.

(** The world a call leaves behind differs from the one it found by an
    appended row at most; profiles and the network are as before. *)
Lemma getOrCreateConversation_step (w : World) (userId1 userId2 clientId lawyerId : string)
    (r : Result Conversation.t) (w' : World) :
  reliable w ->
  assign_roles (user_type_of w userId1) userId1 userId2 = (clientId, lawyerId) ->
  at_most_one_per_pair (conversations w) ->
  getOrCreateConversation userId1 userId2 w = (r, w') ->
  exists row,
    r = {| success := true; data := Some row; error := None |} /\
    filter (same_pair clientId lawyerId) (conversations w') = [row] /\
    (conversations w' = conversations w \/
     (filter (same_pair clientId lawyerId) (conversations w) = [] /\
      conversations w' = conversations w ++ [row] /\
      row = new_conversation (serial w) clientId lawyerId
              (clock (tick (tick (tick w)))))) /\
    reliable w' /\ user_type_of w' userId1 = user_type_of w userId1.
Proof.
  intros Hnet Hroles Hinv Hrun.
  rewrite (getOrCreateConversation_run w userId1 userId2 clientId lawyerId Hnet Hroles)
    in Hrun.
  pose proof (Hinv clientId lawyerId) as Hone.
  destruct (filter (same_pair clientId lawyerId) (conversations w))
    as [|existing [|extra rest]] eqn:Hfound; [| | simpl in Hone; lia].
  - cbv zeta in Hrun. injection Hrun as <- <-.
    eexists. split; [reflexivity |].
    split; [| split; [| split]].
    + change (filter (same_pair clientId lawyerId)
                (conversations w
                 ++ [new_conversation (serial w) clientId lawyerId
                       (clock (tick (tick (tick w))))])
              = [new_conversation (serial w) clientId lawyerId
                   (clock (tick (tick (tick w))))]).
      now rewrite filter_snoc_pair, Hfound.
    + right. split; [reflexivity |]. split; reflexivity.
    + exact Hnet.
    + reflexivity.
  - injection Hrun as <- <-.
    exists existing. split; [reflexivity |].
    split; [exact Hfound |]. split; [now left |]. split; [exact Hnet | reflexivity].
Qed.

(** C5. With a backend that answers and at most one conversation per
    pair to start with, two calls of [getOrCreateConversation] in a row
    with the same two users both succeed and return the same row; that
    row is in the table, the second call leaves the table as the first
    left it, and there is still at most one conversation per pair. *)
Theorem getOrCreateConversation_twice (w : World) (userId1 userId2 : string) :
  reliable w ->
  at_most_one_per_pair (conversations w) ->
  let first := getOrCreateConversation userId1 userId2 w in
  let second := getOrCreateConversation userId1 userId2 first.2 in
  success first.1 = true /\ success second.1 = true /\
  (exists row, data first.1 = Some row /\ data second.1 = Some row /\
               row ∈ conversations first.2) /\
  conversations second.2 = conversations first.2 /\
  at_most_one_per_pair (conversations second.2).
Proof.
  intros Hnet Hinv first second. subst second first.
  destruct (assign_roles (user_type_of w userId1) userId1 userId2)
    as [clientId lawyerId] eqn:Hroles.
  destruct (getOrCreateConversation userId1 userId2 w) as [r1 w1] eqn:Hrun1.
  cbn [fst snd].
  destruct (getOrCreateConversation userId1 userId2 w1) as [r2 w2] eqn:Hrun2.
  cbn [fst snd].
  destruct (getOrCreateConversation_step w userId1 userId2 clientId lawyerId r1 w1
              Hnet Hroles Hinv Hrun1)
    as (row & -> & Hfound1 & Hrows1 & Hnet1 & Htype1).
  assert (Hinv1 : at_most_one_per_pair (conversations w1)).
  { destruct Hrows1 as [-> | (Hnone & -> & ->)]; [exact Hinv |].
    now apply at_most_one_insert. }
  rewrite <- Htype1 in Hroles.
  destruct (getOrCreateConversation_step w1 userId1 userId2 clientId lawyerId r2 w2
              Hnet1 Hroles Hinv1 Hrun2)
    as (row2 & -> & Hfound2 & Hrows2 & _ & _).
  assert (Hsame : conversations w2 = conversations w1).
  { destruct Hrows2 as [H | (Hnone & _ & _)]; [exact H |].
    rewrite Hfound1 in Hnone. discriminate. }
  rewrite Hsame, Hfound1 in Hfound2. injection Hfound2 as <-.
  cbn [success data].
  split; [reflexivity |]. split; [reflexivity |].
  split; [| split; [exact Hsame | now rewrite Hsame]].
  exists row. split; [reflexivity |]. split; [reflexivity |].
  assert (row ∈ filter (same_pair clientId lawyerId) (conversations w1)) as Hin
    by (rewrite Hfound1; apply list_elem_of_singleton; reflexivity).
  apply list_elem_of_filter in Hin. tauto.
Qed.

Lemma getOrCreateConversation_twice_witness :
  let first := getOrCreateConversation "carol" "bob" Demo.world in
  let second := getOrCreateConversation "carol" "bob" first.2 in
  success first.1 = true /\ success second.1 = true /\
  (exists row, data first.1 = Some row /\ data second.1 = Some row /\
               row ∈ conversations first.2) /\
  conversations second.2 = conversations first.2 /\
  at_most_one_per_pair (conversations second.2).
Proof.
  apply (getOrCreateConversation_twice Demo.world "carol" "bob").
  - intros n. reflexivity.
  - intros c l. cbn.
    destruct (decide (same_pair c l Demo.chat)); simpl; lia.
Defined.

(** The decision reads the first user's type only. *)
Lemma assign_roles_fallback (user1Type : option string) (userId1 userId2 : string) :
  user1Type <> Some "client" -> user1Type <> Some "lawyer" ->
  assign_roles user1Type userId1 userId2 = (userId1, userId2).
Proof.
  intros Hc Hl. unfold assign_roles.
  rewrite (bool_decide_eq_false_2 _ Hc), (bool_decide_eq_false_2 _ Hl).
  reflexivity.
Qed.

(** C7. The second user's type is fetched but never consulted.  When the
    first user has no profile and the second is a client, the client is
    stored as the lawyer side.  The same happens to a lawyer and a client
    who both resolve, when the round trip for the first lookup fails: the
    lawyer becomes the client side and the client the lawyer side. *)
Theorem getOrCreateConversation_second_type_unused :
  (user_type_of Demo.world "ghost" = None /\
   user_type_of Demo.world "carol" = Some "client" /\
   exists row,
     data (getOrCreateConversation "ghost" "carol" Demo.world).1 = Some row /\
     Conversation.client_id row = "ghost" /\
     Conversation.lawyer_id row = "carol") /\
  (user_type_of Demo.flaky_world "bob" = Some "lawyer" /\
   user_type_of Demo.flaky_world "alice" = Some "client" /\
   exists row,
     data (getOrCreateConversation "bob" "alice" Demo.flaky_world).1 = Some row /\
     Conversation.client_id row = "bob" /\
     Conversation.lawyer_id row = "alice").
Proof.
  split.
  - split; [vm_compute; reflexivity |]. split; [vm_compute; reflexivity |].
    eexists. split; [vm_compute; reflexivity |]. split; reflexivity.
  - split; [vm_compute; reflexivity |]. split; [vm_compute; reflexivity |].
    eexists. split; [vm_compute; reflexivity |]. split; reflexivity.
Qed.

End ConversationFacts.

Module AppointmentFacts.
Import Appointments.

Lemma updateAppointment_run (appointmentId : string) (updates : Updates) (w : World) :
  updateAppointment appointmentId updates w =
  match outage w (requests w) with
  | Some msg => ({| success := false; data := None; error := Some msg |}, tick w)
  | None =>
      match appointments w !! appointmentId with
      | Some a =>
          ({| success := true; data := Some (apply_updates updates a); error := None |},
           set_appointments (insert appointmentId (apply_updates updates a)) (tick w))
      | None =>
          ({| success := false; data := None;
              error := Some Supabase.not_one_row |}, tick w)
      end
  end.
Proof.
  unfold updateAppointment, update_row. run_async.
  destruct (outage w (requests w)); [reflexivity |].
  cbn. destruct (appointments w !! appointmentId); reflexivity.
Qed.

Lemma deleteAppointment_run (appointmentId : string) (w : World) :
  deleteAppointment appointmentId w =
  match outage w (requests w) with
  | Some msg => ({| success := false; data := None; error := Some msg |}, tick w)
  | None =>
      ({| success := bool_decide (is_Some (appointments w !! appointmentId));
          data := None;
          error := match appointments w !! appointmentId with
                   | Some _ => None
                   | None => Some "Could not delete appointment. Check permissions."
                   end |},
       set_appointments (delete appointmentId) (tick w))
  end.
Proof.
  unfold deleteAppointment, delete_row, rows_at. run_async.
  destruct (outage w (requests w)); [reflexivity |].
  cbn. destruct (appointments w !! appointmentId); reflexivity.
Qed.

(** Cancelling overwrites the [status] column and nothing else. *)
Lemma cancel_updates (a : Appointment.t) :
  apply_updates
    {| appointment_date := None; appointment_time := None; title := None;
       description := None; meeting_type := None; status := Some "cancelled" |} a
  = Appointment.with_status "cancelled" a.
Proof. reflexivity. Qed.

(** C8. [cancelAppointment] and [deleteAppointment] touch no row but the
    one addressed.  On an existing appointment, with a backend that
    answers, cancelling keeps the row and overwrites its [status] with
    'cancelled', every other column as before, while deleting leaves no
    row under that identifier.  Cancelling never removes a row, and
    deleting never rewrites one. *)
Theorem cancel_versus_delete (appointmentId : string) (w : World) :
  let cancelled := (cancelAppointment appointmentId w).2 in
  let deleted := (deleteAppointment appointmentId w).2 in
  (forall other : string, other <> appointmentId ->
     appointments cancelled !! other = appointments w !! other /\
     appointments deleted !! other = appointments w !! other) /\
  (forall a : Appointment.t,
     appointments w !! appointmentId = Some a ->
     outage w (requests w) = None ->
     success (cancelAppointment appointmentId w).1 = true /\
     appointments cancelled !! appointmentId
       = Some (Appointment.with_status "cancelled" a) /\
     success (deleteAppointment appointmentId w).1 = true /\
     appointments deleted !! appointmentId = None) /\
  (forall key : string,
     is_Some (appointments cancelled !! key) <-> is_Some (appointments w !! key)) /\
  (forall (key : string) (a : Appointment.t),
     appointments deleted !! key = Some a -> appointments w !! key = Some a).
Proof.
  intros cancelled deleted. subst cancelled deleted.
  unfold cancelAppointment.
  rewrite updateAppointment_run, deleteAppointment_run.
  destruct (outage w (requests w)) as [msg|] eqn:Hnet.
  - cbn. repeat split; auto; discriminate.
  - destruct (appointments w !! appointmentId) as [a0|] eqn:Hrow; cbn.
    + split; [| split; [| split]].
      * intros other Hne.
        rewrite lookup_insert_ne, lookup_delete_ne by congruence. auto.
      * intros a [= <-] _.
        rewrite lookup_insert_eq, lookup_delete_eq, cancel_updates. auto.
      * intros key. destruct (decide (key = appointmentId)) as [-> | Hne].
        -- rewrite lookup_insert_eq, Hrow. split; eauto.
        -- rewrite lookup_insert_ne by congruence. reflexivity.
      * intros key a Ha. destruct (decide (key = appointmentId)) as [-> | Hne].
        -- rewrite lookup_delete_eq in Ha. discriminate.
        -- rewrite lookup_delete_ne in Ha by congruence. exact Ha.
    + split; [| split; [| split]].
      * intros other Hne. rewrite lookup_delete_ne by congruence. auto.
      * discriminate.
      * reflexivity.
      * intros key a Ha. destruct (decide (key = appointmentId)) as [-> | Hne].
        -- rewrite lookup_delete_eq in Ha. discriminate.
        -- rewrite lookup_delete_ne in Ha by congruence. exact Ha.
Qed.

Lemma cancel_versus_delete_witness :
  success (cancelAppointment "appt-1" Demo.world).1 = true /\
  appointments (cancelAppointment "appt-1" Demo.world).2 !! "appt-1"
    = Some (Appointment.with_status "cancelled" Demo.booking) /\
  success (deleteAppointment "appt-1" Demo.world).1 = true /\
  appointments (deleteAppointment "appt-1" Demo.world).2 !! "appt-1" = None.
Proof.
  apply (proj1 (proj2 (cancel_versus_delete "appt-1" Demo.world)) Demo.booking);
    reflexivity.
Defined.

End AppointmentFacts.

Module ReviewFacts.
Import Reviews.
Local Open Scope Q_scope.

Lemma updateLawyerRating_run (lawyerId : string) (w : World) :
  let ratings := ratings_of lawyerId w in
  let average := match ratings with [] => 5 | _ => roundedAverage ratings end in
  updateLawyerRating lawyerId w =
  match outage w (requests w) with
  | Some msg =>
      ({| success := false; average := None; count := None; error := Some msg |},
       tick w)
  | None =>
      match outage w (S (requests w)) with
      | Some msg =>
          ({| success := false; average := None; count := None; error := Some msg |},
           tick (tick w))
      | None =>
          ({| success := true; average := Some average;
              count := Some (length ratings); error := None |},
           set_lawyers (alter (set_rating average (length ratings)) lawyerId)
             (tick (tick w)))
      end
  end.
Proof.
  intros ratings average. subst average ratings.
  unfold updateLawyerRating, select_ratings, update_rating. run_async.
  destruct (outage w (requests w)); [reflexivity |].
  cbn -[ratings_of].
  change (ratings_of lawyerId (tick w)) with (ratings_of lawyerId w).
  destruct (ratings_of lawyerId w) as [|r rs];
    cbn; destruct (outage w (S (requests w))); reflexivity.
Qed.

Lemma totalRating_from (ratings : list Q) (sum : Q) :
  fold_left (fun sum rating => sum + rating) ratings sum
  == sum + foldr Qplus 0 ratings.
Proof.
  revert sum. induction ratings as [|r rs IH]; intros sum; simpl.
  - ring.
  - rewrite IH. ring.
Qed.

Lemma totalRating_sum (ratings : list Q) : totalRating ratings == foldr Qplus 0 ratings.
Proof. unfold totalRating. rewrite totalRating_from. ring. Qed.


Lemma Math_round_comp (x y : Q) : x == y -> Fee.Math_round x = Fee.Math_round y.
Proof.
  intros H. unfold Fee.Math_round. f_equal. apply Qfloor_comp. now rewrite H.
Qed.

Lemma roundedAverage_mean (ratings : list Q) :
  roundedAverage ratings == Fee.Math_round (mean ratings * 10) / 10.
Proof.
  unfold roundedAverage, mean.
  rewrite (Math_round_comp _ (foldr Qplus 0 ratings
                              / inject_Z (Z.of_nat (length ratings)) * 10)).
  - reflexivity.
  - now rewrite totalRating_sum.
Qed.




End ReviewFacts.

Lemma run_sleep (ms : N) (w : World) :
  sleep ms w = (inr tt, set_clock (fun t => (t + ms)%N) w).
Proof. reflexivity. Qed.

Lemma run_ret {A : Type} (x : A) (w : World) : (mret x : Async A) w = (inr x, w).
Proof. reflexivity. Qed.

Lemma run_Date_now (w : World) : Date_now w = (inr (clock w), w).
Proof. reflexivity. Qed.


Module PaymentFacts.
Import Payment.
Local Open Scope Q_scope.


Lemma generateTransactionId_run (w : World) :
  generateTransactionId w =
  (inr ("TXN-" +:+ pretty (clock w) +:+ "-"
        +:+ Js.toUpperCase (Js.substring 2 9 (random36 w))), w).
Proof. reflexivity. Qed.



End PaymentFacts.

Module AuthFacts.
Import Auth.

Lemma falsy_missing (field : option string) :
  Js.falsy field = true <-> missing field.
Proof.
  unfold missing. destruct field as [[|c s]|]; simpl; split; auto.
  - discriminate.
  - intros [H | H]; discriminate.
Qed.

Lemma falsy_false (field : option string) :
  Js.falsy field = false ->
  exists s, field = Some s /\ default "" field = s /\ s <> "".
Proof.
  destruct field as [[|c s]|]; simpl; try discriminate.
  intros _. eexists. split; [reflexivity |]. split; [reflexivity | discriminate].
Qed.

(** The interpolated full name contains a space: it is never empty. *)
Lemma fullName_truthy (firstName lastName : option string) :
  Js.falsy (Some (interpolate firstName +:+ " " +:+ interpolate lastName)) = false.
Proof. destruct (interpolate firstName); reflexivity. Qed.

Lemma thrown_is_rejected (message : string) (remap : string -> string) (w : World) :
  rejected_offline (try_catch (throw message) (fun m => failure (remap m)) w) w.
Proof. unfold rejected_offline. cbn. eauto. Qed.

(** C4, as stated, fails for the legacy [signUp]: a seven-letter
    password without upper case or digit is weak, yet the call goes to
    the backend and succeeds. *)
Lemma signUp_accepts_weak_password :
  weak_password "abcdefg" /\
  ~ rejected_offline
      (signUp (Some "dan@b.co") (Some "abcdefg") (Some "Dan Malik")
         (Some "client") (Some "35202-1234567-1") None Demo.world)
      Demo.world.
Proof.
  split.
  - left. vm_compute. lia.
  - intros (H & _). vm_compute in H. discriminate.
Qed.

(** C4 (amended).  [signUpWithVerification] fails, leaving the world
    untouched, when the e-mail, the password, the account type or the
    CNIC is missing, when the e-mail is malformed, or when the password
    is weak.  The legacy [signUp] does so when one of its five fields is
    missing, when the e-mail is malformed, or when the password is
    shorter than six characters. *)
Theorem signup_validation_short_circuits (w : World) :
  (forall params : SignUpParams,
     missing (p_email params) \/ missing (p_password params) \/
     missing (p_accountType params) \/ missing (p_cnic params) \/
     (exists email, p_email params = Some email /\
                    SupabaseClient.isValidEmail email = false) \/
     (exists password, p_password params = Some password /\
                       weak_password password) ->
     rejected_offline (signUpWithVerification params w) w) /\
  (forall (email password fullName accountType cnic : option string)
          (profilePhoto : option SupabaseClient.File),
     missing email \/ missing password \/ missing fullName \/
     missing accountType \/ missing cnic \/
     (exists e, email = Some e /\ SupabaseClient.isValidEmail e = false) \/
     (exists p, password = Some p /\ (String.length p < 6)%nat) ->
     rejected_offline
       (signUp email password fullName accountType cnic profilePhoto w) w).
Proof.
  split.
  - intros params Hbad. unfold signUpWithVerification.
    rewrite fullName_truthy, orb_false_r.
    destruct (Js.falsy (p_email params) || Js.falsy (p_password params)
              || Js.falsy (p_accountType params) || Js.falsy (p_cnic params))
      eqn:Hfields; [apply thrown_is_rejected |].
    repeat (apply orb_false_iff in Hfields as [Hfields ?Hfld]).
    destruct (falsy_false _ Hfields) as (email & Hemail & -> & _).
    destruct (falsy_false (p_password params)) as (password & Hpassword & -> & _);
      [assumption |].
    destruct (negb (SupabaseClient.isValidEmail email)) eqn:Hvalid;
      [apply thrown_is_rejected |].
    destruct (String.length password <? 8)%nat eqn:Hlen;
      [apply thrown_is_rejected |].
    destruct (negb (Js.has Js.is_upper password)) eqn:Hupper;
      [apply thrown_is_rejected |].
    destruct (negb (Js.has Js.is_lower password)) eqn:Hlower;
      [apply thrown_is_rejected |].
    destruct (negb (Js.has Js.is_digit password)) eqn:Hdigit;
      [apply thrown_is_rejected |].
    exfalso.
    apply negb_false_iff in Hvalid, Hupper, Hlower, Hdigit.
    apply Nat.ltb_ge in Hlen.
    destruct Hbad as [H | [H | [H | [H | [H | H]]]]];
      try (apply falsy_missing in H; congruence).
    + destruct H as (e & He & Hmal). congruence.
    + destruct H as (p & Hp & Hweak).
      assert (p = password) as -> by congruence.
      destruct Hweak as [Hw | [Hw | [Hw | Hw]]]; [lia | congruence ..].
  - intros email password fullName accountType cnic profilePhoto Hbad.
    unfold signUp.
    destruct (Js.falsy email || Js.falsy password || Js.falsy fullName
              || Js.falsy accountType || Js.falsy cnic)
      eqn:Hfields; [apply thrown_is_rejected |].
    repeat (apply orb_false_iff in Hfields as [Hfields ?Hfld]).
    destruct (falsy_false _ Hfields) as (e & -> & He & _). rewrite He.
    destruct (falsy_false password) as (p & -> & Hp & _); [assumption |].
    rewrite Hp.
    destruct (negb (SupabaseClient.isValidEmail e)) eqn:Hvalid;
      [apply thrown_is_rejected |].
    destruct (String.length p <? 6)%nat eqn:Hlen;
      [apply thrown_is_rejected |].
    exfalso.
    apply negb_false_iff in Hvalid. apply Nat.ltb_ge in Hlen.
    destruct Hbad as [H | [H | [H | [H | [H | [H | H]]]]]];
      try (apply falsy_missing in H; congruence).
    + destruct H as (e' & [= <-] & Hmal). congruence.
    + destruct H as (p' & [= <-] & Hshort). lia.
Qed.

Lemma signup_validation_short_circuits_witness :
  rejected_offline
    (signUpWithVerification
       {| p_email := Some "dan@b.co"; p_password := Some "password1";
          p_firstName := Some "Dan"; p_lastName := Some "Malik";
          p_accountType := Some "client"; p_cnic := Some "35202-1234567-1";
          p_photo := None |} Demo.world)
    Demo.world /\
  rejected_offline
    (signUp (Some "dan@b.co") (Some "abcde") (Some "Dan Malik")
       (Some "client") (Some "35202-1234567-1") None Demo.world)
    Demo.world.
Proof.
  split.
  - apply (proj1 (signup_validation_short_circuits Demo.world)).
    do 5 right. exists "password1". split; [reflexivity |].
    right. left. reflexivity.
  - apply (proj2 (signup_validation_short_circuits Demo.world)).
    do 6 right. exists "abcde". split; [reflexivity | simpl; lia].
Defined.

End AuthFacts.


(** What a read resolves to: the rows, or the failure of the round trip. *)
Lemma read_cases {A : Type} (answer : World -> Supabase.Response A) (w : World) :
  read answer w = (inr (answer (tick w)), tick w) \/
  exists msg, read answer w = (inr (Supabase.failed msg), tick w).
Proof.
  unfold read, request. destruct (outage w (requests w)); eauto.
Qed.

Module ListFacts.










End ListFacts.

(* ===================================================================== *)
(** ** The matcher decides the language *)
(* ===================================================================== *)

Module RegexFacts.
Import Regex Language.

Lemma append_cons (c : ascii) (s v : string) :
  String c s +:+ v = String c (s +:+ v).
Proof. reflexivity. Qed.

Lemma append_nil_l (v : string) : "" +:+ v = v.
Proof. reflexivity. Qed.

Lemma append_nil_r (s : string) : s +:+ "" = s.
Proof.
  induction s as [|c s IH]; [reflexivity |]. now rewrite append_cons, IH.
Qed.

Lemma append_assoc (a b c : string) : (a +:+ b) +:+ c = a +:+ (b +:+ c).
Proof.
  induction a as [|x a IH]; [reflexivity |]. now rewrite !append_cons, IH.
Qed.

Lemma append_eq_nil (u v : string) : u +:+ v = "" -> u = "" /\ v = "".
Proof. destruct u; [auto | rewrite append_cons; discriminate]. Qed.

Lemma append_eq_cons (u v : string) (c : ascii) (s : string) :
  u +:+ v = String c s ->
  (u = "" /\ v = String c s) \/ exists u', u = String c u' /\ s = u' +:+ v.
Proof.
  destruct u as [|a u]; [auto |]. rewrite append_cons.
  intros [= -> <-]. right. eauto.
Qed.

Lemma matches_class (p : ascii -> bool) (s : string) :
  Matches (Class p) s <-> exists c, s = String c "" /\ p c = true.
Proof.
  split.
  - inversion 1; subst. eauto.
  - intros (c & -> & H). now constructor.
Qed.

Lemma matches_seq (r s : t) (w : string) :
  Matches (Seq r s) w <-> exists u v, w = u +:+ v /\ Matches r u /\ Matches s v.
Proof.
  split.
  - inversion 1; subst. eauto.
  - intros (u & v & -> & Hu & Hv). now constructor.
Qed.

Lemma matches_alt (r s : t) (w : string) :
  Matches (Alt r s) w <-> Matches r w \/ Matches s w.
Proof.
  split.
  - inversion 1; subst; auto.
  - intros [H | H]; [now apply MAltL | now apply MAltR].
Qed.

Lemma nullable_spec (r : t) : nullable r = true <-> Matches r "".
Proof.
  induction r as [| | p | r IHr s IHs | r IHr s IHs | r IHr]; simpl.
  - split; [discriminate | inversion 1].
  - split; [constructor | reflexivity].
  - split; [discriminate | inversion 1].
  - rewrite andb_true_iff, IHr, IHs, matches_seq. split.
    + intros [Hr Hs]. exists "", "". auto.
    + intros (u & v & Heq & Hu & Hv). symmetry in Heq.
      apply append_eq_nil in Heq as [-> ->]. auto.
  - rewrite orb_true_iff, IHr, IHs, matches_alt. reflexivity.
  - split; [constructor | reflexivity].
Qed.

(** A non-empty word of [r*] starts with a non-empty word of [r]. *)
Lemma star_cons (r : t) (c : ascii) (s : string) :
  Matches (Star r) (String c s) ->
  exists u v, s = u +:+ v /\ Matches r (String c u) /\ Matches (Star r) v.
Proof.
  intros H. remember (Star r) as r' eqn:Hr. remember (String c s) as w eqn:Hw.
  revert c s Hw.
  induction H as [| | | | | |r0 u v Hu _ Hv IHv]; intros a w' Hw;
    try discriminate.
  injection Hr as ->.
  apply append_eq_cons in Hw as [[-> ->] | (u' & -> & ->)].
  - now apply IHv.
  - eauto.
Qed.

Lemma derive_spec (c : ascii) (r : t) :
  forall s, Matches (derive c r) s <-> Matches r (String c s).
Proof.
  induction r as [| | p | r IHr s' IHs | r IHr s' IHs | r IHr]; intros s; simpl.
  - split; inversion 1.
  - split; inversion 1.
  - rewrite matches_class. destruct (p c) eqn:Hp; split.
    + inversion 1; subst. eauto.
    + intros (c' & ? & ?); simplify_eq. constructor.
    + inversion 1.
    + intros (c' & ? & ?); simplify_eq. congruence.
  - assert (Hseq : Matches (Seq (derive c r) s') s <->
                   exists u v, s = u +:+ v /\ Matches r (String c u) /\ Matches s' v).
    { rewrite matches_seq. split; intros (u & v & -> & Hu & Hv);
        exists u, v; (split; [reflexivity |]); split; auto; now apply IHr. }
    assert (Hcons : Matches (Seq r s') (String c s) <->
                    (exists u v, s = u +:+ v /\ Matches r (String c u) /\ Matches s' v)
                    \/ (Matches r "" /\ Matches s' (String c s))).
    { rewrite matches_seq. split.
      - intros (u & v & Heq & Hu & Hv). symmetry in Heq.
        apply append_eq_cons in Heq as [[-> ->] | (u' & -> & ->)]; eauto 6.
      - intros [(u & v & -> & Hu & Hv) | [Hu Hv]].
        + exists (String c u), v. auto.
        + exists "", (String c s). auto. }
    rewrite Hcons, <- Hseq, <- nullable_spec.
    destruct (nullable r) eqn:Hnull.
    + rewrite matches_alt, IHs. intuition.
    + intuition congruence.
  - rewrite !matches_alt, IHr, IHs. reflexivity.
  - rewrite matches_seq. split.
    + intros (u & v & -> & Hu & Hv).
      apply IHr in Hu. exact (MStarApp r (String c u) v Hu Hv).
    + intros H. apply star_cons in H as (u & v & -> & Hu & Hv).
      exists u, v. split; [reflexivity |]. split; [now apply IHr | exact Hv].
Qed.

(** [Regex.test] answers [true] exactly on the words of the expression. *)
Lemma test_spec (r : t) (s : string) : test r s = true <-> Matches r s.
Proof.
  revert r. induction s as [|c s IH]; intros r; simpl.
  - apply nullable_spec.
  - rewrite IH. apply derive_spec.
Qed.

(** The words of [[p]*] are the strings made of [p] characters. *)
Lemma matches_star_class (p : ascii -> bool) (s : string) :
  Matches (Star (Class p)) s <-> Js.all p s = true.
Proof.
  split.
  - intros H. remember (Star (Class p)) as r eqn:Hr.
    induction H as [| | | | | |r0 u v Hu _ Hv IHv]; try discriminate.
    + reflexivity.
    + injection Hr as ->. apply matches_class in Hu as (c & -> & Hc).
      rewrite append_cons, append_nil_l. simpl. rewrite Hc. now apply IHv.
  - induction s as [|c s IH]; simpl.
    + constructor.
    + intros H. apply andb_prop in H as [Hc Hs].
      exact (MStarApp (Class p) (String c "") s (MClass p c Hc) (IH Hs)).
Qed.

(** The words of [[p]+] are the non-empty strings made of [p] characters. *)
Lemma matches_plus_class (p : ascii -> bool) (s : string) :
  Matches (Plus (Class p)) s <-> s <> "" /\ Js.all p s = true.
Proof.
  unfold Plus. rewrite matches_seq. split.
  - intros (u & v & -> & Hu & Hv).
    apply matches_class in Hu as (c & -> & Hc).
    apply matches_star_class in Hv. rewrite append_cons, append_nil_l.
    simpl. rewrite Hc. split; [discriminate | exact Hv].
  - intros [Hne Hall]. destruct s as [|c s]; [congruence |].
    simpl in Hall. apply andb_prop in Hall as [Hc Hs].
    exists (String c ""), s. split; [reflexivity |].
    split; [now apply matches_class; eauto | now apply matches_star_class].
Qed.

End RegexFacts.

Module EmailFacts.
Import Regex Language RegexFacts.

Lemma code_char (c : ascii) (n : nat) :
  (n < 256)%nat -> (Js.code c =? Z.of_nat n) = true -> c = ascii_of_nat n.
Proof.
  intros Hn H. apply Z.eqb_eq in H. unfold Js.code in H.
  apply Nat2Z.inj in H. rewrite <- H. symmetry. apply ascii_nat_embedding.
Qed.

Lemma matches_at (s : string) :
  Matches (Class (fun c => Js.code c =? 64)) s <-> s = "@".
Proof.
  rewrite matches_class. split.
  - intros (c & -> & H). apply (code_char c 64) in H; [| lia]. now subst.
  - intros ->. eauto.
Qed.

Lemma matches_dot (s : string) :
  Matches (Class (fun c => Js.code c =? 46)) s <-> s = ".".
Proof.
  rewrite matches_class. split.
  - intros (c & -> & H). apply (code_char c 46) in H; [| lia]. now subst.
  - intros ->. eauto.
Qed.

(** X1. [isValidEmail] accepts exactly the strings [local@domain.tld]
    whose three parts are non-empty and free of white space and [@]; the
    domain part may itself contain dots.  So "a@b.co" passes while "a@b"
    and "not-an-email" do not. *)
Theorem isValidEmail_shape :
  (forall email : string,
     SupabaseClient.isValidEmail email = true <->
     exists local domain tld : string,
       email = local +:+ "@" +:+ domain +:+ "." +:+ tld /\
       address_part local /\ address_part domain /\ address_part tld) /\
  SupabaseClient.isValidEmail "a@b.co" = true /\
  SupabaseClient.isValidEmail "a@b" = false /\
  SupabaseClient.isValidEmail "not-an-email" = false.
Proof.
  split; [| repeat split; reflexivity].
  intros email. unfold SupabaseClient.isValidEmail, SupabaseClient.email_re.
  rewrite test_spec. unfold address_part. split.
  - intros H.
    apply matches_seq in H as (local & r1 & -> & Hlocal & H).
    apply matches_seq in H as (at_ & r2 & -> & Hat & H).
    apply matches_seq in H as (domain & r3 & -> & Hdomain & H).
    apply matches_seq in H as (dot & tld & -> & Hdot & Htld).
    apply matches_at in Hat as ->. apply matches_dot in Hdot as ->.
    apply matches_plus_class in Hlocal, Hdomain, Htld.
    exists local, domain, tld. auto.
  - intros (local & domain & tld & -> & Hlocal & Hdomain & Htld).
    apply matches_plus_class in Hlocal, Hdomain, Htld.
    apply matches_seq. exists local, ("@" +:+ domain +:+ "." +:+ tld).
    split; [reflexivity |]. split; [exact Hlocal |].
    apply matches_seq. exists "@", (domain +:+ "." +:+ tld).
    split; [reflexivity |]. split; [now apply matches_at |].
    apply matches_seq. exists domain, ("." +:+ tld).
    split; [reflexivity |]. split; [exact Hdomain |].
    apply matches_seq. exists ".", tld.
    split; [reflexivity |]. split; [now apply matches_dot | exact Htld].
Qed.

End EmailFacts.

Module CardDisplayFacts.
Import Regex Language RegexFacts CardDisplay.

Lemma code_inj (c x : ascii) : (Js.code c =? Js.code x) = true -> c = x.
Proof.
  intros H. apply Z.eqb_eq in H. unfold Js.code in H. apply Nat2Z.inj in H.
  rewrite <- (ascii_nat_embedding c), <- (ascii_nat_embedding x). now f_equal.
Qed.

Lemma matches_char (x : ascii) (s : string) :
  Matches (Class (is_char x)) s <-> s = String x "".
Proof.
  rewrite matches_class. unfold is_char. split.
  - intros (c & -> & H). apply code_inj in H. now subst.
  - intros ->. exists x. split; [reflexivity | apply Z.eqb_refl].
Qed.

Lemma matches_anything (s : string) : Matches (Star (Class (fun _ => true))) s.
Proof. apply matches_star_class. induction s; simpl; auto. Qed.

(** [/^r/.test(s)] holds when [s] begins with a word of [r]. *)
Lemma test_start_spec (r : t) (s : string) :
  test_start r s = true <-> exists p rest, s = p +:+ rest /\ Matches r p.
Proof.
  unfold test_start. rewrite test_spec, matches_seq. split.
  - intros (p & rest & -> & Hp & _). eauto.
  - intros (p & rest & -> & Hp). exists p, rest. auto using matches_anything.
Qed.

Lemma visa_spec (s : string) :
  test_start visa_re s = true <-> exists rest, s = "4" +:+ rest.
Proof.
  rewrite test_start_spec. unfold visa_re. split.
  - intros (p & rest & -> & Hp). apply matches_char in Hp as ->. eauto.
  - intros (rest & ->). exists "4", rest. split; [reflexivity |].
    now apply matches_char.
Qed.

Lemma mastercard_spec (s : string) :
  test_start mastercard_re s = true <->
  exists d rest, s = String "5" (String d rest) /\ Js.in_range 49 53 d = true.
Proof.
  rewrite test_start_spec. unfold mastercard_re. split.
  - intros (p & rest & -> & Hp).
    apply matches_seq in Hp as (a & b & -> & Ha & Hb).
    apply matches_char in Ha as ->. apply matches_class in Hb as (d & -> & Hd).
    exists d, rest. auto.
  - intros (d & rest & -> & Hd). exists (String "5" (String d "")), rest.
    split; [reflexivity |]. apply matches_seq.
    exists "5", (String d ""). split; [reflexivity |].
    split; [now apply matches_char | now apply matches_class; eauto].
Qed.

Lemma amex_spec (s : string) :
  test_start amex_re s = true <->
  exists rest, s = "34" +:+ rest \/ s = "37" +:+ rest.
Proof.
  rewrite test_start_spec. unfold amex_re. split.
  - intros (p & rest & -> & Hp).
    apply matches_seq in Hp as (a & b & -> & Ha & Hb).
    apply matches_char in Ha as ->. apply matches_class in Hb as (d & -> & Hd).
    exists rest. apply orb_prop in Hd as [Hd | Hd]; apply code_inj in Hd; subst; auto.
  - intros (rest & [-> | ->]).
    + exists "34", rest. split; [reflexivity |]. apply matches_seq.
      exists "3", "4". split; [reflexivity |].
      split; [now apply matches_char | apply matches_class; eauto].
    + exists "37", rest. split; [reflexivity |]. apply matches_seq.
      exists "3", "7". split; [reflexivity |].
      split; [now apply matches_char | apply matches_class; eauto].
Qed.

Lemma discover_spec (s : string) :
  test_start discover_re s = true <->
  exists rest, s = "6011" +:+ rest \/ s = "65" +:+ rest.
Proof.
  rewrite test_start_spec. unfold discover_re. split.
  - intros (p & rest & -> & Hp).
    apply matches_seq in Hp as (a & b & -> & Ha & Hb).
    apply matches_char in Ha as ->. exists rest.
    apply matches_alt in Hb as [Hb | Hb].
    + apply matches_seq in Hb as (x & b' & -> & Hx & Hb).
      apply matches_seq in Hb as (y & z & -> & Hy & Hz).
      apply matches_char in Hx as ->. apply matches_char in Hy as ->.
      apply matches_char in Hz as ->. now left.
    + apply matches_char in Hb as ->. now right.
  - intros (rest & [-> | ->]).
    + exists "6011", rest. split; [reflexivity |]. apply matches_seq.
      exists "6", "011". split; [reflexivity |].
      split; [now apply matches_char |]. apply matches_alt. left.
      apply matches_seq. exists "0", "11". split; [reflexivity |].
      split; [now apply matches_char |].
      apply matches_seq. exists "1", "1". split; [reflexivity |].
      split; now apply matches_char.
    + exists "65", rest. split; [reflexivity |]. apply matches_seq.
      exists "6", "5". split; [reflexivity |].
      split; [now apply matches_char |]. apply matches_alt. right.
      now apply matches_char.
Qed.

(** X2. [getCardType] looks at the digits only and classifies them by
    their first characters: 4 is Visa, 51 to 55 Mastercard, 34 and 37
    American Express, 6011 and 65 Discover, and everything else, the
    empty string included, is Unknown. *)
Theorem getCardType_by_prefix (cardNumber : string) :
  let digits := Js.keep Js.is_digit cardNumber in
  let visa := exists rest, digits = "4" +:+ rest in
  let mastercard :=
    exists d rest, digits = String "5" (String d rest) /\ Js.in_range 49 53 d = true in
  let amex := exists rest, digits = "34" +:+ rest \/ digits = "37" +:+ rest in
  let discover := exists rest, digits = "6011" +:+ rest \/ digits = "65" +:+ rest in
  (getCardType cardNumber = "Visa" <-> visa) /\
  (getCardType cardNumber = "Mastercard" <-> mastercard) /\
  (getCardType cardNumber = "American Express" <-> amex) /\
  (getCardType cardNumber = "Discover" <-> discover) /\
  (getCardType cardNumber = "Unknown" <->
   ~ visa /\ ~ mastercard /\ ~ amex /\ ~ discover).
Proof.
  intros digits visa mastercard amex discover.
  assert (Hv := visa_spec digits). assert (Hm := mastercard_spec digits).
  assert (Ha := amex_spec digits). assert (Hd := discover_spec digits).
  fold visa in Hv. fold mastercard in Hm. fold amex in Ha. fold discover in Hd.
  assert (Hvm : visa -> ~ mastercard).
  { intros (r & H) (d & r' & H' & _). rewrite H in H'. discriminate. }
  assert (Hva : visa -> ~ amex).
  { intros (r & H) (r' & [H' | H']); rewrite H in H'; discriminate. }
  assert (Hvd : visa -> ~ discover).
  { intros (r & H) (r' & [H' | H']); rewrite H in H'; discriminate. }
  assert (Hma : mastercard -> ~ amex).
  { intros (d & r & H & _) (r' & [H' | H']); rewrite H in H'; discriminate. }
  assert (Hmd : mastercard -> ~ discover).
  { intros (d & r & H & _) (r' & [H' | H']); rewrite H in H'; discriminate. }
  assert (Had : amex -> ~ discover).
  { intros (r & [H | H]) (r' & [H' | H']); rewrite H in H'; discriminate. }
  unfold getCardType. fold digits.
  destruct (test_start visa_re digits);
    [| destruct (test_start mastercard_re digits);
       [| destruct (test_start amex_re digits);
          [| destruct (test_start discover_re digits)]]].
  all: repeat split; try discriminate; try tauto.
  all: try (intros H; exfalso; intuition congruence).
Qed.

End CardDisplayFacts.

Module CardFormatFacts.
Import CardDisplay RegexFacts.

Lemma keep_idempotent (p : ascii -> bool) (s : string) :
  Js.keep p (Js.keep p s) = Js.keep p s.
Proof.
  induction s as [|c s IH]; simpl; [reflexivity |].
  destruct (p c) eqn:E; simpl; [| exact IH]. now rewrite E, IH.
Qed.

Lemma keep_append (p : ascii -> bool) (u v : string) :
  Js.keep p (u +:+ v) = Js.keep p u +:+ Js.keep p v.
Proof.
  induction u as [|c u IH]; [reflexivity |].
  rewrite append_cons. simpl. destruct (p c); [| exact IH].
  now rewrite append_cons, IH.
Qed.

Lemma keep_all_id (p : ascii -> bool) (s : string) :
  Js.all p s = true -> Js.keep p s = s.
Proof.
  induction s as [|c s IH]; simpl; [reflexivity |].
  intros H. apply andb_prop in H as [-> H]. now rewrite IH.
Qed.

Lemma space_not_digit (c : ascii) : Js.is_space c = true -> Js.is_digit c = false.
Proof.
  unfold Js.is_space, Js.is_digit, Js.in_range. intros H.
  apply orb_prop in H as [H | H]; [apply orb_prop in H as [H | H] |].
  - apply andb_prop in H as [_ H]. apply Z.leb_le in H.
    apply andb_false_iff. left. apply Z.leb_gt. lia.
  - apply Z.eqb_eq in H. rewrite H. reflexivity.
  - apply Z.eqb_eq in H. rewrite H. reflexivity.
Qed.

Lemma keep_trim_start (s : string) :
  Js.keep Js.is_digit (Js.trim_start s) = Js.keep Js.is_digit s.
Proof.
  induction s as [|c s IH]; simpl; [reflexivity |].
  destruct (Js.is_space c) eqn:E; [| reflexivity].
  now rewrite (space_not_digit c E).
Qed.

Lemma keep_rev_string (p : ascii -> bool) (s acc : string) :
  Js.keep p (Js.rev_string s acc) = Js.rev_string (Js.keep p s) (Js.keep p acc).
Proof.
  revert acc. induction s as [|c s IH]; intros acc; simpl; [reflexivity |].
  rewrite IH. simpl. now destruct (p c).
Qed.

Lemma rev_string_twice (s a b : string) :
  Js.rev_string (Js.rev_string s a) b = Js.rev_string a (s +:+ b).
Proof.
  revert a b. induction s as [|c s IH]; intros a b; simpl; [reflexivity |].
  now rewrite IH.
Qed.

(** Trimming removes white space only. *)
Lemma keep_trim (s : string) :
  Js.keep Js.is_digit (Js.trim s) = Js.keep Js.is_digit s.
Proof.
  unfold Js.trim.
  rewrite keep_rev_string, keep_trim_start, keep_rev_string, keep_trim_start.
  simpl. rewrite rev_string_twice. simpl. apply append_nil_r.
Qed.

Lemma space_every_four_unfold (a b c d : ascii) (r : string) :
  space_every_four (String a (String b (String c (String d r)))) =
  if Js.is_digit a && Js.is_digit b && Js.is_digit c && Js.is_digit d
  then String a (String b (String c (String d (String " " (space_every_four r)))))
  else String a (space_every_four (String b (String c (String d r)))).
Proof. reflexivity. Qed.

(** The replacement inserts spaces only. *)
Lemma keep_space_every_four (s : string) :
  Js.keep Js.is_digit (space_every_four s) = Js.keep Js.is_digit s.
Proof.
  assert (H : forall n s, (String.length s <= n)%nat ->
              Js.keep Js.is_digit (space_every_four s) = Js.keep Js.is_digit s).
  { clear s. induction n as [|n IH]; intros s Hlen.
    - destruct s; [reflexivity | simpl in Hlen; lia].
    - destruct s as [|a t]; [reflexivity |].
      assert (Ht : Js.keep Js.is_digit (space_every_four t) = Js.keep Js.is_digit t)
        by (apply IH; simpl in Hlen; lia).
      destruct t as [|b [|c [|d r]]]; [reflexivity | reflexivity | reflexivity |].
      rewrite space_every_four_unfold.
      destruct (Js.is_digit a && Js.is_digit b && Js.is_digit c && Js.is_digit d)
        eqn:E.
      + apply andb_prop in E as [E Hd]. apply andb_prop in E as [E Hc].
        apply andb_prop in E as [Ha Hb].
        simpl. rewrite Ha, Hb, Hc, Hd.
        rewrite (IH r) by (simpl in Hlen; lia). reflexivity.
      + change (Js.keep Js.is_digit (String a ?x))
          with (if Js.is_digit a then String a (Js.keep Js.is_digit x)
                else Js.keep Js.is_digit x).
        now rewrite Ht. }
  apply (H (String.length s)). lia.
Qed.

Lemma formatCardNumber_digits (cardNumber : string) :
  Js.keep Js.is_digit (formatCardNumber cardNumber) = Js.keep Js.is_digit cardNumber.
Proof.
  unfold formatCardNumber.
  now rewrite keep_trim, keep_space_every_four, keep_idempotent.
Qed.

(** X3. [formatCardNumber] only regroups: the formatted string has the
    digits of the input, all of them and in order.  Hence formatting
    twice is formatting once, and the formatted number validates and
    classifies as the raw one does. *)
Theorem formatCardNumber_keeps_digits (cardNumber : string) :
  Js.keep Js.is_digit (formatCardNumber cardNumber) = Js.keep Js.is_digit cardNumber /\
  formatCardNumber (formatCardNumber cardNumber) = formatCardNumber cardNumber /\
  Card.validateCardNumber (formatCardNumber cardNumber)
    = Card.validateCardNumber cardNumber /\
  getCardType (formatCardNumber cardNumber) = getCardType cardNumber.
Proof.
  pose proof (formatCardNumber_digits cardNumber) as H.
  split; [exact H |]. split; [| split].
  - unfold formatCardNumber at 1. now rewrite H.
  - unfold Card.validateCardNumber. now rewrite H.
  - unfold getCardType. now rewrite H.
Qed.

End CardFormatFacts.

Module CardMaskFacts.
Import CardDisplay RegexFacts CardFormatFacts.

Lemma substring_all (n : nat) (s : string) :
  (String.length s <= n)%nat -> String.substring 0 n s = s.
Proof.
  revert n. induction s as [|c s IH]; intros [|n] H; simpl in *; try reflexivity.
  - lia.
  - now rewrite IH by lia.
Qed.

(** The characters from position [k] on form a suffix. *)
Lemma substring_suffix (k : nat) (s : string) :
  (k <= String.length s)%nat ->
  exists hidden,
    String.length hidden = k /\
    s = hidden +:+ String.substring k (String.length s - k) s.
Proof.
  revert s. induction k as [|k IH]; intros s Hk.
  - exists "". rewrite Nat.sub_0_r, substring_all by lia. auto.
  - destruct s as [|c s]; [simpl in Hk; lia |].
    destruct (IH s) as (h & Hh & Hs); [simpl in Hk; lia |].
    exists (String c h). split; [simpl; now rewrite Hh |].
    rewrite append_cons. simpl. now rewrite <- Hs.
Qed.

Lemma length_append (u v : string) :
  String.length (u +:+ v) = (String.length u + String.length v)%nat.
Proof.
  induction u as [|c u IH]; [reflexivity |]. rewrite append_cons. simpl. now rewrite IH.
Qed.

Lemma slice_last_suffix (n : nat) (s : string) :
  exists hidden,
    s = hidden +:+ slice_last n s /\
    String.length (slice_last n s) = Nat.min n (String.length s).
Proof.
  unfold slice_last.
  destruct (le_lt_dec n (String.length s)) as [Hle | Hlt].
  - destruct (substring_suffix (String.length s - n) s) as (h & Hh & Hs); [lia |].
    replace (String.length s - (String.length s - n))%nat with n in Hs by lia.
    exists h. split; [exact Hs |].
    apply (f_equal String.length) in Hs.
    rewrite length_append, Hh in Hs. lia.
  - replace (String.length s - n)%nat with 0%nat by lia.
    rewrite substring_all by lia. exists "". split; [reflexivity | lia].
Qed.

Lemma all_append (p : ascii -> bool) (u v : string) :
  Js.all p (u +:+ v) = Js.all p u && Js.all p v.
Proof.
  induction u as [|c u IH]; [reflexivity |].
  rewrite append_cons. simpl. now rewrite IH, andb_assoc.
Qed.

(** X4. [maskCardNumber] shows the fifteen masking characters followed
    by the last four digits of the number, or by all its digits when it
    has fewer than four: no digit before those is revealed. *)
Theorem maskCardNumber_reveals_last_four (cardNumber : string) :
  let digits := Js.keep Js.is_digit cardNumber in
  let shown := Js.keep Js.is_digit (maskCardNumber cardNumber) in
  maskCardNumber cardNumber = "**** **** **** " +:+ shown /\
  String.length shown = Nat.min 4 (String.length digits) /\
  exists hidden, digits = hidden +:+ shown.
Proof.
  intros digits shown. subst shown. unfold maskCardNumber. fold digits.
  destruct (slice_last_suffix 4 digits) as (hidden & Hsplit & Hlen).
  assert (Hall : Js.all Js.is_digit (slice_last 4 digits) = true).
  { pose proof (CardFacts.keep_all Js.is_digit cardNumber) as H. fold digits in H.
    rewrite Hsplit, all_append in H. now apply andb_prop in H as [_ H]. }
  assert (Hshown : Js.keep Js.is_digit ("**** **** **** " +:+ slice_last 4 digits)
                   = slice_last 4 digits).
  { rewrite keep_append. simpl Js.keep at 1. rewrite append_nil_l.
    now apply keep_all_id. }
  rewrite Hshown. split; [reflexivity |]. split; [exact Hlen |].
  exists hidden. exact Hsplit.
Qed.

End CardMaskFacts.

Module LuhnFacts.
Import Card CardFacts RegexFacts CardFormatFacts CardMaskFacts Luhn.

Lemma list_ascii_append (u v : string) :
  list_ascii_of_string (u +:+ v) = list_ascii_of_string u ++ list_ascii_of_string v.
Proof.
  induction u as [|c u IH]; [reflexivity |]. rewrite append_cons. simpl. now rewrite IH.
Qed.

Lemma luhn_total_app (l1 l2 : list Z) (doubled : bool) :
  luhn_total (l1 ++ l2) doubled =
  luhn_total l1 doubled + luhn_total l2 (xorb doubled (Nat.odd (length l1))).
Proof.
  revert doubled. induction l1 as [|d l1 IH]; intros doubled; simpl.
  - now rewrite xorb_false_r.
  - rewrite IH. rewrite Nat.odd_succ, <- Nat.negb_odd.
    replace (xorb (negb doubled) (Nat.odd (length l1)))
      with (xorb doubled (negb (Nat.odd (length l1))))
      by (destruct doubled, (Nat.odd (length l1)); reflexivity).
    lia.
Qed.

Lemma weight_range (doubled : bool) (d : Z) :
  0 <= d <= 9 -> 0 <= weight doubled d <= 9.
Proof.
  intros H. unfold weight. destruct doubled; [| lia].
  rewrite digit_sum_double by exact H. destruct (d * 2 >? 9) eqn:E; lia.
Qed.

Lemma weight_inj (doubled : bool) (d d' : Z) :
  0 <= d <= 9 -> 0 <= d' <= 9 -> weight doubled d = weight doubled d' -> d = d'.
Proof.
  intros H H'. unfold weight. destruct doubled; [| auto].
  rewrite !digit_sum_double by assumption.
  destruct (d * 2 >? 9) eqn:E; destruct (d' * 2 >? 9) eqn:E'; lia.
Qed.

Lemma parseInt_inj (c c' : ascii) : Js.parseInt c = Js.parseInt c' -> c = c'.
Proof.
  unfold Js.parseInt. intros H. apply CardDisplayFacts.code_inj.
  apply Z.eqb_eq. lia.
Qed.

(** The total of a number with the digit [c] between [before] and [after]. *)
Lemma luhn_total_middle (before after : string) (c : ascii) :
  exists (rest : Z) (doubled : bool),
    forall x : ascii,
      luhn_total (rev (digit_values (before +:+ String x after))) false
      = rest + weight doubled (Js.parseInt x).
Proof.
  exists (luhn_total (rev (digit_values after)) false
          + luhn_total (rev (digit_values before))
              (negb (Nat.odd (length (rev (digit_values after)))))),
         (Nat.odd (length (rev (digit_values after)))).
  intros x. unfold digit_values.
  rewrite list_ascii_append. simpl list_ascii_of_string.
  rewrite map_app, rev_app_distr. simpl map. simpl rev at 1.
  rewrite <- app_assoc, luhn_total_app. simpl app. simpl luhn_total at 2.
  unfold weight. lia.
Qed.

(** X5. The checksum catches every single wrong digit: when a number
    passes [validateCardNumber], the number obtained by replacing any one
    of its digits by a different digit does not pass. *)
Theorem validateCardNumber_detects_wrong_digit
    (before after : string) (c c' : ascii) :
  Js.is_digit c = true -> Js.is_digit c' = true -> c <> c' ->
  validateCardNumber (before +:+ String c after) = true ->
  validateCardNumber (before +:+ String c' after) = false.
Proof.
  intros Hc Hc' Hne Hvalid.
  unfold validateCardNumber in *.
  rewrite keep_append in *. simpl Js.keep in *. rewrite Hc in Hvalid. rewrite Hc'.
  set (P := Js.keep Js.is_digit before) in *.
  set (Q := Js.keep Js.is_digit after) in *.
  assert (HP : Js.all Js.is_digit P = true) by apply keep_all.
  assert (HQ : Js.all Js.is_digit Q = true) by apply keep_all.
  assert (Hall : forall x, Js.is_digit x = true ->
                   Js.all Js.is_digit (P +:+ String x Q) = true).
  { intros x Hx. rewrite all_append. simpl. now rewrite HP, Hx, HQ. }
  assert (Hlen : String.length (P +:+ String c Q) = String.length (P +:+ String c' Q))
    by (now rewrite !length_append).
  rewrite Hlen in Hvalid.
  destruct ((String.length (P +:+ String c' Q) <? 13)
            || (19 <? String.length (P +:+ String c' Q)))%nat;
    [discriminate |].
  rewrite <- Hlen in Hvalid.
  rewrite luhn_loop_full in * by auto.
  destruct (luhn_total_middle P Q c) as (rest & doubled & Htotal).
  rewrite Htotal in *. apply Z.eqb_eq in Hvalid. apply Z.eqb_neq. intros Hbad.
  pose proof (weight_range doubled _ (digit_range c Hc)) as Hr.
  pose proof (weight_range doubled _ (digit_range c' Hc')) as Hr'.
  assert (weight doubled (Js.parseInt c) = weight doubled (Js.parseInt c')) as Heq.
  { apply Z.mod_divide in Hvalid, Hbad; try lia.
    destruct Hvalid as [k Hk]. destruct Hbad as [k' Hk']. lia. }
  apply weight_inj in Heq; auto using digit_range.
  apply parseInt_inj in Heq. contradiction.
Qed.

Lemma validateCardNumber_detects_wrong_digit_witness :
  validateCardNumber "4532015112830367" = false.
Proof.
  apply (validateCardNumber_detects_wrong_digit "453201511283036" "" "6" "7");
    [reflexivity | reflexivity | discriminate | reflexivity].
Defined.

End LuhnFacts.

Module NumericFacts.
Import Fee Reviews ReviewFacts.
Local Open Scope Q_scope.



Lemma sum_bounds (lo hi : Q) (ratings : list Q) :
  Forall (fun r => lo <= r /\ r <= hi) ratings ->
  inject_Z (Z.of_nat (length ratings)) * lo <= foldr Qplus 0 ratings /\
  foldr Qplus 0 ratings <= inject_Z (Z.of_nat (length ratings)) * hi.
Proof.
  induction 1 as [|r rs [Hlo Hhi] _ [IHlo IHhi]].
  - change (0 * lo <= 0 /\ 0 <= 0 * hi). lra.
  - cbn [length foldr]. rewrite Nat2Z.inj_succ. unfold Z.succ.
    rewrite inject_Z_plus. change (inject_Z 1) with 1. split; lra.
Qed.

Lemma mean_bounds (lo hi : Q) (ratings : list Q) :
  ratings <> [] ->
  Forall (fun r => lo <= r /\ r <= hi) ratings ->
  lo <= mean ratings /\ mean ratings <= hi.
Proof.
  intros Hne Hall. destruct (sum_bounds lo hi ratings Hall) as [Hlo Hhi].
  unfold mean.
  assert (Hn : 0 < inject_Z (Z.of_nat (length ratings))).
  { change 0 with (inject_Z 0). rewrite <- Zlt_Qlt.
    destruct ratings; [congruence | simpl; lia]. }
  split.
  - apply Qle_shift_div_l; [exact Hn |]. lra.
  - apply Qle_shift_div_r; [exact Hn |]. lra.
Qed.

Lemma Math_round_between (lo hi : Z) (x : Q) :
  inject_Z lo <= x -> x <= inject_Z hi ->
  inject_Z lo <= Math_round x /\ Math_round x <= inject_Z hi.
Proof.
  intros Hlo Hhi. unfold Math_round. rewrite <- !Zle_Qle.
  split.
  - rewrite <- (Qfloor_Z lo). apply Qfloor_resp_le. lra.
  - assert (Qfloor (x + (1 # 2)) < hi + 1)%Z; [| lia].
    rewrite Zlt_Qlt. eapply Qle_lt_trans; [apply Qfloor_le |].
    rewrite inject_Z_plus. change (inject_Z 1) with 1. lra.
Qed.

Lemma roundedAverage_bounds (ratings : list Q) :
  ratings <> [] ->
  Forall (fun r => 1 <= r /\ r <= 5) ratings ->
  1 <= roundedAverage ratings /\ roundedAverage ratings <= 5.
Proof.
  intros Hne Hall. rewrite roundedAverage_mean.
  destruct (mean_bounds 1 5 ratings Hne Hall) as [Hlo Hhi].
  destruct (Math_round_between 10 50 (mean ratings * 10)) as [Hlo' Hhi'];
    [change (inject_Z 10) with 10; lra | change (inject_Z 50) with 50; lra |].
  change (inject_Z 10) with 10 in Hlo'. change (inject_Z 50) with 50 in Hhi'.
  split.
  - apply Qle_shift_div_l; lra.
  - apply Qle_shift_div_r; lra.
Qed.

(** X7. When every rating of a lawyer lies between 1 and 5, the average
    that a successful [updateLawyerRating] stores for that lawyer lies
    between 1 and 5 as well, the default for a lawyer without reviews
    included; rounding never pushes it out of the scale. *)
Theorem updateLawyerRating_stays_on_scale (lawyerId : string) (l : Lawyer.t) (w : World) :
  lawyers w !! lawyerId = Some l ->
  Forall (fun r => 1 <= r /\ r <= 5) (ratings_of lawyerId w) ->
  Reviews.success (updateLawyerRating lawyerId w).1 = true ->
  exists (l' : Lawyer.t) (average : Q),
    lawyers (updateLawyerRating lawyerId w).2 !! lawyerId = Some l' /\
    Lawyer.average_rating l' = Some average /\
    1 <= average /\ average <= 5.
Proof.
  intros Hrow Hall. rewrite (updateLawyerRating_run lawyerId w). cbv zeta.
  destruct (outage w (requests w)) as [msg|]; [discriminate |].
  destruct (outage w (S (requests w))) as [msg|]; [discriminate |].
  intros _. cbn [snd].
  change (lawyers (set_lawyers ?f (tick (tick w)))) with (f (lawyers w)).
  rewrite lookup_alter_eq, Hrow. cbn [fmap option_fmap option_map].
  eexists. eexists. split; [reflexivity |]. split; [reflexivity |].
  destruct (ratings_of lawyerId w) as [|r rs] eqn:E.
  - split; discriminate.
  - apply roundedAverage_bounds; [discriminate | exact Hall].
Qed.

Lemma updateLawyerRating_stays_on_scale_witness :
  exists (l' : Lawyer.t) (average : Q),
    lawyers (updateLawyerRating "bob" Demo.world).2 !! "bob" = Some l' /\
    Lawyer.average_rating l' = Some average /\
    1 <= average /\ average <= 5.
Proof.
  apply (updateLawyerRating_stays_on_scale "bob" Demo.bob_lawyer Demo.world).
  - reflexivity.
  - vm_compute. repeat constructor; discriminate.
  - vm_compute. reflexivity.
Defined.

End NumericFacts.

Module MessagingUtilFacts.
Import MessagingUtil.





End MessagingUtilFacts.

Module PaymentMethodFacts.
Import PaymentMethods Wallet.

Lemma setDefaultPaymentMethod_run (userId : string) (paymentMethodId : nat) (w : World) :
  outage w (S (requests w)) = None ->
  exists w',
    setDefaultPaymentMethod userId paymentMethodId w
      = ({| success := true; data := None; error := None |}, w') /\
    payment_methods w' =
      map (fun m => if has_id paymentMethodId m then with_default true m else m)
        (match outage w (requests w) with
         | None => map (fun m => if owned_by userId m then with_default false m else m)
                     (payment_methods w)
         | Some _ => payment_methods w
         end).
Proof.
  intros Hsecond.
  unfold setDefaultPaymentMethod, try_catch, unset_defaults, set_default.
  rewrite run_bind. unfold request at 1.
  destruct (outage w (requests w)) as [msg|].
  - rewrite run_bind, request_served by exact Hsecond.
    cbn [fst snd Supabase.error Supabase.done]. rewrite run_ret.
    eexists. split; reflexivity.
  - rewrite run_bind, request_served by exact Hsecond.
    cbn [fst snd Supabase.error Supabase.done]. rewrite run_ret.
    eexists. split; reflexivity.
Qed.

Lemma chosen_twice (userId : string) (paymentMethodId : nat) (rows : list PaymentMethod.t) :
  map (fun m => if has_id paymentMethodId m then with_default true m else m)
    (map (fun m => if owned_by userId m then with_default false m else m) rows)
  = map (chosen userId paymentMethodId) rows.
Proof.
  rewrite map_map. apply map_ext. intros m. unfold chosen.
  destruct (owned_by userId m) eqn:Eo, (has_id paymentMethodId m) eqn:Ei;
    try reflexivity.
  - unfold has_id in *. cbn. now rewrite Ei.
  - unfold has_id in *. cbn. now rewrite Ei.
Qed.

(** X9. When the backend answers both updates, [setDefaultPaymentMethod]
    succeeds and rewrites nothing but [is_default]: a method owned by
    the user ends up default exactly when it is the chosen one, the
    chosen one is default, and any other method keeps its flag.  No row
    is added or removed. *)
Theorem setDefaultPaymentMethod_single_default
    (userId : string) (paymentMethodId : nat) (w : World) :
  outage w (requests w) = None ->
  outage w (S (requests w)) = None ->
  let outcome := setDefaultPaymentMethod userId paymentMethodId w in
  success outcome.1 = true /\
  payment_methods outcome.2
    = map (chosen userId paymentMethodId) (payment_methods w) /\
  (forall m, m ∈ payment_methods outcome.2 ->
     PaymentMethod.user_id m = userId ->
     (PaymentMethod.is_default m = true <-> PaymentMethod.id m = paymentMethodId)).
Proof.
  intros Hfirst Hsecond outcome. subst outcome.
  destruct (setDefaultPaymentMethod_run userId paymentMethodId w Hsecond)
    as (w' & -> & Hrows).
  rewrite Hfirst, chosen_twice in Hrows. cbn [fst snd success].
  split; [reflexivity |]. split; [exact Hrows |].
  intros m Hin Howner. rewrite Hrows in Hin.
  apply list_elem_of_fmap in Hin as (m0 & -> & _).
  unfold chosen in *. unfold has_id, owned_by in *.
  destruct (bool_decide (PaymentMethod.id m0 = paymentMethodId)) eqn:Ei.
  - apply bool_decide_eq_true in Ei. cbn. tauto.
  - apply bool_decide_eq_false in Ei.
    destruct (bool_decide (PaymentMethod.user_id m0 = userId)) eqn:Eo.
    + cbn. split; [discriminate | contradiction].
    + apply bool_decide_eq_false in Eo. contradiction.
Qed.

Lemma setDefaultPaymentMethod_single_default_witness :
  let outcome := setDefaultPaymentMethod "alice" 2 Wallet.world in
  success outcome.1 = true /\
  payment_methods outcome.2
    = [card 1 "alice" false; card 2 "alice" true; card 3 "carol" true].
Proof.
  destruct (setDefaultPaymentMethod_single_default "alice" 2 Wallet.world)
    as (Hok & Hrows & _); [reflexivity | reflexivity |].
  split; [exact Hok |]. rewrite Hrows. reflexivity.
Defined.

End PaymentMethodFacts.

Module SendingFacts.
Import Sending SendingSpec.

Lemma stamped_refl (conversationId : nat) (rows : list Conversation.t) :
  Forall2 (stamped conversationId) rows rows.
Proof. induction rows; constructor; auto. now left. Qed.

Lemma stamped_map (conversationId : nat) (now : N) (rows : list Conversation.t) :
  Forall2 (stamped conversationId) rows
    (map (fun c => if bool_decide (Conversation.id c = conversationId)
                   then touch now c else c) rows).
Proof.
  induction rows as [|c rows IH]; simpl; constructor; auto.
  destruct (bool_decide (Conversation.id c = conversationId)) eqn:E; [| now left].
  apply bool_decide_eq_true in E. right. eauto.
Qed.

(** A send without attachment whose insert is answered. *)
Lemma sendMessage_plain_run (conversationId : nat) (senderId : string)
    (messageText : option string) (w : World) :
  outage w (requests w) = None ->
  exists w',
    sendMessage conversationId senderId messageText None w
      = ({| success := true;
            data := Some (sent conversationId senderId messageText w);
            error := None |}, w') /\
    messages w' = messages w ++ [sent conversationId senderId messageText w] /\
    Forall2 (stamped conversationId) (conversations w) (conversations w') /\
    outage w' = outage w /\ requests w' = S (S (requests w)).
Proof.
  intros Hnet. unfold sendMessage, try_catch.
  rewrite run_bind, run_ret, run_bind, run_Date_now, run_bind.
  unfold insert_message. rewrite request_served by exact Hnet.
  cbn [fst snd Supabase.error Supabase.ok Supabase.data].
  rewrite run_bind, run_Date_now, run_bind.
  unfold update_last_message_at, request at 1.
  match goal with
  | |- context [match outage ?w0 (requests ?w0) with _ => _ end] =>
      destruct (outage w0 (requests w0))
  end.
  - rewrite run_ret. eexists. split; [reflexivity |].
    split; [reflexivity |]. split; [apply stamped_refl |]. split; reflexivity.
  - rewrite run_ret. eexists. split; [reflexivity |].
    split; [reflexivity |]. split; [apply stamped_map |]. split; reflexivity.
Qed.

(** A send with an attachment whose upload fails. *)
Lemma sendMessage_upload_failed (conversationId : nat) (senderId : string)
    (messageText : option string) (file : SupabaseClient.File) (w : World)
    (msg : string) :
  outage w (requests w) = Some msg ->
  sendMessage conversationId senderId messageText (Some file) w
  = ({| success := false; data := None;
        error := Some "Failed to upload attachment" |}, tick w).
Proof.
  intros Hnet. unfold sendMessage, try_catch.
  rewrite run_bind, run_bind, run_Date_now, run_bind.
  unfold SupabaseClient.uploadFile. rewrite run_bind.
  rewrite (request_failed _ _ msg) by exact Hnet.
  cbn [Supabase.error Supabase.data Supabase.failed]. rewrite run_ret.
  reflexivity.
Qed.

(** X10. [sendMessage] with an attachment whose upload fails reports
    'Failed to upload attachment' and stores no message.  Without an
    attachment, once the insert is answered it reports success, appends
    exactly one message to the table, unread, in the given conversation
    and from the given sender, and changes a conversation row at most by
    stamping [last_message_at] on the conversation written to; whether
    that stamp goes through does not affect the result. *)
Theorem sendMessage_effects (conversationId : nat) (senderId : string)
    (messageText : option string) (w : World) :
  (forall (file : SupabaseClient.File) (msg : string),
     outage w (requests w) = Some msg ->
     let outcome := sendMessage conversationId senderId messageText (Some file) w in
     success outcome.1 = false /\
     error outcome.1 = Some "Failed to upload attachment" /\
     messages outcome.2 = messages w /\
     conversations outcome.2 = conversations w) /\
  (outage w (requests w) = None ->
   let outcome := sendMessage conversationId senderId messageText None w in
   exists row,
     success outcome.1 = true /\ data outcome.1 = Some row /\
     messages outcome.2 = messages w ++ [row] /\
     Message.conversation_id row = conversationId /\
     Message.sender_id row = senderId /\
     Message.message_text row = messageText /\
     Message.is_read row = false /\
     Forall2 (stamped conversationId) (conversations w) (conversations outcome.2)).
Proof.
  split.
  - intros file msg Hnet outcome. subst outcome.
    rewrite (sendMessage_upload_failed _ _ _ _ _ msg Hnet). cbn. auto.
  - intros Hnet outcome. subst outcome.
    destruct (sendMessage_plain_run conversationId senderId messageText w Hnet)
      as (w' & -> & Hrows & Hconv & _).
    exists (sent conversationId senderId messageText w). cbn [fst snd success data].
    repeat (split; [first [reflexivity | assumption] |]). exact Hconv.
Qed.

Lemma sendMessage_effects_witness :
  let outcome := sendMessage 0 "alice" (Some "hi") None Demo.world in
  exists row,
    success outcome.1 = true /\ data outcome.1 = Some row /\
    messages outcome.2 = messages Demo.world ++ [row] /\
    Message.conversation_id row = 0%nat /\
    Message.sender_id row = "alice" /\
    Message.message_text row = Some "hi" /\
    Message.is_read row = false /\
    Forall2 (stamped 0) (conversations Demo.world) (conversations outcome.2).
Proof.
  apply (proj2 (sendMessage_effects 0 "alice" (Some "hi") Demo.world)). reflexivity.
Defined.

Lemma unread_marked (conversationId : nat) (userId : string) (now : N)
    (rows : list Message.t) :
  List.filter (Messaging.unread_for conversationId userId)
    (Messaging.marked conversationId userId now rows) = [].
Proof.
  induction rows as [|m rows IH]; simpl; [reflexivity |].
  destruct (Messaging.unread_for conversationId userId m) eqn:E.
  - replace (Messaging.unread_for conversationId userId (Messaging.mark_read now m))
      with false; [exact IH |].
    unfold Messaging.unread_for. simpl. now rewrite andb_false_r.
  - simpl. now rewrite E.
Qed.

Lemma unread_for_sent_other (conversationId : nat) (senderId readerId : string)
    (messageText : option string) (w : World) :
  readerId <> senderId ->
  Messaging.unread_for conversationId readerId
    (sent conversationId senderId messageText w) = true.
Proof.
  intros Hne. unfold Messaging.unread_for. cbn.
  rewrite bool_decide_eq_true_2 by reflexivity.
  now rewrite (bool_decide_eq_false_2 (senderId = readerId)) by congruence.
Qed.

Lemma unread_for_sent_own (conversationId : nat) (senderId : string)
    (messageText : option string) (w : World) :
  Messaging.unread_for conversationId senderId
    (sent conversationId senderId messageText w) = false.
Proof.
  unfold Messaging.unread_for. cbn.
  rewrite (bool_decide_eq_true_2 (senderId = senderId)) by reflexivity.
  now rewrite andb_false_r.
Qed.

(** X11. Sending and reading compose: with a backend that answers, a message
    sent into a conversation is one more unread message for every other
    user and none for its sender; after the reader marks the conversation
    as read, nothing in it is unread for the reader. *)
Theorem send_then_read (conversationId : nat) (senderId readerId : string)
    (messageText : option string) (w : World) :
  reliable w -> readerId <> senderId ->
  let w1 := (sendMessage conversationId senderId messageText None w).2 in
  let w2 := (Messaging.markMessagesAsRead conversationId readerId w1).2 in
  length (unread conversationId readerId w1)
    = S (length (unread conversationId readerId w)) /\
  unread conversationId senderId w1 = unread conversationId senderId w /\
  unread conversationId readerId w2 = [].
Proof.
  intros Hnet Hne w1 w2. subst w2 w1.
  destruct (sendMessage_plain_run conversationId senderId messageText w (Hnet _))
    as (w1 & -> & Hrows & _ & Hout & Hreq).
  cbn [snd].
  rewrite (MessagingFacts.markMessagesAsRead_run conversationId readerId w1).
  rewrite Hout, Hnet. cbn [snd].
  unfold unread.
  change (messages (set_messages ?f (tick w1))) with (f (messages w1)).
  rewrite unread_marked, Hrows, !List.filter_app, !length_app.
  cbn [List.filter].
  rewrite (unread_for_sent_other conversationId senderId readerId) by exact Hne.
  rewrite unread_for_sent_own. cbn [length]. rewrite app_nil_r.
  split; [lia | auto].
Qed.

Lemma send_then_read_witness :
  let w1 := (sendMessage 0 "alice" (Some "hi") None Demo.world).2 in
  let w2 := (Messaging.markMessagesAsRead 0 "bob" w1).2 in
  length (unread 0 "bob" w1) = S (length (unread 0 "bob" Demo.world)) /\
  unread 0 "alice" w1 = unread 0 "alice" Demo.world /\
  unread 0 "bob" w2 = [].
Proof.
  apply (send_then_read 0 "alice" "bob" (Some "hi") Demo.world).
  - intros n. reflexivity.
  - discriminate.
Defined.

End SendingFacts.

Module ListingFacts.
Import Messaging.

(** Running a callback over the rows, with an invariant of the world and
    a relation between each row and its result. *)
Lemma for_each_inv {A B : Type} (I : World -> Prop) (P : A -> B -> Prop)
    (f : A -> Async B) (rows : list A) :
  (forall x w, I w -> exists y w', f x w = (inr y, w') /\ I w' /\ P x y) ->
  forall w, I w ->
    exists ys w', for_each f rows w = (inr ys, w') /\ I w' /\ Forall2 P rows ys.
Proof.
  intros Hf. induction rows as [|row rest IH]; intros w Hw; simpl.
  - rewrite run_ret. eauto.
  - rewrite run_bind. destruct (Hf row w Hw) as (y & w1 & -> & Hw1 & Hy).
    rewrite run_bind. destruct (IH w1 Hw1) as (ys & w2 & -> & Hw2 & Hys).
    rewrite run_ret. eauto 6.
Qed.

Lemma single_lookup {A : Type} (tbl : gmap string A) (key : string) :
  Supabase.data (Supabase.single (rows_at tbl key)) = tbl !! key.
Proof. unfold rows_at. now destruct (tbl !! key). Qed.

Lemma select_user_reliable (userId : string) (w : World) :
  reliable w ->
  exists r, select_user userId w = (inr r, tick w) /\
            Supabase.data r = users w !! userId.
Proof.
  intros H. unfold select_user. rewrite run_read by exact H.
  eexists. split; [reflexivity |]. exact (single_lookup (users w) userId).
Qed.

Lemma message_earlier_total : Total message_earlier.
Proof. intros a b. unfold message_earlier. lia. Qed.

Lemma message_earlier_trans : Transitive message_earlier.
Proof. intros a b c. unfold message_earlier. lia. Qed.

(** With a backend that answers, the rows [getMessages] returns. *)
Lemma getMessages_reliable (conversationId : nat) (limit : option nat) (w : World) :
  reliable w ->
  exists w',
    getMessages conversationId limit w =
    ({| success := true;
        data := Some
          (map (fun m => {| msg := m; sender := users w !! Message.sender_id m |})
             (take (default default_limit limit)
                (merge_sort message_earlier
                   (filter (in_conversation conversationId) (messages w)))));
        error := None |}, w').
Proof.
  intros Hnet. unfold getMessages, try_catch. cbv zeta.
  rewrite run_bind, run_read by exact Hnet.
  cbn [Supabase.error Supabase.ok Supabase.data or_empty].
  change (messages (tick w)) with (messages w).
  set (rows := take _ _).
  rewrite run_bind.
  destruct (for_each_inv
              (fun w' => reliable w' /\ users w' = users w)
              (fun m y => y = {| msg := m; sender := users w !! Message.sender_id m |})
              (fun msg =>
                 sender ← select_user (Message.sender_id msg);
                 mret {| msg := msg; sender := Supabase.data sender |})
              rows) with (w := tick w) as (ys & w' & -> & _ & Hys).
  - intros m w0 [Hnet0 Husers0]. rewrite run_bind.
    destruct (select_user_reliable (Message.sender_id m) w0 Hnet0) as (r & -> & Hr).
    rewrite run_ret. eexists. eexists. split; [reflexivity |].
    split; [split; [exact Hnet0 | exact Husers0] |].
    now rewrite Hr, Husers0.
  - split; [exact Hnet | reflexivity].
  - rewrite run_ret. cbn [or_empty]. exists w'. repeat f_equal.
    clear -Hys. induction Hys as [|m y ms ys -> _ IH]; simpl; [reflexivity |].
    now rewrite IH.
Qed.

(** X12. With a backend that answers, [getMessages] returns the oldest
    messages of the conversation, at most [limit] of them (50 when no
    limit is given), in ascending order of [created_at], each with the
    profile row of its sender: when the conversation holds more, the
    messages left out are all at least as recent as every message
    returned. *)
Theorem getMessages_oldest_first (conversationId : nat) (limit : option nat) (w : World) :
  reliable w ->
  let outcome := getMessages conversationId limit w in
  let held := filter (in_conversation conversationId) (messages w) in
  exists rows rest,
    success outcome.1 = true /\ data outcome.1 = Some rows /\
    map msg rows ++ rest ≡ₚ held /\
    length rows = Nat.min (default 50%nat limit) (length held) /\
    StronglySorted message_earlier (map msg rows) /\
    (forall m r, m ∈ map msg rows -> r ∈ rest ->
                 (Message.created_at m <= Message.created_at r)%N) /\
    Forall (fun y => sender y = users w !! Message.sender_id (msg y)) rows.
Proof.
  intros Hnet outcome held. subst outcome.
  destruct (getMessages_reliable conversationId limit w Hnet) as (w' & ->).
  cbn [fst success data]. fold held.
  set (n := default default_limit limit).
  set (sorted := merge_sort message_earlier held).
  assert (Hperm : sorted ≡ₚ held) by apply merge_sort_Permutation.
  assert (Hsorted : StronglySorted message_earlier sorted)
    by exact (StronglySorted_merge_sort (Transitive0 := message_earlier_trans)
                (Total0 := message_earlier_total) message_earlier held).
  eexists. exists (drop n sorted). split; [reflexivity |]. split; [reflexivity |].
  rewrite map_map. cbn [msg]. rewrite map_id.
  rewrite <- (take_drop n sorted) in Hsorted.
  split; [now rewrite take_drop |].
  split.
  { rewrite length_map, length_take. unfold n, default_limit.
    now rewrite (Permutation_length Hperm). }
  split; [now apply StronglySorted_app_1_l in Hsorted |].
  split.
  { intros m r Hm Hr.
    exact (StronglySorted_app_1_elem_of _ _ _ _ _ Hsorted Hm Hr). }
  clear Hsorted.
  induction (take n sorted) as [|m ms IH]; simpl; constructor; auto.
Qed.

Lemma getMessages_oldest_first_witness :
  exists rows,
    data (getMessages 0 (Some 2%nat) Demo.world).1 = Some rows /\
    map msg rows = [Demo.message 0 0 "alice" false 6; Demo.message 1 0 "bob" false 7].
Proof.
  destruct (getMessages_oldest_first 0 (Some 2%nat) Demo.world)
    as (rows & rest & _ & Hdata & _); [intros n; reflexivity |].
  exists rows. split; [exact Hdata |].
  vm_compute in Hdata. injection Hdata as <-. reflexivity.
Defined.

End ListingFacts.

Module ConversationListFacts.
Import Messaging ListingSpec ListingFacts.

Lemma read_either {A : Type} (answer : World -> Supabase.Response A) (w : World) :
  exists r, read answer w = (inr r, tick w) /\
            (r = answer (tick w) \/ Supabase.data r = None).
Proof.
  destruct (read_cases answer w) as [H | (msg & H)]; rewrite H; eauto.
Qed.

(** One entry, whatever the backend does to the four lookups. *)
Lemma details_describe (userId : string) (w0 : World) (c : Conversation.t) (w : World) :
  c ∈ conversations w0 -> party userId c ->
  users w = users w0 /\ messages w = messages w0 ->
  exists y w',
    (client ← select_user (Conversation.client_id c);
     lawyer ← select_user (Conversation.lawyer_id c);
     lastMsg ← last_message (Conversation.id c);
     count ← count_unread (Conversation.id c) userId;
     mret {| conv := c;
             client := Supabase.data client;
             lawyer := Supabase.data lawyer;
             lastMessage := Supabase.data lastMsg;
             unreadCount := default 0%nat (Supabase.data count) |}) w
    = (inr y, w') /\
    (users w' = users w0 /\ messages w' = messages w0) /\
    describes userId w0 y.
Proof.
  intros Hin Hparty [Husers Hmessages].
  unfold select_user, last_message, count_unread.
  rewrite run_bind.
  match goal with |- context [read ?a w] =>
    destruct (read_either a w) as (r1 & -> & H1) end.
  rewrite run_bind.
  match goal with |- context [read ?a (tick w)] =>
    destruct (read_either a (tick w)) as (r2 & -> & H2) end.
  rewrite run_bind.
  match goal with |- context [read ?a (tick (tick w))] =>
    destruct (read_either a (tick (tick w))) as (r3 & -> & H3) end.
  rewrite run_bind.
  match goal with |- context [read ?a (tick (tick (tick w)))] =>
    destruct (read_either a (tick (tick (tick w)))) as (r4 & -> & H4) end.
  rewrite run_ret. eexists. eexists. split; [reflexivity |].
  split; [split; [exact Husers | exact Hmessages] |].
  unfold describes. cbn [conv client lawyer unreadCount].
  split; [exact Hin |]. split; [exact Hparty |].
  split; [| split].
  - destruct H1 as [-> | ->]; [right | now left].
    change (users (tick w)) with (users w).
    now rewrite single_lookup, Husers.
  - destruct H2 as [-> | ->]; [right | now left].
    change (users (tick (tick w))) with (users w).
    now rewrite single_lookup, Husers.
  - destruct H4 as [-> | ->]; [right | now left].
    cbn [Supabase.data Supabase.ok default from_option Datatypes.id].
    change (messages (tick (tick (tick (tick w))))) with (messages w).
    unfold Sending.unread. now rewrite Hmessages.
Qed.

(** Every entry that [getUserConversations] returns describes one of
    the user's conversations, under any schedule of failures. *)
Lemma getUserConversations_describes (userId : string) (w : World) :
  exists rows,
    data (getUserConversations userId w).1 = Some rows /\
    Forall (describes userId w) rows.
Proof.
  unfold getUserConversations, try_catch. rewrite run_bind.
  match goal with |- context [read ?a w] =>
    destruct (read_cases a w) as [-> | (msg & ->)] end.
  2:{ cbn. eauto. }
  cbn [Supabase.error Supabase.ok Supabase.data or_empty].
  change (conversations (tick w)) with (conversations w).
  set (rows := merge_sort newer_first (filter (party userId) (conversations w))).
  assert (Hrows : Forall (fun c => c ∈ conversations w /\ party userId c) rows).
  { apply Forall_forall. intros c Hc. subst rows.
    rewrite merge_sort_Permutation in Hc. now apply list_elem_of_filter in Hc. }
  rewrite run_bind.
  assert (Hrun : forall w1, users w1 = users w /\ messages w1 = messages w ->
            exists ys w',
              for_each
                (fun conv =>
                   client ← select_user (Conversation.client_id conv);
                   lawyer ← select_user (Conversation.lawyer_id conv);
                   lastMsg ← last_message (Conversation.id conv);
                   count ← count_unread (Conversation.id conv) userId;
                   mret {| conv := conv;
                           client := Supabase.data client;
                           lawyer := Supabase.data lawyer;
                           lastMessage := Supabase.data lastMsg;
                           unreadCount := default 0%nat (Supabase.data count) |})
                rows w1 = (inr ys, w') /\
              Forall (describes userId w) ys).
  { induction Hrows as [|c rest [Hin Hparty] _ IH]; intros w1 Hw1; simpl.
    - rewrite run_ret. eauto.
    - rewrite run_bind.
      destruct (details_describe userId w c w1 Hin Hparty Hw1)
        as (y & w2 & -> & Hw2 & Hy).
      rewrite run_bind. destruct (IH w2 Hw2) as (ys & w3 & -> & Hys).
      rewrite run_ret. eauto. }
  destruct (Hrun (tick w)) as (ys & w' & -> & Hys); [split; reflexivity |].
  rewrite run_ret. cbn [fst data]. eauto.
Qed.

(** X13. In every entry that [getUserConversations] returns to a user,
    [getConversationPartner] names the other side of the conversation:
    the lawyer when the user is the client, the client otherwise.  This
    holds whether or not the profile lookups succeeded, provided profile
    rows are stored under their own identifiers; so a user is never shown
    as their own partner in a conversation between two different users. *)
Theorem getConversationPartner_other_side (userId : string) (w : World) :
  users_keyed w ->
  exists rows,
    data (getUserConversations userId w).1 = Some rows /\
    Forall (fun entry =>
              let c := conv entry in
              let partner := MessagingUtil.getConversationPartner entry userId in
              (Conversation.client_id c = userId ->
               MessagingUtil.id partner = Conversation.lawyer_id c) /\
              (Conversation.client_id c <> userId ->
               Conversation.lawyer_id c = userId /\
               MessagingUtil.id partner = Conversation.client_id c) /\
              (Conversation.client_id c <> Conversation.lawyer_id c ->
               MessagingUtil.id partner <> userId))
           rows.
Proof.
  intros Hkeyed.
  destruct (getUserConversations_describes userId w) as (rows & Hdata & Hrows).
  exists rows. split; [exact Hdata |].
  eapply Forall_impl; [exact Hrows |]. clear Hdata Hrows rows.
  intros entry (_ & Hparty & Hclient & Hlawyer & _). cbv zeta.
  assert (Hc : MessagingUtil.id
                 (MessagingUtil.spread (Conversation.client_id (conv entry))
                    (client entry))
               = Conversation.client_id (conv entry)).
  { unfold MessagingUtil.spread. cbn [MessagingUtil.id].
    destruct Hclient as [-> | ->]; [reflexivity |].
    destruct (users w !! Conversation.client_id (conv entry)) eqn:E;
      [apply Hkeyed in E; exact E | reflexivity]. }
  assert (Hl : MessagingUtil.id
                 (MessagingUtil.spread (Conversation.lawyer_id (conv entry))
                    (lawyer entry))
               = Conversation.lawyer_id (conv entry)).
  { unfold MessagingUtil.spread. cbn [MessagingUtil.id].
    destruct Hlawyer as [-> | ->]; [reflexivity |].
    destruct (users w !! Conversation.lawyer_id (conv entry)) eqn:E;
      [apply Hkeyed in E; exact E | reflexivity]. }
  unfold MessagingUtil.getConversationPartner.
  destruct (bool_decide (Conversation.client_id (conv entry) = userId)) eqn:E.
  - apply bool_decide_eq_true in E. rewrite Hl.
    split; [reflexivity |]. split; [congruence |]. congruence.
  - apply bool_decide_eq_false in E. rewrite Hc.
    destruct Hparty as [H | H]; [contradiction |].
    split; [contradiction |]. split; [auto |]. congruence.
Qed.

Lemma getConversationPartner_other_side_witness :
  exists rows,
    data (getUserConversations "bob" Demo.world).1 = Some rows /\
    Forall (fun entry =>
              MessagingUtil.id (MessagingUtil.getConversationPartner entry "bob")
              = "alice") rows.
Proof.
  destruct (getConversationPartner_other_side "bob" Demo.world)
    as (rows & Hdata & Hrows).
  - intros key u. unfold Demo.world, users.
    intros H. apply lookup_insert_Some in H as [[<- <-] | [_ H]]; [reflexivity |].
    apply lookup_insert_Some in H as [[<- <-] | [_ H]]; [reflexivity |].
    apply lookup_insert_Some in H as [[<- <-] | [_ H]]; [reflexivity |].
    rewrite lookup_empty in H. discriminate.
  - exists rows. split; [exact Hdata |].
    vm_compute in Hdata. injection Hdata as <-.
    repeat constructor.
Defined.

(** X14. Once [markMessagesAsRead] has succeeded for a user, the
    conversation list of that user shows no unread message in that
    conversation, whatever the backend does to the lookups of the list. *)
Theorem marked_conversation_lists_zero (conversationId : nat) (userId : string)
    (w : World) :
  success (markMessagesAsRead conversationId userId w).1 = true ->
  let w1 := (markMessagesAsRead conversationId userId w).2 in
  exists rows,
    data (getUserConversations userId w1).1 = Some rows /\
    Forall (fun entry =>
              Conversation.id (conv entry) = conversationId ->
              unreadCount entry = 0%nat) rows.
Proof.
  rewrite (MessagingFacts.markMessagesAsRead_run conversationId userId w).
  destruct (outage w (requests w)) as [msg|]; [discriminate |].
  intros _. cbn [snd].
  set (w1 := set_messages _ _).
  assert (Hnone : Sending.unread conversationId userId w1 = []).
  { unfold Sending.unread.
    change (messages w1)
      with (marked conversationId userId (clock w) (messages w)).
    apply SendingFacts.unread_marked. }
  clearbody w1.
  destruct (getUserConversations_describes userId w1) as (rows & Hdata & Hrows).
  exists rows. split; [exact Hdata |].
  eapply Forall_impl; [exact Hrows |].
  intros entry (_ & _ & _ & _ & Hcount) Hid.
  destruct Hcount as [H | H]; [exact H |]. now rewrite H, Hid, Hnone.
Qed.

Lemma marked_conversation_lists_zero_witness :
  exists rows,
    data (getUserConversations "alice"
            (markMessagesAsRead 0 "alice" Demo.world).2).1 = Some rows /\
    Forall (fun entry =>
              Conversation.id (conv entry) = 0%nat -> unreadCount entry = 0%nat) rows.
Proof.
  apply (marked_conversation_lists_zero 0 "alice" Demo.world). reflexivity.
Defined.

End ConversationListFacts.

Module SearchFacts.
Import Search.
Local Open Scope Q_scope.



Lemma elem_of_bool_filter {A : Type} (f : A -> bool) (l : list A) (x : A) :
  x ∈ List.filter f l <-> x ∈ l /\ f x = true.
Proof. rewrite !list_elem_of_In. apply filter_In. Qed.






End SearchFacts.

Module BookingFacts.
Import Booking BookingSpec.

Lemma fetch_list_served {A : Type} (query : World -> list A) (w : World) :
  outage w (requests w) = None ->
  Search.fetch_list query w =
  ({| success := true; data := Some (query (tick w)); error := None |}, tick w).
Proof.
  intros Hnet. unfold Search.fetch_list, try_catch, read.
  rewrite run_bind, request_served by exact Hnet.
  cbn [fst snd Supabase.error Supabase.ok Supabase.data or_empty].
  now rewrite run_ret.
Qed.

(** X16. When the backend answers, the times [getBookedSlots] returns
    for a lawyer and a date are those of the lawyer's appointments on
    that date whose status is 'scheduled' or 'rescheduled'; appointments
    in any other status, 'confirmed' and 'cancelled' included, do not
    block their slot. *)
Theorem getBookedSlots_spec (lawyerId date : string) (w : World) :
  outage w (requests w) = None ->
  exists slots,
    success (Search.getBookedSlots lawyerId date w).1 = true /\
    data (Search.getBookedSlots lawyerId date w).1 = Some slots /\
    forall time, time ∈ slots <-> booked w lawyerId date time.
Proof.
  intros Hnet. unfold Search.getBookedSlots.
  rewrite fetch_list_served by exact Hnet. cbn [fst success data].
  eexists. split; [reflexivity |]. split; [reflexivity |].
  intros time. change (appointments (tick w)) with (appointments w).
  rewrite list_elem_of_fmap. unfold booked, rows_of. split.
  - intros (a & -> & Ha). apply SearchFacts.elem_of_bool_filter in Ha as [Ha Hcond].
    apply list_elem_of_fmap in Ha as ([key a'] & -> & Ha).
    apply elem_of_map_to_list in Ha. cbn [snd] in *.
    apply andb_prop in Hcond as [Hcond Hstatus].
    apply andb_prop in Hcond as [Hlawyer Hdate].
    apply bool_decide_eq_true in Hlawyer, Hdate.
    exists key, a'. repeat (split; [assumption |]). split; [| reflexivity].
    apply orb_prop in Hstatus as [H | H]; apply bool_decide_eq_true in H; auto.
  - intros (key & a & Ha & Hlawyer & Hdate & Hstatus & <-).
    exists a. split; [reflexivity |].
    apply SearchFacts.elem_of_bool_filter. split.
    + apply list_elem_of_fmap. exists (key, a). split; [reflexivity |].
      now apply elem_of_map_to_list.
    + rewrite (bool_decide_eq_true_2 _ Hlawyer), (bool_decide_eq_true_2 _ Hdate).
      destruct Hstatus as [H | H]; rewrite H; reflexivity.
Qed.

Lemma getBookedSlots_spec_witness :
  exists slots,
    data (Search.getBookedSlots "bob" "2025-01-10" Demo.world).1 = Some slots /\
    "10:00" ∈ slots.
Proof.
  destruct (getBookedSlots_spec "bob" "2025-01-10" Demo.world)
    as (slots & _ & Hdata & Hslots); [reflexivity |].
  exists slots. split; [exact Hdata |]. apply Hslots.
  exists "appt-1", Demo.booking. repeat split; auto.
Defined.

Lemma createAppointment_run (d : AppointmentData) (w : World) :
  outage w (requests w) = None ->
  appointments w !! uuid w (serial w) = None ->
  exists w',
    createAppointment d w
      = ({| success := true; data := Some (requested d w); error := None |}, w') /\
    appointments w' = <[uuid w (serial w) := requested d w]> (appointments w) /\
    outage w' = outage w /\ requests w' = S (requests w).
Proof.
  intros Hnet Hfresh. unfold createAppointment, try_catch, insert_appointment.
  rewrite run_bind, request_served by exact Hnet.
  change (uuid (tick w) (serial (tick w))) with (uuid w (serial w)).
  change (appointments (tick w)) with (appointments w).
  cbn [Appointment.id]. rewrite Hfresh.
  cbn [fst snd Supabase.error Supabase.ok Supabase.data]. rewrite run_ret.
  eexists. split; [reflexivity |]. split; [reflexivity |]. split; reflexivity.
Qed.

Lemma processPayment_run (amount : Q) (appointmentId : string) (w : World) :
  (0 < amount)%Q -> appointmentId <> "" ->
  outage w (requests w) = None ->
  exists r w',
    Payment.processPayment (payment_for appointmentId amount) w = (r, w') /\
    Payment.success r = true /\
    Payment.error r = None /\
    appointments w'
      = alter (Appointment.with_status "confirmed") appointmentId (appointments w).
Proof.
  intros Hpos Hne Hnet. unfold Payment.processPayment, try_catch, payment_for.
  cbn [Payment.amount Payment.appointmentId Payment.currency Payment.paymentMethod].
  assert (Payment.invalid_amount (Some amount) = false) as ->.
  { unfold Payment.invalid_amount. apply orb_false_iff. split.
    - apply not_true_is_false. rewrite Qeq_bool_iff. intros H. rewrite H in Hpos.
      now apply Qlt_irrefl in Hpos.
    - apply not_true_is_false. rewrite Qle_bool_iff. intros H.
      apply (Qlt_irrefl amount). eapply Qle_lt_trans; eauto. }
  assert (Js.falsy (Some appointmentId) = false) as ->
    by (destruct appointmentId; [congruence | reflexivity]).
  rewrite run_bind, run_sleep, run_bind, PaymentFacts.generateTransactionId_run.
  rewrite run_bind, run_Date_now, run_bind. unfold Payment.confirm_appointment.
  rewrite request_served by exact Hnet.
  cbn [fst snd Supabase.error Supabase.done from_option Datatypes.id].
  rewrite run_ret. eexists. eexists. split; [reflexivity |].
  split; [reflexivity |]. split; reflexivity.
Qed.

(** A row under a fresh key that is neither scheduled nor rescheduled
    leaves the booked slots as they were. *)
Lemma booked_insert_free (w w' : World) (key : string) (a : Appointment.t) :
  appointments w !! key = None ->
  appointments w' = <[key := a]> (appointments w) ->
  Appointment.status a <> "scheduled" -> Appointment.status a <> "rescheduled" ->
  forall lawyerId date time,
    booked w' lawyerId date time <-> booked w lawyerId date time.
Proof.
  intros Hfresh Hrows Hs Hr lawyerId date time. unfold booked. rewrite Hrows.
  split; intros (k & b & Hb & Hrest); exists k, b; split; try exact Hrest.
  - apply lookup_insert_Some in Hb as [[<- <-] | [_ Hb]]; [| exact Hb].
    destruct Hrest as (_ & _ & [H | H] & _); contradiction.
  - rewrite lookup_insert_ne; [exact Hb |]. intros <-. congruence.
Qed.

(** X17. The life of a booking, with a backend that answers and a fresh
    identifier: [createAppointment] stores the appointment as
    'scheduled' under that identifier and its slot becomes booked.
    After [cancelAppointment], and equally after a successful
    [processPayment] for it, which turns it 'confirmed', the booked slots
    are again exactly those from before the booking: a paid appointment
    no longer blocks its slot. *)
Theorem booking_lifecycle (d : AppointmentData) (amount : Q) (w : World) :
  reliable w ->
  appointments w !! uuid w (serial w) = None ->
  uuid w (serial w) <> "" -> (0 < amount)%Q ->
  let id := uuid w (serial w) in
  let created := createAppointment d w in
  let cancelled := (Appointments.cancelAppointment id created.2).2 in
  let paid := (Payment.processPayment (payment_for id amount) created.2).2 in
  success created.1 = true /\
  data created.1 = Some (requested d w) /\
  appointments created.2 !! id = Some (requested d w) /\
  booked created.2 (lawyerId d) (date d) (time d) /\
  appointments cancelled !! id
    = Some (Appointment.with_status "cancelled" (requested d w)) /\
  appointments paid !! id
    = Some (Appointment.with_status "confirmed" (requested d w)) /\
  (forall lawyerId date time,
     (booked cancelled lawyerId date time <-> booked w lawyerId date time) /\
     (booked paid lawyerId date time <-> booked w lawyerId date time)).
Proof.
  intros Hnet Hfresh Hne Hpos id created cancelled paid.
  subst cancelled paid created.
  destruct (createAppointment_run d w (Hnet _) Hfresh) as (w1 & -> & Hrows & Hout & Hreq).
  cbn [fst snd success data]. fold id in Hrows, Hfresh.
  assert (Hrow1 : appointments w1 !! id = Some (requested d w))
    by (rewrite Hrows; apply lookup_insert_eq).
  assert (Hnet1 : outage w1 (requests w1) = None) by (rewrite Hout; apply Hnet).
  (* cancelling *)
  unfold Appointments.cancelAppointment.
  rewrite (AppointmentFacts.updateAppointment_run id _ w1), Hnet1, Hrow1.
  rewrite AppointmentFacts.cancel_updates. cbn [snd].
  (* paying *)
  destruct (processPayment_run amount id w1 Hpos Hne Hnet1)
    as (r & w3 & -> & _ & _ & Hpaid).
  cbn [snd].
  split; [reflexivity |]. split; [reflexivity |]. split; [reflexivity |].
  split.
  { exists id, (requested d w). split; [exact Hrow1 |]. cbn. auto. }
  split.
  { change (appointments (set_appointments ?f (tick w1))) with (f (appointments w1)).
    apply lookup_insert_eq. }
  split.
  { rewrite Hpaid, lookup_alter_eq, Hrow1. reflexivity. }
  intros L D T. split.
  - apply (booked_insert_free w _ id
             (Appointment.with_status "cancelled" (requested d w)) Hfresh);
      [| discriminate | discriminate].
    change (appointments (set_appointments ?f (tick w1))) with (f (appointments w1)).
    rewrite Hrows. apply insert_insert_eq.
  - apply (booked_insert_free w _ id
             (Appointment.with_status "confirmed" (requested d w)) Hfresh);
      [| discriminate | discriminate].
    rewrite Hpaid, Hrows. apply alter_insert_eq.
Qed.

Lemma booking_lifecycle_witness :
  let created := createAppointment consultation Demo.world in
  success created.1 = true /\
  booked created.2 "bob" "2025-02-01" "09:00" /\
  (booked
     (Payment.processPayment (payment_for "user-1" 1150) created.2).2
     "bob" "2025-02-01" "09:00"
   <-> booked Demo.world "bob" "2025-02-01" "09:00").
Proof.
  destruct (booking_lifecycle consultation 1150 Demo.world)
    as (Hok & _ & _ & Hbooked & _ & _ & Hfree).
  - intros n. reflexivity.
  - vm_compute. reflexivity.
  - vm_compute. discriminate.
  - reflexivity.
  - split; [exact Hok |]. split; [exact Hbooked |].
    exact (proj2 (Hfree "bob" "2025-02-01" "09:00")).
Defined.

End BookingFacts.

Module ReviewingFacts.
Import Booking ReviewSpec.




End ReviewingFacts.

Module DeletionFacts.

Lemma filter_all {A : Type} (keep : A -> bool) (rows : list A) :
  (forall x, x ∈ rows -> keep x = true) -> List.filter keep rows = rows.
Proof.
  induction rows as [|x rows IH]; intros Hall; [reflexivity |].
  cbn. rewrite (Hall x) by apply list_elem_of_here. f_equal.
  apply IH. intros y Hy. apply Hall. now apply list_elem_of_further.
Qed.

(** X19. Deleting what is not there, with a backend that answers:
    [deleteMessage] and [deletePaymentMethod] remove nothing and report
    success, while [deleteAppointment] removes nothing and reports
    failure with the message 'Could not delete appointment. Check
    permissions.'. *)
Theorem delete_missing (messageId paymentMethodId : nat) (appointmentId : string)
    (w : World) :
  outage w (requests w) = None ->
  (forall m, m ∈ messages w -> Message.id m <> messageId) ->
  (forall m, m ∈ payment_methods w -> PaymentMethod.id m <> paymentMethodId) ->
  appointments w !! appointmentId = None ->
  let message := Sending.deleteMessage messageId w in
  let method := PaymentMethods.deletePaymentMethod paymentMethodId w in
  let appointment := Appointments.deleteAppointment appointmentId w in
  (success message.1 = true /\ messages message.2 = messages w) /\
  (success method.1 = true /\ payment_methods method.2 = payment_methods w) /\
  (success appointment.1 = false /\
   error appointment.1 = Some "Could not delete appointment. Check permissions." /\
   appointments appointment.2 = appointments w).
Proof.
  intros Hnet Hmessages Hmethods Happointment message method appointment.
  subst message method appointment. split; [| split].
  - unfold Sending.deleteMessage, try_catch, Sending.delete_message.
    rewrite run_bind, request_served by exact Hnet.
    cbn [fst snd Supabase.error Supabase.done]. rewrite run_ret.
    cbn [fst snd success]. split; [reflexivity |].
    change (messages (set_messages ?f (tick w))) with (f (messages w)).
    apply filter_all. intros m Hm. apply negb_true_iff, bool_decide_eq_false.
    now apply Hmessages.
  - unfold PaymentMethods.deletePaymentMethod, try_catch, PaymentMethods.delete_method.
    rewrite run_bind, request_served by exact Hnet.
    cbn [fst snd Supabase.error Supabase.done]. rewrite run_ret.
    cbn [fst snd success]. split; [reflexivity |].
    change (payment_methods (set_payment_methods ?f (tick w)))
      with (f (payment_methods w)).
    apply filter_all. intros m Hm. apply negb_true_iff.
    unfold PaymentMethods.has_id. apply bool_decide_eq_false. now apply Hmethods.
  - rewrite AppointmentFacts.deleteAppointment_run, Hnet, Happointment.
    cbn [fst snd success error]. split; [reflexivity |]. split; [reflexivity |].
    change (appointments (set_appointments ?f (tick w))) with (f (appointments w)).
    now apply delete_id.
Qed.

Lemma delete_missing_witness :
  success (Sending.deleteMessage 42 Demo.world).1 = true /\
  success (Appointments.deleteAppointment "appt-9" Demo.world).1 = false.
Proof.
  destruct (delete_missing 42 7 "appt-9" Demo.world)
    as ((Hmessage & _) & _ & (Happointment & _)).
  - reflexivity.
  - intros m Hm. unfold Demo.world in Hm. cbn [messages] in Hm.
    repeat (apply elem_of_cons in Hm as [-> | Hm]; [cbn; discriminate |]).
    now apply elem_of_nil in Hm.
  - intros m Hm. now apply elem_of_nil in Hm.
  - reflexivity.
  - split; assumption.
Defined.

End DeletionFacts.

Module ProfileFacts.
Import Auth ProfileSpec.

Lemma same_profiles_refl (w : World) : same_profiles w w.
Proof. repeat split. Qed.

Lemma same_profiles_trans (w1 w2 w3 : World) :
  same_profiles w1 w2 -> same_profiles w2 w3 -> same_profiles w1 w3.
Proof.
  intros (Hu & Hl & Hs) (Hu' & Hl' & Hs'). repeat split; congruence.
Qed.

Lemma same_profiles_tick (w : World) : same_profiles w (tick w).
Proof. repeat split. Qed.

Lemma ensures_throw {A : Type} (P : A -> Prop) (message : string) :
  ensures P (throw message).
Proof. intros w. split; [apply same_profiles_refl | exact I]. Qed.

Lemma ensures_ret {A : Type} (P : A -> Prop) (x : A) : P x -> ensures P (mret x).
Proof. intros Hx w. split; [apply same_profiles_refl | exact Hx]. Qed.

Lemma ensures_bind {A B : Type} (Q : A -> Prop) (P : B -> Prop)
    (m : Async A) (k : A -> Async B) :
  ensures Q m -> (forall x, Q x -> ensures P (k x)) -> ensures P (m ≫= k).
Proof.
  intros Hm Hk w. rewrite run_bind. specialize (Hm w).
  destruct (m w) as [[e | x] w1]; cbn [fst snd] in *.
  - split; [apply Hm | exact I].
  - destruct Hm as [Hsame Hx]. specialize (Hk x Hx w1).
    destruct Hk as [Hsame' HP]. split; [| exact HP].
    eapply same_profiles_trans; eassumption.
Qed.

Lemma ensures_request {A : Type} (Q : Supabase.Response A -> Prop)
    (serve : World -> Supabase.Response A * World) :
  (forall msg, Q (Supabase.failed msg)) ->
  (forall v, same_profiles v (serve v).2 /\ Q (serve v).1) ->
  ensures Q (request serve).
Proof.
  intros Hfailed Hserve w. unfold request.
  destruct (outage w (requests w)) as [msg|].
  - split; [apply same_profiles_tick | apply Hfailed].
  - specialize (Hserve (tick w)). destruct (serve (tick w)) as [r w1].
    cbn [fst snd] in *. destruct Hserve as [Hsame HQ]. split; [| exact HQ].
    eapply same_profiles_trans; [apply same_profiles_tick | exact Hsame].
Qed.

Lemma ensures_weaken {A : Type} (P Q : A -> Prop) (m : Async A) :
  (forall x, P x -> Q x) -> ensures P m -> ensures Q m.
Proof.
  intros HPQ Hm w. destruct (Hm w) as [Hsame HP]. split; [exact Hsame |].
  destruct (m w).1; auto.
Qed.

Lemma checkEmailExists_ensures (email : string) :
  ensures (fun _ => True) (checkEmailExists email).
Proof.
  unfold checkEmailExists.
  apply (ensures_bind (fun _ => True)).
  { apply ensures_request; [easy |]. intros v. split; [apply same_profiles_refl | exact I]. }
  intros _ _. apply (ensures_bind (fun _ => True)).
  { apply ensures_request; [easy |]. intros v. split; [apply same_profiles_refl | exact I]. }
  intros found _. now apply ensures_ret.
Qed.

(** The answer of the auth service: on success it carries a user. *)
Lemma auth_signUp_ensures (email password : string) :
  ensures (fun _ => True) (auth_signUp email password).
Proof.
  apply ensures_request; [easy |]. intros v.
  destruct (filter (registered email) (auth_users v)) as [|a rest].
  - split; [repeat split | exact I].
  - destruct (confirm_email v); (split; [repeat split | exact I]).
Qed.

(** X20. Whatever its arguments and whatever the backend does,
    [signUpWithVerification] writes no profile: the [users] and [lawyers]
    tables and the stored files are after the call what they were before,
    so the photo passed in is not uploaded; and whenever it reports
    success it asks for confirmation. *)
Theorem signUpWithVerification_writes_no_profile (params : SignUpParams) (w : World) :
  same_profiles w (signUpWithVerification params w).2 /\
  asks_confirmation (signUpWithVerification params w).1.
Proof.
  assert (Hbody : forall (body : Async SignUpResult) (remap : string -> string),
            ensures asks_confirmation body ->
            same_profiles w (try_catch body (fun m => failure (remap m)) w).2 /\
            asks_confirmation (try_catch body (fun m => failure (remap m)) w).1).
  { intros body remap Hens. unfold try_catch. destruct (Hens w) as [Hsame HP].
    destruct (body w) as [[e | x] w1]; cbn [fst snd] in *.
    - split; [exact Hsame |]. intros H. discriminate.
    - split; assumption. }
  unfold signUpWithVerification. apply Hbody. clear Hbody w.
  repeat match goal with
         | |- ensures _ (if ?b then _ else _) =>
             destruct b; [apply ensures_throw |]
         end.
  apply (ensures_bind (fun _ => True)); [apply checkEmailExists_ensures |].
  intros found _. destruct found; [apply ensures_throw |].
  apply (ensures_bind (fun _ => True)); [apply auth_signUp_ensures |].
  intros authData _.
  destruct (Supabase.error authData) as [authError|].
  { destruct (Js.includes authError "User already registered"); apply ensures_throw. }
  destruct (Supabase.data authData) as [user|]; [| apply ensures_throw].
  destruct (bool_decide (AuthUser.identities user = Some []));
    apply ensures_ret; intros _; reflexivity.
Qed.


End ProfileFacts.

Module SignUpFacts.
Import Auth SignUpSpec.





End SignUpFacts.

Module DefaultFirstFacts.
Import PaymentMethods Wallet.

Lemma default_first_total : Total Payment.default_first.
Proof.
  intros a b. unfold Payment.default_first.
  destruct (PaymentMethod.is_default a), (PaymentMethod.is_default b); cbn; auto.
Qed.

Lemma default_first_trans : Transitive Payment.default_first.
Proof.
  intros a b c. unfold Payment.default_first.
  destruct (PaymentMethod.is_default a), (PaymentMethod.is_default b),
    (PaymentMethod.is_default c); cbn; auto.
Qed.

Lemma setDefaultPaymentMethod_reliable (userId : string) (paymentMethodId : nat)
    (w : World) :
  reliable w ->
  exists w',
    (setDefaultPaymentMethod userId paymentMethodId w).2 = w' /\
    payment_methods w' = map (chosen userId paymentMethodId) (payment_methods w) /\
    outage w' = outage w.
Proof.
  intros Hnet.
  unfold setDefaultPaymentMethod, try_catch, unset_defaults, set_default.
  rewrite run_bind, request_served by apply Hnet. cbn [fst snd].
  rewrite run_bind, request_served by apply Hnet.
  cbn [fst snd Supabase.error Supabase.done]. rewrite run_ret. cbn [snd].
  eexists. split; [reflexivity |]. split; [| reflexivity].
  change (payment_methods (set_payment_methods ?f (tick (set_payment_methods ?g (tick w)))))
    with (f (g (payment_methods w))).
  apply PaymentMethodFacts.chosen_twice.
Qed.

(** The methods of a user once a default has been chosen. *)
Lemma chosen_owned (userId : string) (paymentMethodId : nat)
    (rows : list PaymentMethod.t) (x : PaymentMethod.t) :
  x ∈ List.filter (fun m => bool_decide (PaymentMethod.user_id m = userId))
        (map (chosen userId paymentMethodId) rows) ->
  PaymentMethod.user_id x = userId /\
  (PaymentMethod.is_default x = true <-> PaymentMethod.id x = paymentMethodId).
Proof.
  intros Hx. apply SearchFacts.elem_of_bool_filter in Hx as [Hx Howner].
  apply bool_decide_eq_true in Howner. split; [exact Howner |].
  apply list_elem_of_fmap in Hx as (m0 & -> & _).
  unfold chosen, has_id, owned_by in *.
  destruct (bool_decide (PaymentMethod.id m0 = paymentMethodId)) eqn:Ei.
  - apply bool_decide_eq_true in Ei. cbn. tauto.
  - apply bool_decide_eq_false in Ei.
    destruct (bool_decide (PaymentMethod.user_id m0 = userId)) eqn:Eo.
    + cbn. split; [discriminate | contradiction].
    + apply bool_decide_eq_false in Eo. contradiction.
Qed.

(** X23. Choosing a default and listing, with a backend that answers:
    after [setDefaultPaymentMethod] for one of the user's own methods,
    [getUserPaymentMethods] lists that method first, flagged as default,
    and every other entry of the list is a method of the user that is
    not flagged unless it carries the same identifier. *)
Theorem default_method_listed_first (userId : string) (paymentMethodId : nat)
    (m : PaymentMethod.t) (w : World) :
  reliable w ->
  m ∈ payment_methods w ->
  PaymentMethod.id m = paymentMethodId -> PaymentMethod.user_id m = userId ->
  let w' := (setDefaultPaymentMethod userId paymentMethodId w).2 in
  exists first rest,
    success (Payment.getUserPaymentMethods userId w').1 = true /\
    data (Payment.getUserPaymentMethods userId w').1 = Some (first :: rest) /\
    PaymentMethod.id first = paymentMethodId /\
    PaymentMethod.is_default first = true /\
    forall other, other ∈ rest ->
      PaymentMethod.user_id other = userId /\
      (PaymentMethod.is_default other = true ->
       PaymentMethod.id other = paymentMethodId).
Proof.
  intros Hnet Hm Hid Howner w'. subst w'.
  destruct (setDefaultPaymentMethod_reliable userId paymentMethodId w Hnet)
    as (w1 & -> & Hrows & Hout).
  unfold Payment.getUserPaymentMethods, try_catch, read.
  rewrite run_bind, request_served by (rewrite Hout; apply Hnet).
  cbn [fst snd Supabase.error Supabase.ok Supabase.data or_empty].
  rewrite run_ret. cbn [fst success data].
  change (payment_methods (tick w1)) with (payment_methods w1). rewrite Hrows.
  set (held := List.filter _ (map _ (payment_methods w))).
  set (sorted := merge_sort Payment.default_first held).
  assert (Hperm : sorted ≡ₚ held) by apply merge_sort_Permutation.
  assert (Hsorted : StronglySorted Payment.default_first sorted)
    by exact (StronglySorted_merge_sort (Transitive0 := default_first_trans)
                (Total0 := default_first_total) _ held).
  assert (Hheld : forall x, x ∈ sorted ->
            PaymentMethod.user_id x = userId /\
            (PaymentMethod.is_default x = true
             <-> PaymentMethod.id x = paymentMethodId)).
  { intros x Hx. rewrite Hperm in Hx. now apply chosen_owned in Hx. }
  assert (Hchosen : with_default true m ∈ sorted).
  { rewrite Hperm. apply SearchFacts.elem_of_bool_filter. split.
    - apply list_elem_of_fmap. exists m. split; [| exact Hm].
      unfold chosen, has_id. now rewrite bool_decide_eq_true_2.
    - now apply bool_decide_eq_true_2. }
  clearbody sorted. destruct sorted as [|first rest].
  { now apply elem_of_nil in Hchosen. }
  exists first, rest. split; [reflexivity |]. split; [reflexivity |].
  assert (Hdefault : PaymentMethod.is_default first = true).
  { apply elem_of_cons in Hchosen as [<- | Hlater]; [reflexivity |].
    apply StronglySorted_inv in Hsorted as [_ Hall].
    rewrite Forall_forall in Hall. specialize (Hall _ Hlater).
    unfold Payment.default_first in Hall. cbn in Hall.
    destruct (PaymentMethod.is_default first); [reflexivity | contradiction]. }
  split; [| split; [exact Hdefault |]].
  - apply (Hheld first); [apply list_elem_of_here | exact Hdefault].
  - intros other Hother.
    destruct (Hheld other) as [Ho Hd]; [now apply list_elem_of_further |].
    split; [exact Ho | apply Hd].
Qed.

Lemma default_method_listed_first_witness :
  exists first rest,
    data (Payment.getUserPaymentMethods "alice"
            (setDefaultPaymentMethod "alice" 2 Wallet.world).2).1
      = Some (first :: rest) /\
    PaymentMethod.id first = 2%nat.
Proof.
  destruct (default_method_listed_first "alice" 2 (card 2 "alice" false) Wallet.world)
    as (first & rest & _ & Hdata & Hid & _).
  - intros n. reflexivity.
  - apply list_elem_of_further, list_elem_of_here.
  - reflexivity.
  - reflexivity.
  - exists first, rest. split; assumption.
Defined.

End DefaultFirstFacts.

Module PaymentEdgeFacts.
Import BookingSpec.

(** X24. A valid payment naming an appointment that does not exist is
    reported as successful when the backend answers, and leaves every
    appointment as it was: the update that matches no row is no error. *)
Theorem processPayment_unknown_appointment (amount : Q) (appointmentId : string)
    (w : World) :
  (0 < amount)%Q -> appointmentId <> "" ->
  outage w (requests w) = None ->
  appointments w !! appointmentId = None ->
  let outcome := Payment.processPayment (payment_for appointmentId amount) w in
  Payment.success outcome.1 = true /\
  Payment.error outcome.1 = None /\
  appointments outcome.2 = appointments w.
Proof.
  intros Hpos Hne Hnet Hmissing outcome. subst outcome.
  destruct (BookingFacts.processPayment_run amount appointmentId w Hpos Hne Hnet)
    as (r & w' & -> & Hok & Herror & Hrows).
  cbn [fst snd]. split; [exact Hok |]. split; [exact Herror |].
  rewrite Hrows. apply alter_id. intros a Ha. congruence.
Qed.

Lemma processPayment_unknown_appointment_witness :
  Payment.success
    (Payment.processPayment (payment_for "appt-9" 1150) Demo.world).1 = true.
Proof.
  apply (processPayment_unknown_appointment 1150 "appt-9" Demo.world);
    [reflexivity | discriminate | reflexivity | reflexivity].
Defined.

End PaymentEdgeFacts.

Module AppointmentListFacts.
Import Search.

Lemma leb_trans (a b c : string) :
  String.leb a b = true -> String.leb b c = true -> String.leb a c = true.
Proof.
  unfold String.leb. revert b c.
  induction a as [|x a IH]; intros [|y b] [|z c]; cbn; try easy.
  unfold Ascii.compare.
  destruct (N.compare_spec (N_of_ascii x) (N_of_ascii y)) as [Hxy | Hxy | Hxy];
    destruct (N.compare_spec (N_of_ascii y) (N_of_ascii z)) as [Hyz | Hyz | Hyz];
    destruct (N.compare_spec (N_of_ascii x) (N_of_ascii z)) as [Hxz | Hxz | Hxz];
    try lia; try easy.
  apply IH.
Qed.

Lemma earlier_date_total : Total earlier_date.
Proof. intros a b. apply String.leb_total. Qed.

Lemma earlier_date_trans : Transitive earlier_date.
Proof. intros a b c. apply leb_trans. Qed.

Lemma StronglySorted_bool_filter {A : Type} (R : A -> A -> Prop) (keep : A -> bool)
    (rows : list A) :
  StronglySorted R rows -> StronglySorted R (List.filter keep rows).
Proof.
  induction 1 as [|x rows Hsorted IH Hall]; cbn; [constructor |].
  destruct (keep x); [| exact IH]. constructor; [exact IH |].
  rewrite Forall_forall in *. intros y Hy.
  apply SearchFacts.elem_of_bool_filter in Hy as [Hy _]. now apply Hall.
Qed.

(** X25. When the backend answers, [getUserAppointments] lists, by
    ascending date, exactly the appointments in which the user is the
    client or the lawyer and whose lawyer has both a lawyer row and a
    profile row; a status argument keeps those with that status only,
    and an absent or empty one keeps them all. *)
Theorem getUserAppointments_spec (userId : string) (status : option string)
    (w : World) :
  outage w (requests w) = None ->
  exists rows,
    success (getUserAppointments userId status w).1 = true /\
    data (getUserAppointments userId status w).1 = Some rows /\
    StronglySorted earlier_date rows /\
    forall a, a ∈ rows <->
      (exists key, appointments w !! key = Some a) /\
      (Appointment.client_id a = userId \/ Appointment.lawyer_id a = userId) /\
      is_Some (lawyers w !! Appointment.lawyer_id a) /\
      is_Some (users w !! Appointment.lawyer_id a) /\
      (status = None \/ status = Some "" \/ status = Some (Appointment.status a)).
Proof.
  intros Hnet. unfold getUserAppointments.
  rewrite BookingFacts.fetch_list_served by exact Hnet. cbn [fst success data].
  eexists. split; [reflexivity |]. split; [reflexivity |].
  change (appointments (tick w)) with (appointments w).
  change (lawyers (tick w)) with (lawyers w).
  change (users (tick w)) with (users w).
  split.
  - apply StronglySorted_bool_filter.
    exact (StronglySorted_merge_sort (Transitive0 := earlier_date_trans)
             (Total0 := earlier_date_total) _ _).
  - intros a. rewrite SearchFacts.elem_of_bool_filter, merge_sort_Permutation.
    rewrite SearchFacts.elem_of_bool_filter. unfold rows_of.
    rewrite list_elem_of_fmap. rewrite !andb_true_iff, orb_true_iff.
    rewrite !bool_decide_eq_true.
    assert (Hstatus :
      (if Js.falsy status then true
       else bool_decide (Some (Appointment.status a) = status)) = true
      <-> status = None \/ status = Some "" \/ status = Some (Appointment.status a)).
    { destruct status as [[|c s]|]; cbn.
      - tauto.
      - rewrite bool_decide_eq_true. split.
        + intros H. right. right. congruence.
        + intros [H | [H | H]]; congruence.
      - tauto. }
    rewrite Hstatus. split.
    + intros ((([key a'] & -> & Ha) & (Hparty & Hlawyer) & Hprofile) & Hs).
      apply elem_of_map_to_list in Ha. cbn [snd] in *.
      split; [eauto |]. tauto.
    + intros ((key & Ha) & Hparty & Hlawyer & Hprofile & Hs).
      split; [| exact Hs]. split; [| tauto].
      exists (key, a). split; [reflexivity |]. now apply elem_of_map_to_list.
Qed.

Lemma getUserAppointments_spec_witness :
  exists rows,
    data (getUserAppointments "carol" (Some "") Demo.world).1 = Some rows /\
    Demo.other_booking ∈ rows.
Proof.
  destruct (getUserAppointments_spec "carol" (Some "") Demo.world)
    as (rows & _ & Hdata & _ & Hrows); [reflexivity |].
  exists rows. split; [exact Hdata |]. apply Hrows.
  split; [exists "appt-2"; reflexivity |].
  split; [left; reflexivity |].
  split; [eexists; reflexivity |].
  split; [eexists; reflexivity |].
  right. left. reflexivity.
Defined.

End AppointmentListFacts.
